(** * ulmfit/train_clas.py: vocabulary, token-id cache and training schedule

    A shallow embedding of [new_train_clas], the single function of
    [src/ulmfit/train_clas.py].  The pure part (the [Counter], the token
    list [itos], the [Vocab] and the numericalisation of the splits) is a
    set of total functions; the effectful part (assertions, the file
    system, the reader and the calls into the training framework) is a
    program in a small state-and-exception monad over a [World] that holds
    the file system and the trace of external calls.

    What the model takes from outside the file:
    - a [dict] keeps its keys in the order of their first insertion, and
      [Counter.most_common(n)] is the stable sort by descending count cut
      at [n] (nothing for [n <= 0]);
    - fastai's [Vocab(itos)] builds [stoi] as [{v: k for k, v in
      enumerate(itos)}], so the last position of a repeated token wins;
    - the constants and the reader of [fastai_contrib.utils] are
      parameters; the reader is a function of the file system;
    - paths are sequences of name components; the names the script puts
      into paths ([dataset], [lang], [name], the split names) hold no
      separator;
    - [np.save]/[np.load] and [pickle.dump]/[pickle.load] give back what
      was stored; the framework keeps the weights of a learner in
      [path/model_dir/<name>.pth];
    - the calls into [torch] and fastai are recorded in the trace with
      their arguments, and change nothing else but the weights files. *)

From stdpp Require Import base list sorting strings gmap pretty.
From Stdlib Require Import ZArith.

(** ** Python containers used by the script *)

(** [collections.Counter] is a [dict]: its items are kept in the order
    in which the keys were first inserted (CPython 3.6 and later, which
    the f-strings of the script require).  The order decides how
    [most_common] breaks ties, so the counter is an association list. *)

(** [self[w] = self.get(w, 0) + 1]: an existing key keeps its place, a
    new key goes to the end. *)
Fixpoint counter_incr (w : string) (c : list (string * nat)) : list (string * nat) :=
  match c with
  | [] => [(w, 1)]
  | (k, n) :: c' =>
      if decide (k = w) then (k, S n) :: c' else (k, n) :: counter_incr w c'
  end.

(** [Counter(iterable)] *)
Definition Counter (ws : list string) : list (string * nat) :=
  foldl (λ c w, counter_incr w c) [] ws.

(** [Counter.__getitem__]: the count of a missing key is 0. *)
Fixpoint counter_get (c : list (string * nat)) (w : string) : nat :=
  match c with
  | [] => 0
  | (k, n) :: c' => if decide (k = w) then n else counter_get c' w
  end.

(** [sorted(items, key=itemgetter(1), reverse=True)]: Python's sort is
    stable, also with [reverse=True], so an item goes in front of the
    first item whose count is not larger than its own. *)
Fixpoint insert_desc (x : string * nat) (l : list (string * nat)) : list (string * nat) :=
  match l with
  | [] => [x]
  | y :: l' => if decide (y.2 ≤ x.2) then x :: y :: l' else y :: insert_desc x l'
  end.

Definition sorted_desc (l : list (string * nat)) : list (string * nat) :=
  foldr insert_desc [] l.

(** [Counter.most_common(n)] is [heapq.nlargest(n, self.items(),
    key=itemgetter(1))], which is documented as
    [sorted(items, key=key, reverse=True)[:n]]; for [n <= 0] the result is
    the empty list. *)
Definition most_common (n : Z) (c : list (string * nat)) : list (string * nat) :=
  if decide (n ≤ 0)%Z then [] else take (Z.to_nat n) (sorted_desc c).

(** [enumerate(l)] *)
Definition enumerate {A} (l : list A) : list (nat * A) := imap (λ i x, (i, x)) l.

(** [{v: k for k, v in pairs}]: a later pair overwrites an earlier one
    with the same key. *)
Definition dict_of_enumerated (kvs : list (nat * string)) : gmap string nat :=
  foldl (λ m kv, <[kv.2 := kv.1]> m) ∅ kvs.

(** ** fastai's [Vocab] *)

(** [fastai.text.transform.Vocab(itos)] stores the token list and sets
    [stoi = collections.defaultdict(int, {v: k for k, v in enumerate(itos)})]. *)
Record Vocab := mkVocab { itos : list string; stoi : gmap string nat }.

Definition Vocab_init (l : list string) : Vocab :=
  {| itos := l; stoi := dict_of_enumerated (enumerate l) |}.

(** [stoi[w]] on the [defaultdict(int)] *)
Definition stoi_getitem (m : gmap string nat) (w : string) : nat := default 0 (m !! w).

(** [stoi.get(w, d)]: [get] never calls the default factory. *)
Definition stoi_get (m : gmap string nat) (w : string) (d : nat) : nat := default d (m !! w).

(** Number of times [w] occurs in [ws]. *)
Definition occurrences (w : string) (ws : list string) : nat :=
  length (filter (λ x, x = w) ws).

Section Vocabulary.

(** The reserved tokens, constants of [fastai_contrib.utils]. *)
Variables UNK PAD : string.

(** Lines 71-75: the vocabulary of a training split. *)
Definition create_vocabulary (trn : list (list string)) (max_vocab : Z) : Vocab :=
  let counter := Counter (concat trn) in
  let itos0 := (most_common max_vocab counter).*1 in
  let itos1 := PAD :: itos0 in     (* itos.insert(0, PAD) *)
  let itos2 := UNK :: itos1 in     (* itos.insert(0, UNK) *)
  Vocab_init itos2.

(** Lines 82-83: [[stoi.get(w, stoi[UNK]) for w in s] for s in toks[split]] *)
Definition numericalize (m : gmap string nat) (exs : list (list string)) : list (list nat) :=
  map (λ s, map (λ w, stoi_get m w (stoi_getitem m UNK)) s) exs.

End Vocabulary.

(** ** Paths and the file system *)

(** A [pathlib.Path] is the sequence of its name components, relative to
    a fixed root.  [Path(segments)] drops the empty and the ["."]
    segments, as [pathlib] does. *)
Abbreviation Path := (list string).

Definition Path_init (segments : list string) : Path :=
  filter (λ s, s ≠ "" ∧ s ≠ ".") segments.

(** [p / s], for a name [s] that holds no separator: the name is one
    component.  [pathlib] splits any other string into its [parts] (below),
    so for a string with a separator a component of the model stands for
    several components of the real path. *)
Definition path_div (p : Path) (s : string) : Path := p ++ Path_init [s].

(** [p.name] and [p.parent] *)
Definition path_name (p : Path) : string := default "" (last p).
Definition path_parent (p : Path) : Path := take (length p - 1) p.

(** [str(p)] *)
Definition path_str (p : Path) : string :=
  match p with [] => "." | _ => String.concat "/" p end.

(** [s.split('/')] *)
Fixpoint split_slash (s : string) : list string :=
  match s with
  | EmptyString => [EmptyString]
  | String c s' =>
      if bool_decide (String c EmptyString = "/") then EmptyString :: split_slash s'
      else match split_slash s' with
           | [] => [String c EmptyString]
           | x :: l => String c x :: l
           end
  end.

(** The parts that [pathlib] makes of a relative path string: what is
    between the separators, but for the empty segments and ["."]; [".."]
    is kept. *)
Definition parts (s : string) : list string := Path_init (split_slash s).

(** Whether ['/'] occurs in [s]. *)
Fixpoint has_separator (s : string) : bool :=
  match s with
  | EmptyString => false
  | String c s' => bool_decide (String c EmptyString = "/") || has_separator s'
  end.

(** Where the file system finds the file with the parts [l], when the
    directories on the way exist and none of them is a link: [".."]
    leaves the directory before it. *)
Definition resolve (l : list string) : list string :=
  foldl (λ acc c,
           if decide (c = "..")
           then (if decide (acc = [] ∨ last acc = Some "..")
                 then acc ++ [".."] else removelast acc)
           else acc ++ [c]) [] l.

(** A [numpy] array as the script uses them: the ragged array of the
    token ids of a split, or the array of its labels. *)
Inductive Array :=
| ArrIds (rows : list (list nat))
| ArrLbls (labels : list Z).

Definition len (a : Array) : nat :=
  match a with ArrIds rows => length rows | ArrLbls labels => length labels end.

Inductive Node :=
| Dir
| NpyFile (a : Array)          (* written by [np.save] *)
| PklFile (v : Vocab)          (* written by [pickle.dump] *)
| PthFile                      (* weights written by the framework; that
                                  they are there, not which they are *)
| TextFile (content : string). (* anything else, e.g. the raw data *)

(** ** The training framework, as the script sees it *)

(** A float literal [mantissa * 10 ^ exponent]; the script only passes
    them on. *)
Record Dec := mkDec { mantissa : Z; exponent : Z }.

Record TextLMDataBunch := mkLMData {
  lm_path : Path; lm_vocab : Vocab; lm_trn_ids : Array; lm_val_ids : Array;
  lm_bs : Z; lm_bptt : Z }.

Record TextClasDataBunch := mkClasData {
  clas_path : Path; clas_vocab : Vocab; clas_trn_ids : Array; clas_val_ids : Array;
  clas_trn_lbls : Array; clas_val_lbls : Array; clas_bs : Z }.

Inductive LearnerKind := LanguageModel | Classifier.

(** The [learn] object: which learner it is, and its [path] and
    [model_dir] attributes. *)
Record Learner := mkLearner {
  learn_kind : LearnerKind; learn_path : Path; learn_model_dir : string }.

(** Every call that leaves the script, with its arguments. *)
Inductive Event :=
| Print (s : string)
| SetDevice (cuda_id : Z)
| ReadClasData (dataset_dir : Path) (dataset lang : string)
| Mkdir (p : Path)
| PickleDump (p : Path) (v : Vocab)
| PickleLoad (p : Path)
| NpSave (p : Path) (a : Array)
| NpLoad (p : Path)
| LMDataBunch_from_ids (d : TextLMDataBunch)
| ClasDataBunch_from_ids (d : TextClasDataBunch)
| LanguageModelLearner (data : TextLMDataBunch) (bptt emb_sz nh nl : Z) (qrnn : bool)
    (pad_token : Z) (pretrained_fnames : string * string) (path : Path) (model_dir : string)
| TextClassifierLearner (data : TextClasDataBunch) (bptt pad_token : Z)
    (path : Path) (model_dir : string) (qrnn : bool) (emb_sz nh nl : Z)
| Unfreeze (l : Learner)
| Fit (l : Learner) (epochs : Z) (lr : Dec * Dec)
| SaveEncoder (l : Learner) (name : string)
| LoadEncoder (l : Learner) (name : string)
| FitOneCycle (l : Learner) (cyc_len : Z) (max_lr : Dec) (moms : Dec * Dec) (wd : Dec)
| FreezeTo (l : Learner) (n : Z)
| Save (l : Learner) (name : string).

(** ** The script monad: a world, and exceptions that nothing catches *)

Inductive OSErrorKind := FileNotFound | FileExists | IsADirectory | NotADirectory.

Inductive Exn :=
| AssertionError (msg : string)
| KeyError (key : string)
| OSError (kind : OSErrorKind) (p : Path)
| BadFile (p : Path)              (* a file that is not of the expected format *)
| ReaderError (msg : string).     (* whatever [read_clas_data] raises *)

Inductive Result (A : Type) :=
| Ok (a : A)
| Raise (e : Exn).
Arguments Ok {A} a.
Arguments Raise {A} e.

Record World := mkWorld {
  fs : gmap Path Node;
  cuda_available : bool;
  trace : list Event }.

Definition Script (A : Type) : Type := World → Result A * World.

Definition script_ret {A} (a : A) : Script A := λ w, (Ok a, w).

Definition script_bind {A B} (f : A → Script B) (m : Script A) : Script B :=
  λ w, match m w with
       | (Ok a, w') => f a w'
       | (Raise e, w') => (Raise e, w')
       end.

#[export] Instance script_mret : MRet Script := @script_ret.
#[export] Instance script_mbind : MBind Script := @script_bind.

Definition raise {A} (e : Exn) : Script A := λ w, (Raise e, w).

(** The world after one more external call, and with another file system. *)
Definition add_event (e : Event) (w : World) : World :=
  mkWorld (fs w) (cuda_available w) (trace w ++ [e]).
Definition set_fs (f : gmap Path Node) (w : World) : World :=
  mkWorld f (cuda_available w) (trace w).

Definition emit (e : Event) : Script unit := λ w, (Ok tt, add_event e w).

Definition get_fs : Script (gmap Path Node) := λ w, (Ok (fs w), w).

Definition put_fs (f : gmap Path Node) : Script unit := λ w, (Ok tt, set_fs f w).

Definition print (s : string) : Script unit := emit (Print s).

(** [assert cond, msg] *)
Definition assert (cond : bool) (msg : string) : Script unit :=
  if cond then mret tt else raise (AssertionError msg).

(** [d[key]] on a plain [dict] *)
Definition dict_getitem {V} (d : gmap string V) (key : string) : Script V :=
  match d !! key with Some v => mret v | None => raise (KeyError key) end.

(** [for x in l: body], threading the variables [s] the body assigns *)
Fixpoint for_in {A S} (l : list A) (body : S → A → Script S) (s : S) : Script S :=
  match l with
  | [] => mret s
  | x :: l' => s' ← body s x; for_in l' body s'
  end.

(** [torch.cuda.is_available()] *)
Definition cuda_is_available : Script bool := λ w, (Ok (cuda_available w), w).

(** [p.exists()] *)
Definition path_exists (p : Path) : Script bool :=
  f ← get_fs; mret (bool_decide (is_Some (f !! p))).

(** [p.mkdir(exist_ok=True)] *)
Definition mkdir_exist_ok (p : Path) : Script unit :=
  emit (Mkdir p);;
  f ← get_fs;
  match f !! p with
  | Some Dir => mret tt
  | Some _ => raise (OSError FileExists p)
  | None =>
      match f !! path_parent p with
      | Some Dir => put_fs (<[p := Dir]> f)
      | Some _ => raise (OSError NotADirectory p)
      | None => raise (OSError FileNotFound p)
      end
  end.

(** Opening [p] for writing and storing [n] in it. *)
Definition write_file (p : Path) (n : Node) : Script unit :=
  f ← get_fs;
  match f !! p with
  | Some Dir => raise (OSError IsADirectory p)
  | _ => put_fs (<[p := n]> f)
  end.

(** [with open(p, 'wb') as f: pickle.dump(v, f)] *)
Definition pickle_dump (v : Vocab) (p : Path) : Script unit :=
  emit (PickleDump p v);; write_file p (PklFile v).

(** [with open(p, 'rb') as f: pickle.load(f)] *)
Definition pickle_load (p : Path) : Script Vocab :=
  emit (PickleLoad p);;
  f ← get_fs;
  match f !! p with
  | Some (PklFile v) => mret v
  | Some Dir => raise (OSError IsADirectory p)
  | Some _ => raise (BadFile p)
  | None => raise (OSError FileNotFound p)
  end.

(** [np.save(p, a)] *)
Definition np_save (p : Path) (a : Array) : Script unit :=
  emit (NpSave p a);; write_file p (NpyFile a).

(** [np.load(p)] *)
Definition np_load (p : Path) : Script Array :=
  emit (NpLoad p);;
  f ← get_fs;
  match f !! p with
  | Some (NpyFile a) => mret a
  | Some Dir => raise (OSError IsADirectory p)
  | Some _ => raise (BadFile p)
  | None => raise (OSError FileNotFound p)
  end.

(** Where a learner keeps the weights called [name]:
    [learn.path/learn.model_dir/f'{name}.pth']. *)
Definition weights_file (l : Learner) (name : string) : Path :=
  path_div (path_div (learn_path l) (learn_model_dir l)) (name +:+ ".pth").

(** The framework opening a file of its own for reading ([torch.load],
    [pickle.load] of a pretrained [itos]): the file has to be there. *)
Definition framework_read (p : Path) : Script unit :=
  f ← get_fs;
  match f !! p with
  | Some Dir => raise (OSError IsADirectory p)
  | Some _ => mret tt
  | None => raise (OSError FileNotFound p)
  end.

(** [torch.save] to [p] *)
Definition torch_save (p : Path) : Script unit := write_file p PthFile.

(** [TextLMDataBunch.from_ids] and [TextClasDataBunch.from_ids] *)
Definition TextLMDataBunch_from_ids (d : TextLMDataBunch) : Script TextLMDataBunch :=
  emit (LMDataBunch_from_ids d);; mret d.

Definition TextClasDataBunch_from_ids (d : TextClasDataBunch) : Script TextClasDataBunch :=
  emit (ClasDataBunch_from_ids d);; mret d.

(** [language_model_learner]: builds the learner and, as
    [pretrained_fnames] is given, loads
    [path/model_dir/f'{fnames[1]}.pkl'] and
    [path/model_dir/f'{fnames[0]}.pth']. *)
Definition language_model_learner (data : TextLMDataBunch) (bptt emb_sz nh nl : Z)
    (qrnn : bool) (pad_token : Z) (pretrained_fnames : string * string)
    (path : Path) (model_dir : string) : Script Learner :=
  emit (LanguageModelLearner data bptt emb_sz nh nl qrnn pad_token pretrained_fnames
          path model_dir);;
  let learn := mkLearner LanguageModel path model_dir in
  framework_read (path_div (path_div path model_dir) (pretrained_fnames.2 +:+ ".pkl"));;
  framework_read (weights_file learn pretrained_fnames.1);;
  mret learn.

Definition text_classifier_learner (data : TextClasDataBunch) (bptt pad_token : Z)
    (path : Path) (model_dir : string) (qrnn : bool) (emb_sz nh nl : Z) : Script Learner :=
  emit (TextClassifierLearner data bptt pad_token path model_dir qrnn emb_sz nh nl);;
  mret (mkLearner Classifier path model_dir).

(** Methods of a learner.  [save_encoder] and [save] write, and
    [load_encoder] reads, the learner's [weights_file]. *)
Definition unfreeze (learn : Learner) : Script unit := emit (Unfreeze learn).
Definition freeze_to (learn : Learner) (n : Z) : Script unit := emit (FreezeTo learn n).
Definition fit (learn : Learner) (epochs : Z) (lr : Dec * Dec) : Script unit :=
  emit (Fit learn epochs lr).
Definition fit_one_cycle (learn : Learner) (cyc_len : Z) (max_lr : Dec)
    (moms : Dec * Dec) (wd : Dec) : Script unit :=
  emit (FitOneCycle learn cyc_len max_lr moms wd).
Definition save_encoder (learn : Learner) (name : string) : Script unit :=
  emit (SaveEncoder learn name);; torch_save (weights_file learn name).
Definition load_encoder (learn : Learner) (name : string) : Script unit :=
  emit (LoadEncoder learn name);; framework_read (weights_file learn name).
Definition save (learn : Learner) (name : string) : Script unit :=
  emit (Save learn name);; torch_save (weights_file learn name).

(** ** [new_train_clas] *)

(** The parameters of [new_train_clas].  [data_dir] and [model_dir] are
    given as the segments of the path strings. *)
Record Args := mkArgs {
  data_dir : list string; lang : string; cuda_id : Z; pretrain_name : string;
  model_dir : list string; qrnn : bool; fine_tune : bool; max_vocab : Z;
  bs : Z; bptt : Z; name : string; dataset : string }.

(** The defaults of the signature (line 19). *)
Definition default_args (data_dir : list string) : Args :=
  {| data_dir := data_dir; lang := "en"; cuda_id := 0; pretrain_name := "wt-103";
     model_dir := ["models"]; qrnn := true; fine_tune := true; max_vocab := 30000;
     bs := 70; bptt := 70; name := "imdb-clas"; dataset := "imdb" |}.

(** The paths the script derives from its parameters (lines 49-53, 62-64). *)
Definition data_dir_path (a : Args) : Path := Path_init (data_dir a).
Definition dataset_dir (a : Args) : Path := path_div (data_dir_path a) (dataset a).
Definition model_dir_path (a : Args) : Path := Path_init (model_dir a).
Definition tmp_dir (a : Args) : Path := path_div (dataset_dir a) "tmp".
Definition vocab_file (a : Args) : Path :=
  path_div (tmp_dir a) ("vocab_" +:+ lang a +:+ ".pkl").
Definition ids_file (a : Args) (split : string) : Path :=
  path_div (tmp_dir a) (split +:+ "_" +:+ lang a +:+ "_ids.npy").
Definition lbl_file (a : Args) (split : string) : Path :=
  path_div (tmp_dir a) (split +:+ "_" +:+ lang a +:+ "_lbl.npy").

Section Script.

(** The constants and the reader that the script imports from
    [fastai_contrib.utils], a module that is not part of this file. *)
Variables UNK PAD : string.
Variables TRN VAL TST : string.
Variable DATASETS : list string.
Variable PAD_TOKEN_ID : Z.
Variable read_clas_data :
  gmap Path Node → Path → string → string →
  Result (gmap string (list (list string)) * gmap string Array).

(** Lines 39-42 *)
Definition select_device (a : Args) : Script unit :=
  avail ← cuda_is_available;
  cuda_id ← (if negb avail
             then print "CUDA not available. Setting device=-1.";; mret (-1)%Z
             else mret (cuda_id a));
  emit (SetDevice cuda_id).

(** Lines 44-56 *)
Definition check_inputs (a : Args) : Script unit :=
  print ("Dataset: " +:+ dataset a +:+ ". Language: " +:+ lang a +:+ ".");;
  assert (bool_decide (dataset a ∈ DATASETS))
    ("Error: " +:+ dataset a +:+ " processing is not implemented.");;
  assert ((bool_decide (dataset a = "imdb") && bool_decide (lang a = "en"))
          || negb (bool_decide (dataset a = "imdb")))
    "Error: IMDb is only available in English.";;
  assert (bool_decide (path_name (data_dir_path a) = "data"))
    ("Error: Name of data directory should be data, not "
       +:+ path_name (data_dir_path a) +:+ ".");;
  e ← path_exists (data_dir_path a);
  assert e ("Error: " +:+ path_str (data_dir_path a) +:+ " does not exist.");;
  e ← path_exists (dataset_dir a);
  assert e ("Error: " +:+ path_str (dataset_dir a) +:+ " does not exist.");;
  e ← path_exists (model_dir_path a);
  assert e ("Error: " +:+ path_str (model_dir_path a) +:+ " does not exist.").

(** Lines 82-85: the body of the loop over the splits *)
Definition encode_split (a : Args) (toks : gmap string (list (list string)))
    (lbls : gmap string Array) (stoi : gmap string nat)
    (ids : gmap string Array) (split : string) : Script (gmap string Array) :=
  exs ← dict_getitem toks split;
  let arr := ArrIds (numericalize UNK stoi exs) in
  let ids := <[split := arr]> ids in
  np_save (ids_file a split) arr;;
  l ← dict_getitem lbls split;
  np_save (lbl_file a split) l;;
  mret ids.

(** Lines 67-85: read the data, make the vocabulary, encode. *)
Definition tokenize_and_cache (a : Args)
  : Script (gmap string Array * gmap string Array * Vocab) :=
  print "Reading the data...";;
  emit (ReadClasData (dataset_dir a) (dataset a) (lang a));;
  f ← get_fs;
  match read_clas_data f (dataset_dir a) (dataset a) (lang a) with
  | Raise e => raise e
  | Ok (toks, lbls) =>
      trn ← dict_getitem toks TRN;
      let vocab := create_vocabulary UNK PAD trn (max_vocab a) in
      let stoi := stoi vocab in
      pickle_dump vocab (vocab_file a);;
      ids ← for_in [TRN; VAL; TST] (encode_split a toks lbls stoi) ∅;
      mret (ids, lbls, vocab)
  end.

(** Lines 90-91: the body of the loop over the splits *)
Definition load_split (a : Args) (s : gmap string Array * gmap string Array)
    (split : string) : Script (gmap string Array * gmap string Array) :=
  i ← np_load (ids_file a split);
  l ← np_load (lbl_file a split);
  mret (<[split := i]> s.1, <[split := l]> s.2).

(** Lines 87-93 *)
Definition load_cache (a : Args)
  : Script (gmap string Array * gmap string Array * Vocab) :=
  print "Loading the pickled data...";;
  '(ids, lbls) ← for_in [TRN; VAL; TST] (load_split a) (∅, ∅);
  vocab ← pickle_load (vocab_file a);
  mret (ids, lbls, vocab).

(** Lines 66-93 *)
Definition load_or_tokenize (a : Args)
  : Script (gmap string Array * gmap string Array * Vocab) :=
  cached ← path_exists (ids_file a TRN);
  if negb cached then tokenize_and_cache a else load_cache a.

(** Lines 116-122 *)
Definition fine_tune_lm (learn : Learner) : Script unit :=
  print "Fine-tuning the language model...";;
  unfreeze learn;;
  fit learn 2 (mkDec 1 (-4), mkDec 1 (-2));;
  save_encoder learn "enc".

(** Lines 124-138 *)
Definition train_classifier (a : Args) (data_clas : TextClasDataBunch)
    (emb_sz nh nl : Z) (model_name : string) : Script unit :=
  learn ← text_classifier_learner data_clas (bptt a) PAD_TOKEN_ID
             (path_parent (model_dir_path a)) (path_name (model_dir_path a))
             (qrnn a) emb_sz nh nl;
  load_encoder learn "enc";;
  fit_one_cycle learn 1 (mkDec 5 (-3)) (mkDec 8 (-1), mkDec 7 (-1)) (mkDec 1 (-7));;
  freeze_to learn (-2);;
  fit_one_cycle learn 1 (mkDec 5 (-3)) (mkDec 8 (-1), mkDec 7 (-1)) (mkDec 1 (-7));;
  unfreeze learn;;
  fit_one_cycle learn 10 (mkDec 5 (-3)) (mkDec 8 (-1), mkDec 7 (-1)) (mkDec 1 (-7));;
  print ("Saving models at "
           +:+ path_str (path_div (learn_path learn) (learn_model_dir learn)));;
  save learn (model_name +:+ "_" +:+ name a).

(** Lines 95-122: the data bunches and the language model *)
Definition language_model_stage (a : Args) (ids lbls : gmap string Array) (vocab : Vocab)
  : Script (TextClasDataBunch * (Z * Z * Z)) :=
  trn_ids ← dict_getitem ids TRN;
  val_ids ← dict_getitem ids VAL;
  tst_ids ← dict_getitem ids TST;
  print ("Train size: " +:+ pretty (len trn_ids) +:+ ". Valid size: "
           +:+ pretty (len val_ids) +:+ ". " +:+ "Test size: "
           +:+ pretty (len tst_ids) +:+ ".");;
  data_lm ← TextLMDataBunch_from_ids
               (mkLMData (tmp_dir a) vocab trn_ids val_ids (bs a) (bptt a));
  trn_lbls ← dict_getitem lbls TRN;
  val_lbls ← dict_getitem lbls VAL;
  data_clas ← TextClasDataBunch_from_ids
                 (mkClasData (tmp_dir a) vocab trn_ids val_ids trn_lbls val_lbls (bs a));
  let '(emb_sz, nh, nl) :=
    if qrnn a then (400, 1550, 3)%Z else (400, 1150, 3)%Z in
  learn ← language_model_learner data_lm (bptt a) emb_sz nh nl (qrnn a) PAD_TOKEN_ID
             ("lstm_" +:+ pretrain_name a, "itos_" +:+ pretrain_name a)
             (path_parent (model_dir_path a)) (path_name (model_dir_path a));
  (if fine_tune a then fine_tune_lm learn else mret tt);;
  mret (data_clas, (emb_sz, nh, nl)).

(** Lines 95-138 *)
Definition train (a : Args) (model_name : string)
    (ids lbls : gmap string Array) (vocab : Vocab) : Script unit :=
  '(data_clas, (emb_sz, nh, nl)) ← language_model_stage a ids lbls vocab;
  train_classifier a data_clas emb_sz nh nl model_name.

(** The whole function (lines 19-138). *)
Definition new_train_clas (a : Args) : Script unit :=
  select_device a;;
  check_inputs a;;
  (if qrnn a then print "Using QRNNs..." else mret tt);;
  let model_name := if qrnn a then "qrnn" else "lstm" in
  mkdir_exist_ok (tmp_dir a);;
  '(ids, lbls, vocab) ← load_or_tokenize a;
  train a model_name ids lbls vocab.

End Script.

(** ** Notions used to state the facts *)

(** Descending order of the counts, as a relation on items. *)
Definition count_ge (a b : string * nat) : Prop := b.2 ≤ a.2.

(** The last position of [w] in [l], if any. *)
Fixpoint last_index (w : string) (l : list string) : option nat :=
  match l with
  | [] => None
  | x :: l' =>
      match last_index w l' with
      | Some i => Some (S i)
      | None => if decide (x = w) then Some 0 else None
      end
  end.

(** A name that [Path] keeps as a component. *)
Definition name_ok (s : string) : Prop := s ≠ "" ∧ s ≠ ".".

Definition is_dir (o : option Node) : bool :=
  match o with Some Dir => true | _ => false end.

Definition is_file (o : option Node) : bool :=
  match o with Some Dir | None => false | Some _ => true end.

(** What a load returns, by what is at the path. *)
Definition np_load_result (p : Path) (o : option Node) : Result Array :=
  match o with
  | Some (NpyFile a) => Ok a
  | Some Dir => Raise (OSError IsADirectory p)
  | Some _ => Raise (BadFile p)
  | None => Raise (OSError FileNotFound p)
  end.

Definition pickle_load_result (p : Path) (o : option Node) : Result Vocab :=
  match o with
  | Some (PklFile v) => Ok v
  | Some Dir => Raise (OSError IsADirectory p)
  | Some _ => Raise (BadFile p)
  | None => Raise (OSError FileNotFound p)
  end.

Definition framework_read_result (p : Path) (o : option Node) : Result unit :=
  match o with
  | Some Dir => Raise (OSError IsADirectory p)
  | Some _ => Ok tt
  | None => Raise (OSError FileNotFound p)
  end.

(** ** What a script may touch, whether it returns or raises *)

(** [effects F E m]: running [m] changes the file system only at paths
    in [F], adds only calls in [E] to the trace, and leaves the rest of
    the world alone. *)
Definition effects (F : Path → Prop) (E : Event → Prop) {A} (m : Script A) : Prop :=
  ∀ w,
    (∀ p, ¬ F p → fs (m w).2 !! p = fs w !! p)
    ∧ cuda_available (m w).2 = cuda_available w
    ∧ ∃ evs, trace (m w).2 = trace w ++ evs ∧ Forall E evs.

(** The call that selects the device (line 42). *)
Definition is_set_device (e : Event) : bool :=
  match e with SetDevice _ => true | _ => false end.

(** What is at a path before and after, when nothing is removed: a
    directory stays a directory, a file stays a file (its content may
    change), and a free path may be taken. *)
Definition kept (o o' : option Node) : Prop :=
  match o with
  | None => True
  | Some Dir => o' = Some Dir
  | Some _ => is_file o' = true
  end.

(** [m] removes no file and no directory, whether it returns or raises. *)
Definition keeps_files {A} (m : Script A) : Prop :=
  ∀ w p, kept (fs w !! p) (fs (m w).2 !! p).

(** ** The calls and the files of a run *)

Section Outcomes.

(** The constants of [fastai_contrib.utils] that the expected calls mention. *)
Context (TRN VAL TST : string) (DATASETS : list string) (PAD_TOKEN_ID : Z).

(** The [np.save] calls of one turn of the loop, read off the results. *)
Definition split_saves (a : Args) (ids lbls : gmap string Array) (split : string)
  : list Event :=
  match ids !! split, lbls !! split with
  | Some i, Some l => [NpSave (ids_file a split) i; NpSave (lbl_file a split) l]
  | _, _ => []
  end.

(** The [np.load] calls of one turn of the loop. *)
Definition split_loads (a : Args) (split : string) : list Event :=
  [NpLoad (ids_file a split); NpLoad (lbl_file a split)].

(** The learners of the script and where they keep their weights. *)
Definition lm_learner (a : Args) : Learner :=
  mkLearner LanguageModel (path_parent (model_dir_path a)) (path_name (model_dir_path a)).
Definition clas_learner (a : Args) : Learner :=
  mkLearner Classifier (path_parent (model_dir_path a)) (path_name (model_dir_path a)).

Definition enc_file (a : Args) : Path := weights_file (clas_learner a) "enc".
Definition model_file (a : Args) : Path :=
  weights_file (clas_learner a) ((if qrnn a then "qrnn" else "lstm") +:+ "_" +:+ name a).
Definition pretrained_itos_file (a : Args) : Path :=
  path_div (path_div (path_parent (model_dir_path a)) (path_name (model_dir_path a)))
    (("itos_" +:+ pretrain_name a) +:+ ".pkl").
Definition pretrained_weights_file (a : Args) : Path :=
  weights_file (lm_learner a) ("lstm_" +:+ pretrain_name a).

(** The three sizes of the network (lines 106-109). *)
Definition nh_of (a : Args) : Z := if qrnn a then 1550%Z else 1150%Z.

Definition lm_data (a : Args) (vocab : Vocab) (trn_ids val_ids : Array) : TextLMDataBunch :=
  mkLMData (tmp_dir a) vocab trn_ids val_ids (bs a) (bptt a).
Definition clas_data (a : Args) (vocab : Vocab) (trn_ids val_ids trn_lbls val_lbls : Array)
  : TextClasDataBunch :=
  mkClasData (tmp_dir a) vocab trn_ids val_ids trn_lbls val_lbls (bs a).

(** The calls of lines 116-122 and of lines 124-138, in that order. *)
Definition fine_tune_events (a : Args) : list Event :=
  [Print "Fine-tuning the language model...";
   Unfreeze (lm_learner a);
   Fit (lm_learner a) 2 (mkDec 1 (-4), mkDec 1 (-2));
   SaveEncoder (lm_learner a) "enc"].

Definition classifier_events (a : Args) (d : TextClasDataBunch) : list Event :=
  [TextClassifierLearner d (bptt a) PAD_TOKEN_ID
     (path_parent (model_dir_path a)) (path_name (model_dir_path a))
     (qrnn a) 400 (nh_of a) 3;
   LoadEncoder (clas_learner a) "enc";
   FitOneCycle (clas_learner a) 1 (mkDec 5 (-3)) (mkDec 8 (-1), mkDec 7 (-1)) (mkDec 1 (-7));
   FreezeTo (clas_learner a) (-2);
   FitOneCycle (clas_learner a) 1 (mkDec 5 (-3)) (mkDec 8 (-1), mkDec 7 (-1)) (mkDec 1 (-7));
   Unfreeze (clas_learner a);
   FitOneCycle (clas_learner a) 10 (mkDec 5 (-3)) (mkDec 8 (-1), mkDec 7 (-1)) (mkDec 1 (-7));
   Print ("Saving models at " +:+ path_str (path_div (path_parent (model_dir_path a))
                                               (path_name (model_dir_path a))));
   Save (clas_learner a) ((if qrnn a then "qrnn" else "lstm") +:+ "_" +:+ name a)].

Definition data_events (a : Args) (vocab : Vocab)
    (trn_ids val_ids tst_ids trn_lbls val_lbls : Array) : list Event :=
  [Print ("Train size: " +:+ pretty (len trn_ids) +:+ ". Valid size: "
            +:+ pretty (len val_ids) +:+ ". " +:+ "Test size: "
            +:+ pretty (len tst_ids) +:+ ".");
   LMDataBunch_from_ids (lm_data a vocab trn_ids val_ids);
   ClasDataBunch_from_ids (clas_data a vocab trn_ids val_ids trn_lbls val_lbls);
   LanguageModelLearner (lm_data a vocab trn_ids val_ids) (bptt a) 400 (nh_of a) 3 (qrnn a)
     PAD_TOKEN_ID ("lstm_" +:+ pretrain_name a, "itos_" +:+ pretrain_name a)
     (path_parent (model_dir_path a)) (path_name (model_dir_path a))].

(** The world in which the inputs are checked, and the one in which
    [tmp] is made. *)
Definition after_device (a : Args) (w : World) : World := (select_device a w).2.
Definition after_checks (a : Args) (w : World) : World :=
  let w1 := add_event (Print ("Dataset: " +:+ dataset a +:+ ". Language: "
                                +:+ lang a +:+ ".")) (after_device a w) in
  if qrnn a then add_event (Print "Using QRNNs...") w1 else w1.

(** What the assertions of lines 45-56 ask for. *)
Definition inputs_valid (a : Args) (f : gmap Path Node) : Prop :=
  dataset a ∈ DATASETS
  ∧ ((dataset a = "imdb" ∧ lang a = "en") ∨ dataset a ≠ "imdb")
  ∧ path_name (data_dir_path a) = "data"
  ∧ is_Some (f !! data_dir_path a)
  ∧ is_Some (f !! dataset_dir a)
  ∧ is_Some (f !! model_dir_path a).

(** The calls before the data is read or loaded. *)
Definition setup_events (a : Args) (w : World) : list Event :=
  (if cuda_available w then [] else [Print "CUDA not available. Setting device=-1."])
  ++ [SetDevice (if cuda_available w then cuda_id a else (-1)%Z);
      Print ("Dataset: " +:+ dataset a +:+ ". Language: " +:+ lang a +:+ ".")]
  ++ (if qrnn a then [Print "Using QRNNs..."] else [])
  ++ [Mkdir (tmp_dir a)].

(** Calls into the training framework, and those of them that fine-tune
    the language model (lines 118-122). *)
Definition is_training_call (e : Event) : bool :=
  match e with
  | LMDataBunch_from_ids _ | ClasDataBunch_from_ids _
  | LanguageModelLearner _ _ _ _ _ _ _ _ _ _ | TextClassifierLearner _ _ _ _ _ _ _ _ _
  | Unfreeze _ | Fit _ _ _ | SaveEncoder _ _ | LoadEncoder _ _
  | FitOneCycle _ _ _ _ _ | FreezeTo _ _ | Save _ _ => true
  | _ => false
  end.

Definition is_language_model (l : Learner) : bool :=
  match learn_kind l with LanguageModel => true | Classifier => false end.

Definition is_fine_tuning (e : Event) : bool :=
  match e with
  | Unfreeze l | Fit l _ _ | SaveEncoder l _ => is_language_model l
  | _ => false
  end.

Definition is_fit_one_cycle (e : Event) : bool :=
  match e with FitOneCycle _ _ _ _ _ => true | _ => false end.

(** The seven files of the cache, and every path the script itself or
    the framework on its behalf writes. *)
Definition cache_paths (a : Args) : list Path :=
  [vocab_file a;
   ids_file a TRN; lbl_file a TRN; ids_file a VAL; lbl_file a VAL;
   ids_file a TST; lbl_file a TST].

Definition written_paths (a : Args) : list Path :=
  tmp_dir a :: cache_paths a ++ [enc_file a; model_file a].

(** What the events of a run with a given [fine_tune] may be. *)
Definition allowed (a : Args) (e : Event) : Prop :=
  is_fine_tuning e = true → fine_tune a = true.

(** The calls of the load branch: a message and loads. *)
Definition is_cache_read (e : Event) : bool :=
  match e with Print _ | NpLoad _ | PickleLoad _ => true | _ => false end.

(** [m] raises whenever it starts without a file at [q], adding only
    calls in [E] to the trace. *)
Definition raises_without (q : Path) (E : Event → Prop) {A} (m : Script A) : Prop :=
  ∀ w, is_file (fs w !! q) = false →
       ∃ e w' evs, m w = (Raise e, w') ∧ trace w' = trace w ++ evs ∧ Forall E evs.

(** The calls of the data stage: loading when the cache is there,
    reading, pickling and saving otherwise. *)
Definition stage_events (a : Args) (ids lbls : gmap string Array) (vocab : Vocab)
    (cached : bool) : list Event :=
  if cached
  then [Print "Loading the pickled data..."]
       ++ split_loads a TRN ++ split_loads a VAL ++ split_loads a TST
       ++ [PickleLoad (vocab_file a)]
  else [Print "Reading the data...";
        ReadClasData (dataset_dir a) (dataset a) (lang a);
        PickleDump (vocab_file a) vocab]
       ++ split_saves a ids lbls TRN ++ split_saves a ids lbls VAL
       ++ split_saves a ids lbls TST.

End Outcomes.

(** ** Worlds that agree outside the test split *)

Section Agreement.

Context (a : Args) (TST : string).

(** The two files of the cache that hold the test split. *)
Definition test_files : list Path := [ids_file a TST; lbl_file a TST].

(** Two file systems that are the same but for the arrays that the test
    files hold. *)
Definition fs_agree (f1 f2 : gmap Path Node) : Prop :=
  ∀ p, f1 !! p = f2 !! p
       ∨ (p ∈ test_files
          ∧ ∃ x1 x2, f1 !! p = Some (NpyFile x1) ∧ f2 !! p = Some (NpyFile x2)).

(** The calls into the training framework, in order. *)
Definition training_calls (t : list Event) : list Event :=
  filter (λ e, is_training_call e = true) t.

Definition world_agree (w1 w2 : World) : Prop :=
  fs_agree (fs w1) (fs w2)
  ∧ cuda_available w1 = cuda_available w2
  ∧ training_calls (trace w1) = training_calls (trace w2).

(** Two scripts that, from worlds that agree, both return, with values
    in [Q], or both raise the same exception, in worlds that agree. *)
Definition related {A} (Q : A → A → Prop) (m1 m2 : Script A) : Prop :=
  ∀ w1 w2, world_agree w1 w2 →
    match m1 w1, m2 w2 with
    | (Ok x1, w1'), (Ok x2, w2') => Q x1 x2 ∧ world_agree w1' w2'
    | (Raise e1, w1'), (Raise e2, w2') => e1 = e2 ∧ world_agree w1' w2'
    | _, _ => False
    end.

End Agreement.

Section Readers.

Context (TST : string).
Context (read1 read2 :
           gmap Path Node → Path → string → string →
           Result (gmap string (list (list string)) * gmap string Array)).
Context (a : Args).

(** Two dictionaries keyed by split that are the same but for what they
    hold for the test split. *)
Definition dict_agree {V} (d1 d2 : gmap string V) : Prop :=
  (∀ k, k ≠ TST → d1 !! k = d2 !! k) ∧ (is_Some (d1 !! TST) ↔ is_Some (d2 !! TST)).

(** Two readers that return the same but for the test split. *)
Definition readers_agree : Prop :=
  ∀ f1 f2, fs_agree a TST f1 f2 →
    match read1 f1 (dataset_dir a) (dataset a) (lang a),
          read2 f2 (dataset_dir a) (dataset a) (lang a) with
    | Ok (toks1, lbls1), Ok (toks2, lbls2) => dict_agree toks1 toks2 ∧ dict_agree lbls1 lbls2
    | Raise e1, Raise e2 => e1 = e2
    | _, _ => False
    end.

Definition data_agree (d1 d2 : gmap string Array * gmap string Array * Vocab) : Prop :=
  dict_agree d1.1.1 d2.1.1 ∧ dict_agree d1.1.2 d2.1.2 ∧ d1.2 = d2.2.

End Readers.

(** ** A small instance *)

(** The values the constants have in [fastai_contrib.utils], a reader
    that returns a corpus of two training examples, one validation and one
    test example, and a file system that holds the directories and the
    pretrained model. *)
Definition demo_toks : gmap string (list (list string)) :=
  <["train" := [["a"; "b"; "a"]; ["c"; "a"; "b"]]]>
    (<["val" := [["a"; "z"]]]> (<["test" := [["q"]]]> ∅)).

Definition demo_lbls : gmap string Array :=
  <["train" := ArrLbls [0; 1]%Z]>
    (<["val" := ArrLbls [1]%Z]> (<["test" := ArrLbls [0]%Z]> ∅)).

Definition demo_reader (f : gmap Path Node) (dir : Path) (dataset lang : string)
  : Result (gmap string (list (list string)) * gmap string Array) :=
  Ok (demo_toks, demo_lbls).

Definition demo_fs : gmap Path Node :=
  <[["data"] := Dir]>
    (<[["data"; "imdb"] := Dir]>
       (<[["models"] := Dir]>
          (<[["models"; "lstm_wt-103.pth"] := PthFile]>
             (<[["models"; "itos_wt-103.pkl"] := TextFile "itos"]> ∅)))).

Definition demo_world : World := mkWorld demo_fs true [].

Definition demo_args : Args := default_args ["data"].

Definition demo_run : Args → Script unit :=
  new_train_clas "<unk>" "<pad>" "train" "val" "test" ["imdb"; "xnli"] 1 demo_reader.

Definition demo_tokenize : Args → Script (gmap string Array * gmap string Array * Vocab) :=
  tokenize_and_cache "<unk>" "<pad>" "train" "val" "test" demo_reader.

(** The value a run returned, or [d] if it raised. *)
Definition returned {A} (d : A) (r : Result A * World) : A :=
  match r.1 with Ok a => a | Raise _ => d end.

Definition is_Ok {A} (r : Result A) : bool :=
  match r with Ok _ => true | Raise _ => false end.

(** The three values the data stage returned, (empty ones if it raised). *)
Definition returned_ids (r : Result (gmap string Array * gmap string Array * Vocab) * World)
  : gmap string Array := (returned (∅, ∅, Vocab_init []) r).1.1.
Definition returned_lbls (r : Result (gmap string Array * gmap string Array * Vocab) * World)
  : gmap string Array := (returned (∅, ∅, Vocab_init []) r).1.2.
Definition returned_vocab (r : Result (gmap string Array * gmap string Array * Vocab) * World)
  : Vocab := (returned (∅, ∅, Vocab_init []) r).2.

(** The data stage on the instance, whichever branch it takes. *)
Definition demo_load : Args → Script (gmap string Array * gmap string Array * Vocab) :=
  load_or_tokenize "<unk>" "<pad>" "train" "val" "test" demo_reader.

(** A call without fine-tuning, in a world where an earlier run left its
    encoder in the model directory. *)
Definition demo_args_no_fine_tune : Args :=
  {| data_dir := ["data"]; lang := "en"; cuda_id := 0; pretrain_name := "wt-103";
     model_dir := ["models"]; qrnn := true; fine_tune := false; max_vocab := 30000;
     bs := 70; bptt := 70; name := "imdb-clas"; dataset := "imdb" |}.

Definition demo_world_enc : World :=
  mkWorld (<[["models"; "enc.pth"] := PthFile]> demo_fs) true [].

(** A second reader, whose test split differs, and two worlds whose
    cached test ids differ. *)
Definition demo_toks2 : gmap string (list (list string)) :=
  <["train" := [["a"; "b"; "a"]; ["c"; "a"; "b"]]]>
    (<["val" := [["a"; "z"]]]> (<["test" := [["r"; "s"]; ["a"]]]> ∅)).

Definition demo_lbls2 : gmap string Array :=
  <["train" := ArrLbls [0; 1]%Z]>
    (<["val" := ArrLbls [1]%Z]> (<["test" := ArrLbls [1; 1]%Z]> ∅)).

Definition demo_reader2 (f : gmap Path Node) (dir : Path) (dataset lang : string)
  : Result (gmap string (list (list string)) * gmap string Array) :=
  Ok (demo_toks2, demo_lbls2).

Definition demo_run2 : Args → Script unit :=
  new_train_clas "<unk>" "<pad>" "train" "val" "test" ["imdb"; "xnli"] 1 demo_reader2.

Definition demo_world_test1 : World :=
  mkWorld (<[ids_file demo_args "test" := NpyFile (ArrIds [[7]])]> demo_fs) true [].

Definition demo_world_test2 : World :=
  mkWorld (<[ids_file demo_args "test" := NpyFile (ArrIds [[8; 9]])]> demo_fs) true [].

(** A call whose data directory is not called [data], in a world that
    holds that directory, the dataset directory in it and the model
    directory. *)
Definition foo_args : Args := default_args ["foo"].

Definition foo_world : World :=
  mkWorld (<[["foo"] := Dir]> (<[["foo"; "imdb"] := Dir]> (<[["models"] := Dir]> ∅)))
    true [].

(** A world whose cache holds the training ids and nothing else. *)
Definition demo_world_train_ids : World :=
  mkWorld (<[ids_file demo_args "train" := NpyFile (ArrIds [[2; 3]])]> demo_fs) true [].

(** The call of the instance with another [max_vocab]. *)
Definition demo_args_max_vocab (n : Z) : Args :=
  {| data_dir := ["data"]; lang := "en"; cuda_id := 0; pretrain_name := "wt-103";
     model_dir := ["models"]; qrnn := true; fine_tune := true; max_vocab := n;
     bs := 70; bptt := 70; name := "imdb-clas"; dataset := "imdb" |}.

(** A world in which [tmp] is a file. *)
Definition demo_world_tmp_file : World :=
  mkWorld (<[["data"; "imdb"; "tmp"] := TextFile "not a directory"]> demo_fs) true [].

(** A reader that raises, and one whose result has no validation split. *)
Definition demo_reader_raising (f : gmap Path Node) (dir : Path) (dataset lang : string)
  : Result (gmap string (list (list string)) * gmap string Array) :=
  Raise (OSError FileNotFound (dir ++ ["train.csv"])).

Definition demo_toks_no_val : gmap string (list (list string)) :=
  <["train" := [["a"; "b"; "a"]; ["c"; "a"; "b"]]]> (<["test" := [["q"]]]> ∅).

Definition demo_reader_no_val (f : gmap Path Node) (dir : Path) (dataset lang : string)
  : Result (gmap string (list (list string)) * gmap string Array) :=
  Ok (demo_toks_no_val, demo_lbls).

(** A call whose [lang] holds separators and [".."], in a world where
    the directories that the file names then go through exist. *)
Definition escape_args : Args :=
  {| data_dir := ["data"]; lang := "x/../../../../evil"; cuda_id := 0;
     pretrain_name := "wt-103"; model_dir := ["models"]; qrnn := true; fine_tune := true;
     max_vocab := 30000; bs := 70; bptt := 70; name := "xnli-clas"; dataset := "xnli" |}.

Definition escape_world : World :=
  mkWorld
    (<[["data"] := Dir]>
       (<[["data"; "xnli"] := Dir]>
          (<[["data"; "xnli"; "tmp"] := Dir]>
             (<[["data"; "xnli"; "tmp"; "vocab_x"] := Dir]>
                (<[["data"; "xnli"; "tmp"; "train_x"] := Dir]>
                   (<[["data"; "xnli"; "tmp"; "val_x"] := Dir]>
                      (<[["data"; "xnli"; "tmp"; "test_x"] := Dir]>
                         (<[["models"] := Dir]>
                            (<[["models"; "lstm_wt-103.pth"] := PthFile]>
                               (<[["models"; "itos_wt-103.pkl"] := TextFile "itos"]> ∅))))))))))
    true [].

(** * Facts *)

(** ** Facts about the counter *)

Lemma counter_get_incr w c w' :
  counter_get (counter_incr w c) w' = counter_get c w' + (if decide (w = w') then 1 else 0).
Proof.
  induction c as [|[k n] c IH]; simpl.
  - repeat case_decide; lia.
  - destruct (decide (k = w)) as [->|Hkw]; simpl.
    + repeat case_decide; try congruence; lia.
    + destruct (decide (k = w')) as [->|Hkw'].
      * rewrite decide_False by congruence. lia.
      * apply IH.
Qed.

Lemma counter_incr_keys w c :
  (counter_incr w c).*1 = if decide (w ∈ c.*1) then c.*1 else c.*1 ++ [w].
Proof.
  induction c as [|[k n] c IH].
  - destruct (decide (w ∈ ([] : list (string * nat)).*1)) as [Hin|_]; [|done].
    by apply elem_of_nil in Hin.
  - simpl counter_incr. destruct (decide (k = w)) as [->|Hkw].
    + rewrite !fmap_cons. simpl. destruct (decide (w ∈ w :: c.*1)) as [_|Hn]; [done |].
      exfalso. apply Hn. left.
    + rewrite !fmap_cons, IH. simpl.
      destruct (decide (w ∈ c.*1)) as [Hin|Hnin];
        destruct (decide (w ∈ k :: c.*1)) as [Hin'|Hnin']; try done.
      * exfalso. apply Hnin'. by right.
      * apply elem_of_cons in Hin' as [->|?]; done.
Qed.

Lemma counter_incr_NoDup w c : NoDup c.*1 → NoDup (counter_incr w c).*1.
Proof.
  intros Hnd. rewrite counter_incr_keys. case_decide; [done |].
  apply NoDup_app. split_and!; [done | | apply NoDup_singleton].
  intros x Hx Hx'. apply list_elem_of_singleton in Hx'. by subst.
Qed.

Lemma counter_get_elem_of c k n : NoDup c.*1 → (k, n) ∈ c → counter_get c k = n.
Proof.
  induction c as [|[k' n'] c IH]; simpl; intros Hnd Hin.
  - by apply elem_of_nil in Hin.
  - apply NoDup_cons in Hnd as [Hk' Hnd]. apply elem_of_cons in Hin as [Heq|Hin].
    + inversion Heq; subst. by rewrite decide_True.
    + destruct (decide (k' = k)) as [->|_]; [|by apply IH].
      exfalso. apply Hk'. apply list_elem_of_fmap. by exists (k, n).
Qed.

Lemma counter_get_not_key c k : k ∉ c.*1 → counter_get c k = 0.
Proof.
  induction c as [|[k' n'] c IH]; simpl; [done |].
  rewrite not_elem_of_cons. intros [Hne Hk]. rewrite decide_False by done. by apply IH.
Qed.

Lemma counter_key_elem_of c k : k ∈ c.*1 → (k, counter_get c k) ∈ c.
Proof.
  induction c as [|[k' n'] c IH]; simpl; intros Hin.
  - by apply elem_of_nil in Hin.
  - destruct (decide (k' = k)) as [->|Hne]; [left |].
    apply elem_of_cons in Hin as [->|Hin]; [done |]. right. by apply IH.
Qed.

(** The loop invariant of [Counter(iterable)], for any starting counter. *)
Lemma Counter_foldl ws c :
  NoDup c.*1 →
  let c' := foldl (λ c w, counter_incr w c) c ws in
  NoDup c'.*1
  ∧ (∀ w, counter_get c' w = counter_get c w + occurrences w ws)
  ∧ (∀ w, w ∈ c'.*1 ↔ w ∈ c.*1 ∨ w ∈ ws).
Proof.
  revert c. induction ws as [|x ws IH]; intros c Hnd; simpl.
  - split_and!; [done | intros; unfold occurrences; simpl; lia |].
    intros w. rewrite elem_of_nil. tauto.
  - destruct (IH (counter_incr x c) (counter_incr_NoDup x c Hnd)) as (H1 & H2 & H3).
    split_and!; [done | |].
    + intros w. rewrite H2, counter_get_incr. unfold occurrences.
      rewrite filter_cons. destruct (decide (x = w)); simpl; lia.
    + intros w. rewrite H3, counter_incr_keys, elem_of_cons.
      destruct (decide (x ∈ c.*1)) as [Hx|Hx].
      * split; [tauto |]. intros [H|[H|H]]; subst; tauto.
      * rewrite elem_of_app, list_elem_of_singleton. split; [|tauto].
        intros [[H|H]|H]; subst; tauto.
Qed.

Lemma Counter_NoDup ws : NoDup (Counter ws).*1.
Proof. apply (Counter_foldl ws []). apply NoDup_nil_2. Qed.

Lemma Counter_get ws w : counter_get (Counter ws) w = occurrences w ws.
Proof. destruct (Counter_foldl ws [] (NoDup_nil_2)) as (_ & H & _). apply H. Qed.

Lemma Counter_keys ws w : w ∈ (Counter ws).*1 ↔ w ∈ ws.
Proof.
  destruct (Counter_foldl ws [] (NoDup_nil_2)) as (_ & _ & H).
  rewrite (H w). simpl. rewrite elem_of_nil. tauto.
Qed.

Lemma Counter_item ws k n : (k, n) ∈ Counter ws → n = occurrences k ws ∧ k ∈ ws.
Proof.
  intros Hin. split.
  - rewrite <- Counter_get. symmetry. apply counter_get_elem_of; [apply Counter_NoDup | done].
  - apply Counter_keys. apply list_elem_of_fmap. by exists (k, n).
Qed.

(** ** Facts about [sorted] and [most_common] *)

Lemma insert_desc_Permutation x l : insert_desc x l ≡ₚ x :: l.
Proof.
  induction l as [|y l IH]; simpl; [done |].
  case_decide; [done |]. rewrite IH. apply Permutation_swap.
Qed.

Lemma sorted_desc_Permutation l : sorted_desc l ≡ₚ l.
Proof.
  induction l as [|x l IH]; simpl; [done |].
  by rewrite insert_desc_Permutation, IH.
Qed.

Lemma insert_desc_sorted x l :
  StronglySorted count_ge l → StronglySorted count_ge (insert_desc x l).
Proof.
  induction 1 as [|y l Hs IH Hy]; simpl.
  - repeat constructor.
  - case_decide as Hle.
    + constructor; [by constructor |]. constructor; [done |].
      eapply Forall_impl; [exact Hy |]. unfold count_ge. intros z Hz. lia.
    + constructor; [done |].
      rewrite insert_desc_Permutation. constructor; [unfold count_ge; lia | done].
Qed.

Lemma sorted_desc_sorted l : StronglySorted count_ge (sorted_desc l).
Proof.
  induction l as [|x l IH]; simpl; [constructor | by apply insert_desc_sorted].
Qed.

Lemma StronglySorted_take_drop (s : list (string * nat)) n a b :
  StronglySorted count_ge s → a ∈ take n s → b ∈ drop n s → count_ge a b.
Proof.
  intros Hs Ha Hb. rewrite <- (take_drop n s) in Hs.
  by eapply StronglySorted_app_1_elem_of.
Qed.

Lemma most_common_eq n c : most_common n c = take (Z.to_nat n) (sorted_desc c).
Proof.
  unfold most_common. case_decide as Hn; [|done].
  replace (Z.to_nat n) with 0 by lia. done.
Qed.

Lemma most_common_length n c :
  length (most_common n c) = Z.to_nat n `min` length c.
Proof.
  rewrite most_common_eq, length_take. by rewrite (sorted_desc_Permutation c).
Qed.

Lemma most_common_subseteq n c x : x ∈ most_common n c → x ∈ c.
Proof.
  rewrite most_common_eq. intros Hx. rewrite <- (sorted_desc_Permutation c).
  rewrite <- (take_drop (Z.to_nat n) (sorted_desc c)). apply elem_of_app. by left.
Qed.

Lemma most_common_keys_NoDup n c : NoDup c.*1 → NoDup (most_common n c).*1.
Proof.
  intros Hnd. rewrite most_common_eq.
  rewrite <- (sorted_desc_Permutation c), <- (take_drop (Z.to_nat n) (sorted_desc c)) in Hnd.
  rewrite fmap_app in Hnd. by apply NoDup_app in Hnd as (? & _ & _).
Qed.

(** What is left out is never more frequent than what is taken. *)
Lemma most_common_largest n c a b :
  NoDup c.*1 → a ∈ most_common n c → b ∈ c → b.1 ∉ (most_common n c).*1 → b.2 ≤ a.2.
Proof.
  intros Hnd Ha Hb Hnb. rewrite most_common_eq in Ha, Hnb.
  apply (StronglySorted_take_drop (sorted_desc c) (Z.to_nat n));
    [apply sorted_desc_sorted | done |].
  rewrite <- (sorted_desc_Permutation c), <- (take_drop (Z.to_nat n) (sorted_desc c)) in Hb.
  apply elem_of_app in Hb as [Hb|Hb]; [|done].
  exfalso. apply Hnb. apply list_elem_of_fmap. by exists b.
Qed.

(** The taken items are in descending order of their counts. *)
Lemma most_common_sorted n c : StronglySorted count_ge (most_common n c).
Proof.
  rewrite most_common_eq. pose proof (sorted_desc_sorted c) as Hs.
  rewrite <- (take_drop (Z.to_nat n) (sorted_desc c)) in Hs.
  by apply StronglySorted_app_1_l in Hs.
Qed.

(** ** Facts about the dictionary of a [Vocab] *)

Lemma dict_of_enumerated_foldl (l : list string) (m : gmap string nat) k w :
  foldl (λ m kv, <[kv.2 := kv.1]> m) m (imap (λ i x, (k + i, x)) l) !! w
  = match last_index w l with Some i => Some (k + i) | None => m !! w end.
Proof.
  revert m k. induction l as [|x l IH]; intros m k; simpl; [done |].
  rewrite (imap_ext _ (λ i x, (S k + i, x))) by (intros; simpl; f_equal; lia).
  rewrite IH. destruct (last_index w l) as [i|].
  - f_equal; lia.
  - destruct (decide (x = w)) as [->|Hne].
    + rewrite lookup_insert_eq; f_equal; lia.
    + by rewrite lookup_insert_ne.
Qed.

Lemma stoi_lookup l w : stoi (Vocab_init l) !! w = last_index w l.
Proof.
  unfold Vocab_init, dict_of_enumerated, enumerate. simpl.
  rewrite (dict_of_enumerated_foldl l ∅ 0 w). by destruct (last_index w l).
Qed.

Lemma last_index_lookup w l i : last_index w l = Some i → l !! i = Some w.
Proof.
  revert i. induction l as [|x l IH]; intros i; simpl; [done |].
  destruct (last_index w l) as [j|].
  - intros [= <-]. simpl. by apply IH.
  - case_decide; [|done]. intros [= <-]. simpl. by subst.
Qed.

Lemma last_index_None w l : last_index w l = None ↔ w ∉ l.
Proof.
  induction l as [|x l IH]; simpl.
  - split; [intros _; apply not_elem_of_nil | done].
  - rewrite not_elem_of_cons. destruct (last_index w l) as [j|].
    + split; [done |]. intros [_ Hw]. by apply IH in Hw.
    + case_decide; subst; split; try done.
      * intros [? ?]; done.
      * intros _. split; [congruence | by apply IH].
Qed.

Lemma last_index_last w l i j :
  last_index w l = Some i → i < j → l !! j ≠ Some w.
Proof.
  revert i j. induction l as [|x l IH]; intros i j; simpl; [done |].
  destruct (last_index w l) as [i'|] eqn:Hl.
  - intros [= <-] Hlt. destruct j as [|j]; [lia |]. simpl. apply (IH i'); [done | lia].
  - case_decide; [|done]. intros [= <-] Hlt. destruct j as [|j]; [lia |]. simpl.
    intros Hj. apply last_index_None in Hl. apply Hl. by eapply list_elem_of_lookup_2.
Qed.

Lemma last_index_head w l : w ∉ l → last_index w (w :: l) = Some 0.
Proof.
  intros Hw. simpl. apply last_index_None in Hw. rewrite Hw. by rewrite decide_True.
Qed.

(** ** Facts about the vocabulary of a training split *)

Lemma last_index_second w x l : w ∉ l → last_index w (x :: w :: l) = Some 1.
Proof.
  intros Hw. change (last_index w (x :: w :: l))
    with (match last_index w (w :: l) with
          | Some i => Some (S i)
          | None => if decide (x = w) then Some 0 else None
          end).
  by rewrite (last_index_head w l Hw).
Qed.

Lemma elem_of_concat {A} (x : A) (ls : list (list A)) :
  x ∈ concat ls ↔ ∃ l, l ∈ ls ∧ x ∈ l.
Proof.
  induction ls as [|l ls IH]; simpl.
  - split; [by intros ?%elem_of_nil | by intros (? & ?%elem_of_nil & _)].
  - rewrite elem_of_app, IH. split.
    + intros [Hx|(l' & Hl' & Hx)]; [exists l | exists l']; split; try done; by constructor.
    + intros (l' & Hl' & Hx). apply elem_of_cons in Hl' as [->|Hl']; [by left |].
      right. by exists l'.
Qed.

Lemma StronglySorted_keys (f : string → nat) (l : list (string * nat)) :
  Forall (λ x, x.2 = f x.1) l →
  StronglySorted count_ge l →
  StronglySorted (λ t u, f u ≤ f t) l.*1.
Proof.
  intros Hf Hs. induction Hs as [|x l Hs IH Hx]; [constructor |].
  apply Forall_cons in Hf as [Hfx Hf]. rewrite fmap_cons. constructor; [by apply IH |].
  apply Forall_fmap. rewrite Forall_forall in Hx, Hf. apply Forall_forall.
  intros y Hy. specialize (Hx y Hy). specialize (Hf y Hy). unfold count_ge in Hx.
  cbn. rewrite <- Hfx, <- Hf. done.
Qed.

Lemma Counter_length ws : length (Counter ws) = length (remove_dups ws).
Proof.
  rewrite <- (length_fmap fst). apply Permutation_length, NoDup_Permutation.
  - apply Counter_NoDup.
  - apply NoDup_remove_dups.
  - intros x. by rewrite Counter_keys, elem_of_remove_dups.
Qed.

(** The tokens that [most_common] selects from a list of words. *)
Lemma selected_tokens n ws :
  let sel := (most_common n (Counter ws)).*1 in
  NoDup sel
  ∧ length sel = Z.to_nat n `min` length (remove_dups ws)
  ∧ (∀ t, t ∈ sel → t ∈ ws)
  ∧ (∀ t u, t ∈ sel → u ∈ ws → u ∉ sel → occurrences u ws ≤ occurrences t ws)
  ∧ StronglySorted (λ t u, occurrences u ws ≤ occurrences t ws) sel.
Proof.
  intros sel. unfold sel. split_and!.
  - apply most_common_keys_NoDup, Counter_NoDup.
  - by rewrite length_fmap, most_common_length, Counter_length.
  - intros t Ht. apply list_elem_of_fmap in Ht as ([k c] & -> & Hin).
    apply most_common_subseteq in Hin. by apply Counter_item in Hin as [_ ?].
  - intros t u Ht Hu Hnu. apply list_elem_of_fmap in Ht as ([k c] & -> & Hin).
    pose proof (most_common_subseteq _ _ _ Hin) as Hk. apply Counter_item in Hk as [Hc _].
    apply Counter_keys, counter_key_elem_of in Hu. rewrite Counter_get in Hu.
    pose proof (most_common_largest n (Counter ws) _ _ (Counter_NoDup ws) Hin Hu Hnu) as Hle.
    cbn in Hle |- *. by rewrite <- Hc.
  - apply StronglySorted_keys; [|apply most_common_sorted].
    apply Forall_forall. intros [k c] Hin. apply most_common_subseteq in Hin.
    by apply Counter_item in Hin as [? _].
Qed.

Lemma create_vocabulary_itos UNK PAD trn n :
  itos (create_vocabulary UNK PAD trn n)
  = UNK :: PAD :: (most_common n (Counter (concat trn))).*1.
Proof. reflexivity. Qed.

Lemma create_vocabulary_stoi UNK PAD trn n w :
  stoi (create_vocabulary UNK PAD trn n) !! w
  = last_index w (itos (create_vocabulary UNK PAD trn n)).
Proof. apply stoi_lookup. Qed.

(** [stoi[UNK]] is an id of the token [UNK]. *)
Lemma unk_id_decodes UNK PAD trn n :
  let v := create_vocabulary UNK PAD trn n in
  stoi v !! UNK = Some (stoi_getitem (stoi v) UNK)
  ∧ itos v !! stoi_getitem (stoi v) UNK = Some UNK.
Proof.
  intros v. unfold stoi_getitem. unfold v. rewrite create_vocabulary_stoi.
  destruct (last_index UNK _) as [i|] eqn:Hi.
  - split; [done |]. by apply last_index_lookup.
  - apply last_index_None in Hi. exfalso. apply Hi. rewrite create_vocabulary_itos. left.
Qed.

Lemma numericalize_lookup UNK m exs i j ex t :
  exs !! i = Some ex → ex !! j = Some t →
  ∃ row, numericalize UNK m exs !! i = Some row
         ∧ row !! j = Some (stoi_get m t (stoi_getitem m UNK)).
Proof.
  intros Hi Hj. unfold numericalize.
  exists (map (λ w, stoi_get m w (stoi_getitem m UNK)) ex). split.
  - change (map ?f exs) with (f <$> exs). by rewrite list_lookup_fmap, Hi.
  - change (map ?f ex) with (f <$> ex). by rewrite list_lookup_fmap, Hj.
Qed.

(** ** The ids of the encoded splits *)

Lemma numericalize_Forall2 UNK m exs (P : string → nat → Prop) :
  (∀ ex t, ex ∈ exs → t ∈ ex → P t (stoi_get m t (stoi_getitem m UNK))) →
  Forall2 (Forall2 P) exs (numericalize UNK m exs).
Proof.
  unfold numericalize. induction exs as [|ex exs IH]; intros HP; cbn [map]; constructor.
  - assert (Hex : ∀ t, t ∈ ex → P t (stoi_get m t (stoi_getitem m UNK))).
    { intros t Ht. apply (HP ex); [by left | done]. }
    clear HP IH. induction ex as [|t ex IH]; cbn [map]; constructor.
    + apply Hex. by left.
    + apply IH. intros u Hu. apply Hex. by right.
  - apply IH. intros ex' t Hex' Ht. apply (HP ex'); [by right | done].
Qed.

Lemma stoi_get_decodes UNK PAD trn n t :
  let v := create_vocabulary UNK PAD trn n in
  itos v !! stoi_get (stoi v) t (stoi_getitem (stoi v) UNK)
  = Some (if decide (t ∈ itos v) then t else UNK).
Proof.
  intros v. unfold stoi_get. subst v. rewrite create_vocabulary_stoi.
  destruct (last_index t _) as [i|] eqn:Hi; cbn [default].
  - rewrite decide_True; [by apply last_index_lookup |].
    apply last_index_lookup in Hi. by eapply list_elem_of_lookup_2.
  - apply last_index_None in Hi. rewrite decide_False by done.
    apply unk_id_decodes.
Qed.

Lemma numericalize_decodes UNK PAD trn n exs :
  let v := create_vocabulary UNK PAD trn n in
  Forall2 (Forall2 (λ t id, itos v !! id = Some (if decide (t ∈ itos v) then t else UNK)))
    exs (numericalize UNK (stoi v) exs).
Proof. intros v. apply numericalize_Forall2. intros ex t _ _. apply stoi_get_decodes. Qed.

Lemma create_vocabulary_length UNK PAD trn n :
  (Z.of_nat (length (itos (create_vocabulary UNK PAD trn n))) ≤ 2 + Z.max 0 n)%Z.
Proof.
  rewrite create_vocabulary_itos. cbn [length].
  rewrite length_fmap, most_common_length. lia.
Qed.

(** X1.  Decoding what was encoded: the id of a token is a position of the
    token list, and the list holds there the token itself if the vocabulary
    has it, the unknown token otherwise.  The encoded split has the shape
    of the split: as many rows, each as long as its example. *)
Theorem encoded_ids_decode UNK PAD trn n exs :
  let v := create_vocabulary UNK PAD trn n in
  Forall2 (Forall2 (λ t id, itos v !! id = Some (if decide (t ∈ itos v) then t else UNK)))
    exs (numericalize UNK (stoi v) exs).
Proof.
  intros v. apply numericalize_Forall2. intros ex t _ _.
  unfold stoi_get. unfold v. rewrite create_vocabulary_stoi.
  destruct (last_index t _) as [i|] eqn:Hi; cbn [default].
  - apply last_index_lookup in Hi as Hlook.
    rewrite decide_True by (by eapply list_elem_of_lookup_2). done.
  - apply last_index_None in Hi. rewrite decide_False by done.
    apply unk_id_decodes.
Qed.

(** X2.  Every id of an encoded split, of whatever split, is a position of
    the token list, and so is less than [max_vocab + 2] (than 2 when
    [max_vocab] is negative). *)
Theorem encoded_ids_in_range UNK PAD trn n exs :
  let v := create_vocabulary UNK PAD trn n in
  Forall (Forall (λ id, id < length (itos v) ∧ (Z.of_nat id < 2 + Z.max 0 n)%Z))
    (numericalize UNK (stoi v) exs).
Proof.
  intros v. pose proof (numericalize_decodes UNK PAD trn n exs) as Hdec.
  pose proof (create_vocabulary_length UNK PAD trn n) as Hlen.
  cbv zeta in Hdec. fold v in Hdec, Hlen.
  eapply Forall2_Forall_r; [exact Hdec |].
  apply Forall_forall. intros ex _ row Hrow.
  eapply Forall2_Forall_r; [exact Hrow |].
  apply Forall_forall. intros t _ id Hid. apply lookup_lt_Some in Hid. lia.
Qed.

Lemma most_common_all n ws t :
  (Z.of_nat (length (remove_dups ws)) ≤ n)%Z → t ∈ ws →
  t ∈ (most_common n (Counter ws)).*1.
Proof.
  intros Hn Ht.
  destruct (selected_tokens n ws) as (Hnd & Hlen & Hsub & _).
  set (sel := (most_common n (Counter ws)).*1) in *.
  assert (Hperm : sel ≡ₚ remove_dups ws).
  { apply submseteq_length_Permutation.
    - apply NoDup_submseteq; [done |]. intros x Hx. apply elem_of_remove_dups. by apply Hsub.
    - rewrite Hlen. lia. }
  rewrite Hperm. by apply elem_of_remove_dups.
Qed.

(** X3.  With [max_vocab] at least the number of distinct training tokens,
    no token of the training split is unknown: examples made of training
    tokens, the training split itself among them, are encoded without loss. *)
Theorem large_vocabulary_is_lossless UNK PAD trn n exs :
  (Z.of_nat (length (remove_dups (concat trn))) ≤ n)%Z →
  (∀ ex t, ex ∈ exs → t ∈ ex → t ∈ concat trn) →
  let v := create_vocabulary UNK PAD trn n in
  Forall2 (Forall2 (λ t id, itos v !! id = Some t)) exs (numericalize UNK (stoi v) exs).
Proof.
  intros Hn Hexs v. apply numericalize_Forall2. intros ex t Hex Ht.
  unfold v. rewrite stoi_get_decodes. rewrite decide_True; [done |].
  rewrite create_vocabulary_itos. do 2 right.
  apply most_common_all; [done |]. by eapply Hexs.
Qed.

(** ** The vocabulary as [max_vocab] grows, and ties *)

Lemma last_index_NoDup w l i : NoDup l → l !! i = Some w → last_index w l = Some i.
Proof.
  intros Hnd Hi. destruct (last_index w l) as [j|] eqn:Hj.
  - f_equal. apply last_index_lookup in Hj. by eapply NoDup_lookup.
  - apply last_index_None in Hj. exfalso. apply Hj. by eapply list_elem_of_lookup_2.
Qed.

Lemma last_index_cons_Some w x l i :
  last_index w l = Some i → last_index w (x :: l) = Some (S i).
Proof. intros Hi. cbn. by rewrite Hi. Qed.

Lemma last_index_cons_ne w x l : x ≠ w → last_index w (x :: l) = S <$> last_index w l.
Proof. intros Hne. cbn. destruct (last_index w l); [done |]. by rewrite decide_False. Qed.

Lemma most_common_mono n n' c :
  (n ≤ n')%Z → most_common n c `prefix_of` most_common n' c.
Proof.
  intros Hle. unfold most_common. destruct (decide (n ≤ 0)%Z).
  - apply prefix_nil.
  - rewrite decide_False by lia.
    replace (Z.to_nat n') with (Z.to_nat n + (Z.to_nat n' - Z.to_nat n)) by lia.
    rewrite <- take_take_drop. by apply prefix_app_r.
Qed.

(** X4.  A larger [max_vocab] extends the token list at its end, and a token
    other than the two reserved ones keeps its id. *)
Theorem larger_max_vocab_keeps_ids UNK PAD trn n n' :
  (n ≤ n')%Z →
  let v := create_vocabulary UNK PAD trn n in
  let v' := create_vocabulary UNK PAD trn n' in
  itos v `prefix_of` itos v'
  ∧ ∀ t, t ∈ itos v → t ≠ UNK → t ≠ PAD → stoi v !! t = stoi v' !! t.
Proof.
  intros Hle v v'.
  assert (Hpre : (most_common n (Counter (concat trn))).*1
                 `prefix_of` (most_common n' (Counter (concat trn))).*1).
  { destruct (most_common_mono n n' (Counter (concat trn)) Hle) as [k ->].
    rewrite fmap_app. by apply prefix_app_r. }
  split.
  - unfold v, v'. rewrite !create_vocabulary_itos. by do 2 apply prefix_cons.
  - intros t Ht Hu Hp. unfold v, v' in *. rewrite !create_vocabulary_stoi.
    rewrite create_vocabulary_itos in Ht. rewrite !create_vocabulary_itos.
    rewrite !(last_index_cons_ne t UNK), !(last_index_cons_ne t PAD) by done.
    do 2 f_equal.
    apply elem_of_cons in Ht as [?|Ht]; [done |].
    apply elem_of_cons in Ht as [?|Ht]; [done |].
    apply list_elem_of_lookup in Ht as [i Hi].
    destruct Hpre as [k Hk].
    rewrite (last_index_NoDup t _ i); [| apply most_common_keys_NoDup, Counter_NoDup | done].
    symmetry. apply last_index_NoDup; [apply most_common_keys_NoDup, Counter_NoDup |].
    rewrite Hk. by apply lookup_app_l_Some.
Qed.

Lemma insert_desc_filter c x l :
  filter (λ y : string * nat, y.2 = c) (insert_desc x l)
  = if decide (x.2 = c) then x :: filter (λ y, y.2 = c) l else filter (λ y, y.2 = c) l.
Proof.
  induction l as [|y l IH]; cbn [insert_desc].
  - rewrite filter_cons. by destruct (decide (x.2 = c)).
  - destruct (decide (y.2 ≤ x.2)) as [Hle|Hgt].
    + rewrite (filter_cons _ x). by destruct (decide (x.2 = c)).
    + rewrite !(filter_cons _ y), IH.
      destruct (decide (y.2 = c)), (decide (x.2 = c)); try done. lia.
Qed.

Lemma sorted_desc_filter c l :
  filter (λ y : string * nat, y.2 = c) (sorted_desc l) = filter (λ y, y.2 = c) l.
Proof.
  induction l as [|x l IH]; [done |]. cbn [sorted_desc foldr].
  rewrite insert_desc_filter. fold (sorted_desc l). rewrite IH, filter_cons.
  by destruct (decide (x.2 = c)).
Qed.

Lemma filter_keys (f : string → nat) c (l : list (string * nat)) :
  Forall (λ x, x.2 = f x.1) l →
  filter (λ t, f t = c) l.*1 = (filter (λ x : string * nat, x.2 = c) l).*1.
Proof.
  induction 1 as [|x l Hx _ IH]; [done |].
  rewrite fmap_cons, !filter_cons, IH, Hx.
  by destruct (decide (f x.1 = c)).
Qed.

Lemma prefix_filter {A} (P : A → Prop) `{!∀ x, Decision (P x)} (l k : list A) :
  l `prefix_of` k → filter P l `prefix_of` filter P k.
Proof. intros [m ->]. rewrite filter_app. by apply prefix_app_r. Qed.

Lemma Counter_snoc ws w :
  (Counter (ws ++ [w])).*1
  = if decide (w ∈ ws) then (Counter ws).*1 else (Counter ws).*1 ++ [w].
Proof.
  assert (Hsnoc : Counter (ws ++ [w]) = counter_incr w (Counter ws)).
  { unfold Counter. by rewrite foldl_app. }
  rewrite Hsnoc, counter_incr_keys. pose proof (Counter_keys ws w) as Hkeys.
  destruct (decide (w ∈ (Counter ws).*1)), (decide (w ∈ ws)); try done; tauto.
Qed.

Lemma most_common_ties n ws c :
  filter (λ t, occurrences t ws = c) (most_common n (Counter ws)).*1
  `prefix_of` filter (λ t, occurrences t ws = c) (Counter ws).*1.
Proof.
  assert (Hitems : Forall (λ x : string * nat, x.2 = occurrences x.1 ws) (Counter ws)).
  { apply Forall_forall. intros [k m] Hin. by apply Counter_item in Hin as [? _]. }
  assert (Hsel : Forall (λ x : string * nat, x.2 = occurrences x.1 ws)
                   (most_common n (Counter ws))).
  { apply Forall_forall. intros x Hin. apply most_common_subseteq in Hin.
    revert x Hin. by apply Forall_forall. }
  rewrite !(filter_keys (λ t, occurrences t ws)) by done.
  rewrite <- (sorted_desc_filter c (Counter ws)).
  assert (Hpre : most_common n (Counter ws) `prefix_of` sorted_desc (Counter ws)).
  { unfold most_common. destruct (decide (n ≤ 0)%Z); [apply prefix_nil | apply prefix_take]. }
  destruct (prefix_filter (λ y : string * nat, y.2 = c) _ _ Hpre) as [k ->].
  rewrite fmap_app. by apply prefix_app_r.
Qed.

(** X5.  Ties are broken by the order of first occurrence.  Among the
    selected tokens, those of one and the same frequency are in the order
    of the keys of the counter, which is the order in which the tokens
    first occur in the training split; when [max_vocab] cuts a group of
    equally frequent tokens, the first ones are kept. *)
Theorem equally_frequent_tokens_keep_corpus_order UNK PAD trn n :
  let ws := concat trn in
  ∃ sel,
    itos (create_vocabulary UNK PAD trn n) = UNK :: PAD :: sel
    ∧ (∀ c, filter (λ t, occurrences t ws = c) sel
            `prefix_of` filter (λ t, occurrences t ws = c) (Counter ws).*1)
    ∧ (Counter []).*1 = []
    ∧ ∀ l w, (Counter (l ++ [w])).*1
             = if decide (w ∈ l) then (Counter l).*1 else (Counter l).*1 ++ [w].
Proof.
  intros ws. exists (most_common n (Counter ws)).*1. split_and!.
  - apply create_vocabulary_itos.
  - intros c. apply most_common_ties.
  - done.
  - apply Counter_snoc.
Qed.

(** ** Facts about strings and paths *)

Lemma string_app_cons c s t : String c s +:+ t = String c (s +:+ t).
Proof. reflexivity. Qed.

Lemma string_app_length s t :
  String.length (s +:+ t) = String.length s + String.length t.
Proof.
  induction s as [|c s IH]; [done |].
  rewrite string_app_cons. simpl. by rewrite IH.
Qed.

Lemma string_app_assoc s t u : (s +:+ t) +:+ u = s +:+ (t +:+ u).
Proof.
  induction s as [|c s IH]; [done |].
  rewrite !string_app_cons. by rewrite IH.
Qed.

(** Two names that end in suffixes of the same length are equal only if
    the suffixes and what is in front of them are. *)
Lemma string_app_inv_suffix s1 t1 s2 t2 :
  s1 +:+ t1 = s2 +:+ t2 → String.length t1 = String.length t2 → s1 = s2 ∧ t1 = t2.
Proof.
  revert s2. induction s1 as [|c s1 IH]; intros s2 Heq Hlen.
  - destruct s2 as [|c2 s2]; [done |].
    exfalso. apply (f_equal String.length) in Heq.
    rewrite !string_app_length in Heq. simpl in Heq. lia.
  - destruct s2 as [|c2 s2].
    + exfalso. apply (f_equal String.length) in Heq.
      rewrite !string_app_length in Heq. simpl in Heq. lia.
    + rewrite !string_app_cons in Heq. injection Heq as -> Heq.
      destruct (IH s2 Heq Hlen) as [-> ->]. done.
Qed.

Lemma name_ok_suffix s t : 2 ≤ String.length t → name_ok (s +:+ t).
Proof.
  intros Hlen. split; intros Heq; apply (f_equal String.length) in Heq;
    rewrite string_app_length in Heq; simpl in Heq; lia.
Qed.

Lemma Path_init_name s : name_ok s → Path_init [s] = [s].
Proof.
  intros Hs. unfold Path_init. rewrite filter_cons. by rewrite decide_True.
Qed.

Lemma path_div_name p s : name_ok s → path_div p s = p ++ [s].
Proof. intros Hs. unfold path_div. by rewrite Path_init_name. Qed.

Lemma path_div_parent_name segments :
  path_div (path_parent (Path_init segments)) (path_name (Path_init segments))
  = Path_init segments.
Proof.
  assert (Forall name_ok (Path_init segments)) as Hok.
  { apply Forall_forall. intros x Hx. unfold Path_init in Hx.
    by apply list_elem_of_filter in Hx as [? _]. }
  revert Hok. generalize (Path_init segments). intros p Hok.
  destruct p as [|y q _] using rev_ind; [reflexivity |].
  rewrite Forall_app, Forall_singleton in Hok. destruct Hok as [_ Hx].
  unfold path_parent, path_name. rewrite last_snoc. simpl.
  rewrite length_app. simpl. replace (length q + 1 - 1) with (length q) by lia.
  rewrite take_app_length. by apply path_div_name.
Qed.

Lemma tmp_dir_eq a : tmp_dir a = dataset_dir a ++ ["tmp"].
Proof. by apply path_div_name. Qed.

Lemma ids_file_eq a split :
  ids_file a split = tmp_dir a ++ [(split +:+ "_" +:+ lang a) +:+ "_ids.npy"].
Proof.
  unfold ids_file.
  replace (split +:+ "_" +:+ lang a +:+ "_ids.npy")
    with ((split +:+ "_" +:+ lang a) +:+ "_ids.npy") by (by rewrite !string_app_assoc).
  apply path_div_name, name_ok_suffix. simpl. lia.
Qed.

Lemma lbl_file_eq a split :
  lbl_file a split = tmp_dir a ++ [(split +:+ "_" +:+ lang a) +:+ "_lbl.npy"].
Proof.
  unfold lbl_file.
  replace (split +:+ "_" +:+ lang a +:+ "_lbl.npy")
    with ((split +:+ "_" +:+ lang a) +:+ "_lbl.npy") by (by rewrite !string_app_assoc).
  apply path_div_name, name_ok_suffix. simpl. lia.
Qed.

Lemma vocab_file_eq a : vocab_file a = tmp_dir a ++ [("vocab_" +:+ lang a) +:+ ".pkl"].
Proof.
  unfold vocab_file.
  replace ("vocab_" +:+ lang a +:+ ".pkl")
    with (("vocab_" +:+ lang a) +:+ ".pkl") by (by rewrite !string_app_assoc).
  apply path_div_name, name_ok_suffix. simpl. lia.
Qed.

Lemma ids_file_inj a s1 s2 : ids_file a s1 = ids_file a s2 → s1 = s2.
Proof.
  rewrite !ids_file_eq. intros Heq. apply app_inv_head in Heq. injection Heq as Heq.
  apply string_app_inv_suffix in Heq as [Heq _]; [|done].
  by apply string_app_inv_suffix in Heq as [? _].
Qed.

Lemma lbl_file_inj a s1 s2 : lbl_file a s1 = lbl_file a s2 → s1 = s2.
Proof.
  rewrite !lbl_file_eq. intros Heq. apply app_inv_head in Heq. injection Heq as Heq.
  apply string_app_inv_suffix in Heq as [Heq _]; [|done].
  by apply string_app_inv_suffix in Heq as [? _].
Qed.

Lemma ids_file_ne_lbl_file a s1 s2 : ids_file a s1 ≠ lbl_file a s2.
Proof.
  rewrite ids_file_eq, lbl_file_eq. intros Heq. apply app_inv_head in Heq.
  injection Heq as Heq. by apply string_app_inv_suffix in Heq as [_ ?].
Qed.

Lemma vocab_file_ne_ids_file a s : vocab_file a ≠ ids_file a s.
Proof.
  rewrite ids_file_eq, vocab_file_eq. intros Heq. apply app_inv_head in Heq.
  injection Heq as Heq.
  change "_ids.npy" with ("_ids" +:+ ".npy") in Heq. rewrite <- string_app_assoc in Heq.
  by apply string_app_inv_suffix in Heq as [_ ?].
Qed.

Lemma vocab_file_ne_lbl_file a s : vocab_file a ≠ lbl_file a s.
Proof.
  rewrite lbl_file_eq, vocab_file_eq. intros Heq. apply app_inv_head in Heq.
  injection Heq as Heq.
  change "_lbl.npy" with ("_lbl" +:+ ".npy") in Heq. rewrite <- string_app_assoc in Heq.
  by apply string_app_inv_suffix in Heq as [_ ?].
Qed.

Lemma snoc_ne_self {A} (l : list A) x : l ++ [x] ≠ l.
Proof.
  intros Heq. apply (f_equal length) in Heq. rewrite length_app in Heq. simpl in Heq. lia.
Qed.

Lemma ids_file_ne_tmp_dir a s : ids_file a s ≠ tmp_dir a.
Proof. rewrite ids_file_eq. apply snoc_ne_self. Qed.

Lemma lbl_file_ne_tmp_dir a s : lbl_file a s ≠ tmp_dir a.
Proof. rewrite lbl_file_eq. apply snoc_ne_self. Qed.

Lemma vocab_file_ne_tmp_dir a : vocab_file a ≠ tmp_dir a.
Proof. rewrite vocab_file_eq. apply snoc_ne_self. Qed.

(** A weights file of the framework is none of the files of the cache. *)
Lemma pth_ne_tmp_dir a d n : d ++ [n +:+ ".pth"] ≠ tmp_dir a.
Proof.
  rewrite tmp_dir_eq. intros Heq. apply app_inj_tail in Heq as [_ Heq].
  change "tmp" with ("" +:+ "tmp") in Heq.
  apply (f_equal String.length) in Heq. rewrite !string_app_length in Heq.
  simpl in Heq. lia.
Qed.

Lemma pth_ne_ids_file a d n s : d ++ [n +:+ ".pth"] ≠ ids_file a s.
Proof.
  rewrite ids_file_eq. intros Heq. apply app_inj_tail in Heq as [_ Heq].
  change "_ids.npy" with ("_ids" +:+ ".npy") in Heq. rewrite <- string_app_assoc in Heq.
  by apply string_app_inv_suffix in Heq as [_ ?].
Qed.

Lemma pth_ne_lbl_file a d n s : d ++ [n +:+ ".pth"] ≠ lbl_file a s.
Proof.
  rewrite lbl_file_eq. intros Heq. apply app_inj_tail in Heq as [_ Heq].
  change "_lbl.npy" with ("_lbl" +:+ ".npy") in Heq. rewrite <- string_app_assoc in Heq.
  by apply string_app_inv_suffix in Heq as [_ ?].
Qed.

Lemma pth_ne_vocab_file a d n : d ++ [n +:+ ".pth"] ≠ vocab_file a.
Proof.
  rewrite vocab_file_eq. intros Heq. apply app_inj_tail in Heq as [_ Heq].
  by apply string_app_inv_suffix in Heq as [_ ?].
Qed.

(** ** Names without a separator *)

Lemma has_separator_app s t :
  has_separator (s +:+ t) = has_separator s || has_separator t.
Proof.
  induction s as [|c s IH]; [done |].
  rewrite string_app_cons. cbn [has_separator]. by rewrite IH, orb_assoc.
Qed.

Lemma split_slash_plain s : has_separator s = false → split_slash s = [s].
Proof.
  induction s as [|c s IH]; [done |]. cbn [has_separator split_slash].
  intros [Hc Hs]%orb_false_elim. rewrite Hc. by rewrite (IH Hs).
Qed.

(** A name without a separator is one part for [pathlib], the name itself. *)
Lemma parts_plain s : has_separator s = false → name_ok s → parts s = [s].
Proof. intros Hs Hok. unfold parts. rewrite split_slash_plain by done. by apply Path_init_name. Qed.

(** On such a name [path_div] is what [pathlib] does. *)
Lemma path_div_parts p s : has_separator s = false → path_div p s = p ++ parts s.
Proof. intros Hs. unfold path_div, parts. by rewrite split_slash_plain. Qed.

Lemma parts_suffix s t :
  has_separator s = false → has_separator t = false → 2 ≤ String.length t →
  parts (s +:+ t) = [s +:+ t].
Proof.
  intros Hs Ht Hlen. apply parts_plain; [|by apply name_ok_suffix].
  by rewrite has_separator_app, Hs, Ht.
Qed.

(** ** Running the primitives *)

Arguments create_vocabulary : simpl never.
Arguments numericalize : simpl never.
Arguments path_div : simpl never.
Arguments path_str : simpl never.
Arguments tmp_dir : simpl never.
Arguments vocab_file : simpl never.
Arguments ids_file : simpl never.
Arguments lbl_file : simpl never.

Lemma bind_run {A B} (m : Script A) (f : A → Script B) w :
  (m ≫= f) w
  = match m w with (Ok a, w') => f a w' | (Raise e, w') => (Raise e, w') end.
Proof. reflexivity. Qed.

Lemma ret_run {A} (a : A) w : (mret a : Script A) w = (Ok a, w).
Proof. reflexivity. Qed.

Lemma emit_run e w : emit e w = (Ok tt, add_event e w).
Proof. reflexivity. Qed.

Lemma get_fs_run w : get_fs w = (Ok (fs w), w).
Proof. reflexivity. Qed.

(** Projections of an updated world. *)
Ltac world_simpl := cbn [fs trace cuda_available add_event set_fs fst snd].
Tactic Notation "world_simpl" "in" hyp_list(Hs) :=
  cbn [fs trace cuda_available add_event set_fs fst snd] in Hs.

Lemma print_run s w : print s w = (Ok tt, add_event (Print s) w).
Proof. reflexivity. Qed.

Lemma assert_run cond msg w :
  assert cond msg w = if cond then (Ok tt, w) else (Raise (AssertionError msg), w).
Proof. by destruct cond. Qed.

Lemma dict_getitem_run {V} (d : gmap string V) key w :
  dict_getitem d key w
  = match d !! key with Some v => (Ok v, w) | None => (Raise (KeyError key), w) end.
Proof. unfold dict_getitem. by destruct (d !! key). Qed.

Lemma path_exists_run p w :
  path_exists p w = (Ok (bool_decide (is_Some (fs w !! p))), w).
Proof. reflexivity. Qed.

Lemma write_file_run p n w :
  write_file p n w
  = if is_dir (fs w !! p) then (Raise (OSError IsADirectory p), w)
    else (Ok tt, set_fs (<[p := n]> (fs w)) w).
Proof. unfold write_file. rewrite bind_run. simpl. by destruct (fs w !! p) as [[]|]. Qed.

Lemma np_save_run p a w :
  np_save p a w
  = if is_dir (fs w !! p) then (Raise (OSError IsADirectory p), add_event (NpSave p a) w)
    else (Ok tt, set_fs (<[p := NpyFile a]> (fs w)) (add_event (NpSave p a) w)).
Proof. unfold np_save. rewrite bind_run, emit_run, write_file_run. done. Qed.

Lemma pickle_dump_run v p w :
  pickle_dump v p w
  = if is_dir (fs w !! p) then (Raise (OSError IsADirectory p), add_event (PickleDump p v) w)
    else (Ok tt, set_fs (<[p := PklFile v]> (fs w)) (add_event (PickleDump p v) w)).
Proof. unfold pickle_dump. rewrite bind_run, emit_run, write_file_run. done. Qed.

Lemma np_load_run p w :
  np_load p w = (np_load_result p (fs w !! p), add_event (NpLoad p) w).
Proof.
  unfold np_load. rewrite bind_run, emit_run, bind_run. simpl.
  by destruct (fs w !! p) as [[]|].
Qed.

Lemma pickle_load_run p w :
  pickle_load p w = (pickle_load_result p (fs w !! p), add_event (PickleLoad p) w).
Proof.
  unfold pickle_load. rewrite bind_run, emit_run, bind_run. simpl.
  by destruct (fs w !! p) as [[]|].
Qed.

Lemma framework_read_run p w :
  framework_read p w = (framework_read_result p (fs w !! p), w).
Proof.
  unfold framework_read. rewrite bind_run. simpl. by destruct (fs w !! p) as [[]|].
Qed.

Lemma torch_save_run p w :
  torch_save p w
  = if is_dir (fs w !! p) then (Raise (OSError IsADirectory p), w)
    else (Ok tt, set_fs (<[p := PthFile]> (fs w)) w).
Proof. apply write_file_run. Qed.

Lemma mkdir_exist_ok_run p w :
  mkdir_exist_ok p w
  = match fs w !! p with
    | Some Dir => (Ok tt, add_event (Mkdir p) w)
    | Some _ => (Raise (OSError FileExists p), add_event (Mkdir p) w)
    | None =>
        match fs w !! path_parent p with
        | Some Dir => (Ok tt, set_fs (<[p := Dir]> (fs w)) (add_event (Mkdir p) w))
        | Some _ => (Raise (OSError NotADirectory p), add_event (Mkdir p) w)
        | None => (Raise (OSError FileNotFound p), add_event (Mkdir p) w)
        end
    end.
Proof.
  unfold mkdir_exist_ok. rewrite bind_run, emit_run, bind_run. simpl.
  destruct (fs w !! p) as [[]|]; try done.
  by destruct (fs w !! path_parent p) as [[]|].
Qed.

Lemma lookup_insert_consistent `{Countable K} {V} (f : gmap K V) p n q m :
  (p = q → n = m) → f !! q = Some m → <[p := n]> f !! q = Some m.
Proof.
  intros Hc Hq. destruct (decide (p = q)) as [->|Hne].
  - rewrite lookup_insert_eq. f_equal. by apply Hc.
  - by rewrite lookup_insert_ne.
Qed.

(** ** Facts about what a script may touch *)

Section Effects.

Context (F : Path → Prop) (E : Event → Prop).

Lemma effects_pure {A} (m : Script A) : (∀ w, (m w).2 = w) → effects F E m.
Proof.
  intros Hm w. rewrite Hm. split_and!; [done | done |].
  exists []. by rewrite app_nil_r.
Qed.

Lemma effects_ret {A} (a : A) : effects F E (mret a : Script A).
Proof. by apply effects_pure. Qed.

Lemma effects_raise {A} e : effects F E (raise e : Script A).
Proof. by apply effects_pure. Qed.

Lemma effects_assert cond msg : effects F E (assert cond msg).
Proof. apply effects_pure. intros w. by destruct cond. Qed.

Lemma effects_dict_getitem {V} (d : gmap string V) key : effects F E (dict_getitem d key).
Proof. apply effects_pure. intros w. rewrite dict_getitem_run. by destruct (d !! key). Qed.

Lemma effects_path_exists p : effects F E (path_exists p).
Proof. by apply effects_pure. Qed.

Lemma effects_cuda_is_available : effects F E cuda_is_available.
Proof. by apply effects_pure. Qed.

Lemma effects_framework_read p : effects F E (framework_read p).
Proof. apply effects_pure. intros w. by rewrite framework_read_run. Qed.

Lemma effects_emit e : E e → effects F E (emit e).
Proof.
  intros He w. rewrite emit_run. world_simpl. split_and!; [done | done |].
  exists [e]. split; [done |]. by apply Forall_singleton.
Qed.

Lemma effects_bind {A B} (m : Script A) (f : A → Script B) :
  effects F E m → (∀ a, effects F E (f a)) → effects F E (m ≫= f).
Proof.
  intros Hm Hf w. rewrite bind_run. destruct (Hm w) as (Hfs & Hc & evs & Htr & Hevs).
  destruct (m w) as [[a|e] w1]; cbn [snd] in *.
  - destruct (Hf a w1) as (Hfs' & Hc' & evs' & Htr' & Hevs').
    split_and!.
    + intros p Hp. by rewrite Hfs', Hfs.
    + congruence.
    + exists (evs ++ evs'). split; [by rewrite Htr', Htr, app_assoc |].
      by apply Forall_app.
  - split_and!; [done | done |]. by exists evs.
Qed.

Lemma effects_for_in {A S} (l : list A) (body : S → A → Script S) s :
  (∀ s x, x ∈ l → effects F E (body s x)) → effects F E (for_in l body s).
Proof.
  revert s. induction l as [|x l IH]; intros s Hbody; cbn [for_in].
  - apply effects_ret.
  - apply effects_bind; [apply Hbody; left |].
    intros s'. apply IH. intros s'' y Hy. apply Hbody. by right.
Qed.

(** The same, when the value that [m] returns is known to be in [Q]. *)
Lemma effects_bind_val {A B} (Q : A → Prop) (m : Script A) (f : A → Script B) :
  effects F E m → (∀ w a w', m w = (Ok a, w') → Q a) →
  (∀ a, Q a → effects F E (f a)) → effects F E (m ≫= f).
Proof.
  intros Hm HQ Hf w. rewrite bind_run. destruct (Hm w) as (Hfs & Hc & evs & Htr & Hevs).
  destruct (m w) as [[a|e] w1] eqn:Hrun; cbn [snd] in *.
  - destruct (Hf a (HQ _ _ _ Hrun) w1) as (Hfs' & Hc' & evs' & Htr' & Hevs').
    split_and!.
    + intros p Hp. by rewrite Hfs', Hfs.
    + congruence.
    + exists (evs ++ evs'). split; [by rewrite Htr', Htr, app_assoc |].
      by apply Forall_app.
  - split_and!; [done | done |]. by exists evs.
Qed.

Lemma effects_get_fs : effects F E get_fs.
Proof. by apply effects_pure. Qed.

Lemma effects_write_file p n : F p → effects F E (write_file p n).
Proof.
  intros HF w. rewrite write_file_run. destruct (is_dir _); world_simpl.
  - split_and!; [done | done |]. exists []. by rewrite app_nil_r.
  - split_and!; [| done |].
    + intros q Hq. rewrite lookup_insert_ne; [done |]. by intros ->.
    + exists []. by rewrite app_nil_r.
Qed.

Lemma effects_np_save p a : F p → E (NpSave p a) → effects F E (np_save p a).
Proof.
  intros HF HE. apply effects_bind; [by apply effects_emit |].
  intros _. by apply effects_write_file.
Qed.

Lemma effects_pickle_dump v p : F p → E (PickleDump p v) → effects F E (pickle_dump v p).
Proof.
  intros HF HE. apply effects_bind; [by apply effects_emit |].
  intros _. by apply effects_write_file.
Qed.

Lemma effects_np_load p : E (NpLoad p) → effects F E (np_load p).
Proof.
  intros HE w. rewrite np_load_run. world_simpl. split_and!; [done | done |].
  exists [NpLoad p]. split; [done |]. by apply Forall_singleton.
Qed.

Lemma effects_pickle_load p : E (PickleLoad p) → effects F E (pickle_load p).
Proof.
  intros HE w. rewrite pickle_load_run. world_simpl. split_and!; [done | done |].
  exists [PickleLoad p]. split; [done |]. by apply Forall_singleton.
Qed.

Lemma effects_mkdir_exist_ok p : F p → E (Mkdir p) → effects F E (mkdir_exist_ok p).
Proof.
  intros HF HE w. rewrite mkdir_exist_ok_run.
  assert (∃ evs, trace w ++ [Mkdir p] = trace w ++ evs ∧ Forall E evs) as Hev.
  { exists [Mkdir p]. split; [done |]. by apply Forall_singleton. }
  destruct (fs w !! p) as [[]|]; world_simpl; try done.
  destruct (fs w !! path_parent p) as [[]|]; world_simpl; try done.
  split_and!; [| done | done].
  intros q Hq. rewrite lookup_insert_ne; [done |]. by intros ->.
Qed.

End Effects.

Lemma effects_mono (F F' : Path → Prop) (E E' : Event → Prop) {A} (m : Script A) :
  (∀ p, F p → F' p) → (∀ e, E e → E' e) → effects F E m → effects F' E' m.
Proof.
  intros HF HE Hm w. destruct (Hm w) as (Hfs & Hc & evs & Htr & Hevs).
  split_and!; [| done |].
  - intros p Hp. apply Hfs. intros HFp. by apply Hp, HF.
  - exists evs. split; [done |]. eapply Forall_impl; [exact Hevs | exact HE].
Qed.

(** ** The fresh branch (lines 67-85) *)

Ltac in_list :=
  first [ apply list_elem_of_here | apply list_elem_of_further; in_list ].

Section ScriptFacts.

Context (UNK PAD TRN VAL TST : string) (DATASETS : list string) (PAD_TOKEN_ID : Z).
Context (read_clas_data :
           gmap Path Node → Path → string → string →
           Result (gmap string (list (list string)) * gmap string Array)).

Local Abbreviation classifier_events := (classifier_events PAD_TOKEN_ID).
Local Abbreviation data_events := (data_events PAD_TOKEN_ID).
Local Abbreviation inputs_valid := (inputs_valid DATASETS).
Local Abbreviation cache_paths := (cache_paths TRN VAL TST).
Local Abbreviation written_paths := (written_paths TRN VAL TST).
Local Abbreviation stage_events := (stage_events TRN VAL TST).

Lemma encode_split_Ok a toks lbls stoi ids split w ids' w' :
  encode_split UNK a toks lbls stoi ids split w = (Ok ids', w') →
  ∃ exs l,
    toks !! split = Some exs ∧ lbls !! split = Some l
    ∧ ids' = <[split := ArrIds (numericalize UNK stoi exs)]> ids
    ∧ fs w' = <[lbl_file a split := NpyFile l]>
                (<[ids_file a split := NpyFile (ArrIds (numericalize UNK stoi exs))]> (fs w))
    ∧ trace w' = trace w ++ [NpSave (ids_file a split) (ArrIds (numericalize UNK stoi exs));
                             NpSave (lbl_file a split) l]
    ∧ cuda_available w' = cuda_available w.
Proof.
  unfold encode_split. rewrite bind_run, dict_getitem_run.
  destruct (toks !! split) as [exs|]; [|done].
  rewrite bind_run, np_save_run.
  destruct (is_dir (fs w !! ids_file a split)); [done |].
  rewrite bind_run, dict_getitem_run.
  destruct (lbls !! split) as [l|]; [|done].
  rewrite bind_run, np_save_run. simpl fs.
  destruct (is_dir _); [done |].
  rewrite ret_run. intros [= <- <-]. exists exs, l. simpl.
  split_and!; try done. by rewrite <- app_assoc.
Qed.

Ltac cache_side Heq :=
  first
    [ by apply ids_file_ne_lbl_file in Heq
    | by apply symmetry, ids_file_ne_lbl_file in Heq
    | by apply vocab_file_ne_ids_file in Heq
    | by apply symmetry, vocab_file_ne_ids_file in Heq
    | by apply vocab_file_ne_lbl_file in Heq
    | by apply symmetry, vocab_file_ne_lbl_file in Heq
    | apply ids_file_inj in Heq; congruence
    | apply lbl_file_inj in Heq; congruence
    | congruence ].

Ltac cache_lookup :=
  repeat first
    [ apply lookup_insert_eq
    | apply lookup_insert_consistent; [let Heq := fresh "Heq" in intros Heq; cache_side Heq |] ].

Lemma tokenize_and_cache_Ok a w ids lbls vocab w' :
  tokenize_and_cache UNK PAD TRN VAL TST read_clas_data a w = (Ok (ids, lbls, vocab), w') →
  ∃ toks trn,
    read_clas_data (fs w) (dataset_dir a) (dataset a) (lang a) = Ok (toks, lbls)
    ∧ toks !! TRN = Some trn
    ∧ vocab = create_vocabulary UNK PAD trn (max_vocab a)
    ∧ (∀ split, split ∈ [TRN; VAL; TST] → ∃ exs l,
         toks !! split = Some exs ∧ lbls !! split = Some l
         ∧ ids !! split = Some (ArrIds (numericalize UNK (stoi vocab) exs))
         ∧ fs w' !! ids_file a split
           = Some (NpyFile (ArrIds (numericalize UNK (stoi vocab) exs)))
         ∧ fs w' !! lbl_file a split = Some (NpyFile l))
    ∧ fs w' !! vocab_file a = Some (PklFile vocab)
    ∧ (∀ p, p ≠ vocab_file a →
            (∀ split, split ∈ [TRN; VAL; TST] → p ≠ ids_file a split ∧ p ≠ lbl_file a split) →
            fs w' !! p = fs w !! p)
    ∧ trace w' = trace w
                 ++ [Print "Reading the data...";
                     ReadClasData (dataset_dir a) (dataset a) (lang a);
                     PickleDump (vocab_file a) vocab]
                 ++ split_saves a ids lbls TRN ++ split_saves a ids lbls VAL
                 ++ split_saves a ids lbls TST
    ∧ cuda_available w' = cuda_available w.
Proof.
  unfold tokenize_and_cache.
  rewrite bind_run, print_run, bind_run, emit_run, bind_run, get_fs_run. world_simpl.
  destruct (read_clas_data _ _ _ _) as [[toks lbls0]|e] eqn:Hread; [|done].
  rewrite bind_run, dict_getitem_run.
  destruct (toks !! TRN) as [trn|] eqn:Htrn; [|done].
  cbv zeta. remember (create_vocabulary UNK PAD trn (max_vocab a)) as v eqn:Hvoc.
  rewrite bind_run, pickle_dump_run. world_simpl.
  destruct (is_dir _); [done |].
  rewrite bind_run. cbn [for_in].
  rewrite bind_run.
  destruct (encode_split _ _ _ _ _ _ _ _) as [[ids1|?] w1] eqn:H1; [|done].
  apply encode_split_Ok in H1 as (exs1 & l1 & Ht1 & Hl1 & -> & Hf1 & Htr1 & Hc1).
  rewrite bind_run.
  destruct (encode_split _ _ _ _ _ _ _ _) as [[ids2|?] w2] eqn:H2; [|done].
  apply encode_split_Ok in H2 as (exs2 & l2 & Ht2 & Hl2 & -> & Hf2 & Htr2 & Hc2).
  rewrite bind_run.
  destruct (encode_split _ _ _ _ _ _ _ _) as [[ids3|?] w3] eqn:H3; [|done].
  apply encode_split_Ok in H3 as (exs3 & l3 & Ht3 & Hl3 & -> & Hf3 & Htr3 & Hc3).
  rewrite !ret_run. intros [= <- <- <- <-].
  world_simpl in Hf1 Htr1 Hc1. rewrite Hf1 in Hf2. rewrite Hf2 in Hf3.
  rewrite Htr1 in Htr2. rewrite Htr2 in Htr3.
  set (ids := <[TST := _]> _).
  assert (ids !! TRN = Some (ArrIds (numericalize UNK (stoi v) exs1))) as Hi1.
  { unfold ids.
    repeat first [ apply lookup_insert_eq
                 | apply lookup_insert_consistent; [intros ?; subst; congruence |] ]. }
  assert (ids !! VAL = Some (ArrIds (numericalize UNK (stoi v) exs2))) as Hi2.
  { unfold ids.
    repeat first [ apply lookup_insert_eq
                 | apply lookup_insert_consistent; [intros ?; subst; congruence |] ]. }
  assert (ids !! TST = Some (ArrIds (numericalize UNK (stoi v) exs3))) as Hi3.
  { unfold ids. apply lookup_insert_eq. }
  clearbody ids.
  exists toks, trn. split_and!; try done.
  - intros split Hin. rewrite Hf3.
    assert (Htrn' : exs1 = trn) by congruence. subst exs1.
    repeat (apply elem_of_cons in Hin as [->|Hin]); [| | | by apply elem_of_nil in Hin].
    + exists trn, l1. split_and!; [done | done | done | cache_lookup..].
    + exists exs2, l2. split_and!; [done | done | done | cache_lookup..].
    + exists exs3, l3. split_and!; [done | done | done | cache_lookup..].
  - rewrite Hf3. cache_lookup.
  - intros p Hv Hs. rewrite Hf3.
    pose proof (Hs TRN (list_elem_of_here _ _)) as [? ?].
    pose proof (Hs VAL (list_elem_of_further _ _ _ (list_elem_of_here _ _))) as [? ?].
    pose proof (Hs TST (list_elem_of_further _ _ _
                          (list_elem_of_further _ _ _ (list_elem_of_here _ _)))) as [? ?].
    by rewrite !lookup_insert_ne.
  - rewrite Htr3. unfold split_saves. rewrite Hi1, Hi2, Hi3, Hl1, Hl2, Hl3.
    by rewrite <- !app_assoc.
  - congruence.
Qed.

(** ** The load branch (lines 87-93) *)

Lemma load_split_Ok a s split w s' w' :
  load_split a s split w = (Ok s', w') ↔
  ∃ i l,
    fs w !! ids_file a split = Some (NpyFile i)
    ∧ fs w !! lbl_file a split = Some (NpyFile l)
    ∧ s' = (<[split := i]> s.1, <[split := l]> s.2)
    ∧ w' = add_event (NpLoad (lbl_file a split)) (add_event (NpLoad (ids_file a split)) w).
Proof.
  unfold load_split. rewrite bind_run, np_load_run.
  split.
  - destruct (fs w !! ids_file a split) as [[| i | | |]|] eqn:Hi; try done.
    cbn [np_load_result]. rewrite bind_run, np_load_run. world_simpl.
    destruct (fs w !! lbl_file a split) as [[| l | | |]|] eqn:Hl; try done.
    cbn [np_load_result]. rewrite ret_run. intros [= <- <-]. by exists i, l.
  - intros (i & l & Hi & Hl & -> & ->). rewrite Hi. cbn [np_load_result].
    rewrite bind_run, np_load_run. world_simpl. rewrite Hl. done.
Qed.

Lemma load_split_found a s split w i l :
  fs w !! ids_file a split = Some (NpyFile i) →
  fs w !! lbl_file a split = Some (NpyFile l) →
  load_split a s split w
  = (Ok (<[split := i]> s.1, <[split := l]> s.2),
     add_event (NpLoad (lbl_file a split)) (add_event (NpLoad (ids_file a split)) w)).
Proof. intros Hi Hl. apply load_split_Ok. by exists i, l. Qed.

Lemma load_cache_Ok a w ids lbls vocab w' :
  load_cache TRN VAL TST a w = (Ok (ids, lbls, vocab), w') ↔
  ∃ i1 l1 i2 l2 i3 l3,
    fs w !! ids_file a TRN = Some (NpyFile i1) ∧ fs w !! lbl_file a TRN = Some (NpyFile l1)
    ∧ fs w !! ids_file a VAL = Some (NpyFile i2) ∧ fs w !! lbl_file a VAL = Some (NpyFile l2)
    ∧ fs w !! ids_file a TST = Some (NpyFile i3) ∧ fs w !! lbl_file a TST = Some (NpyFile l3)
    ∧ fs w !! vocab_file a = Some (PklFile vocab)
    ∧ ids = <[TST := i3]> (<[VAL := i2]> (<[TRN := i1]> ∅))
    ∧ lbls = <[TST := l3]> (<[VAL := l2]> (<[TRN := l1]> ∅))
    ∧ fs w' = fs w
    ∧ cuda_available w' = cuda_available w
    ∧ trace w' = trace w ++ [Print "Loading the pickled data..."]
                 ++ split_loads a TRN ++ split_loads a VAL ++ split_loads a TST
                 ++ [PickleLoad (vocab_file a)].
Proof.
  unfold load_cache. rewrite bind_run, print_run, bind_run. cbn [for_in].
  split.
  - rewrite bind_run.
    destruct (load_split _ _ _ _) as [[s1|?] w1] eqn:H1; [|done].
    apply load_split_Ok in H1 as (i1 & l1 & Hi1 & Hl1 & -> & ->).
    rewrite bind_run.
    destruct (load_split _ _ _ _) as [[s2|?] w2] eqn:H2; [|done].
    apply load_split_Ok in H2 as (i2 & l2 & Hi2 & Hl2 & -> & ->).
    rewrite bind_run.
    destruct (load_split _ _ _ _) as [[s3|?] w3] eqn:H3; [|done].
    apply load_split_Ok in H3 as (i3 & l3 & Hi3 & Hl3 & -> & ->).
    rewrite ret_run. cbn [fst snd]. rewrite bind_run, pickle_load_run.
    world_simpl in Hi2 Hl2 Hi3 Hl3. world_simpl.
    destruct (fs w !! vocab_file a) as [[| | v | |]|] eqn:Hv; try done.
    cbn [pickle_load_result]. rewrite ret_run. intros [= <- <- <- <-].
    exists i1, l1, i2, l2, i3, l3. world_simpl. split_and!; try done.
    unfold split_loads. by rewrite <- !app_assoc.
  - intros (i1 & l1 & i2 & l2 & i3 & l3 & Hi1 & Hl1 & Hi2 & Hl2 & Hi3 & Hl3 & Hv
            & -> & -> & Hfs & Hc & Htr).
    rewrite bind_run, (load_split_found _ _ _ _ i1 l1) by done.
    rewrite bind_run, (load_split_found _ _ _ _ i2 l2) by done.
    rewrite bind_run, (load_split_found _ _ _ _ i3 l3) by done.
    rewrite ret_run. cbn [fst snd]. rewrite bind_run, pickle_load_run. world_simpl.
    rewrite Hv. cbn [pickle_load_result]. rewrite ret_run. f_equal.
    destruct w' as [f' c' t']. world_simpl in Hfs Hc Htr. subst.
    unfold add_event. world_simpl. f_equal.
    unfold split_loads. by rewrite <- !app_assoc.
Qed.

(** Lines 66: the branch taken depends on one file only. *)
Lemma load_or_tokenize_run a w :
  load_or_tokenize UNK PAD TRN VAL TST read_clas_data a w
  = if bool_decide (is_Some (fs w !! ids_file a TRN))
    then load_cache TRN VAL TST a w
    else tokenize_and_cache UNK PAD TRN VAL TST read_clas_data a w.
Proof.
  unfold load_or_tokenize. rewrite bind_run, path_exists_run.
  by destruct (bool_decide _).
Qed.

(** ** Device, input checks and training (lines 39-56, 95-138) *)

Local Abbreviation run := (new_train_clas UNK PAD TRN VAL TST DATASETS PAD_TOKEN_ID read_clas_data).
Local Abbreviation get_data := (load_or_tokenize UNK PAD TRN VAL TST read_clas_data).
Local Abbreviation do_train a :=
  (train TRN VAL TST PAD_TOKEN_ID a (if qrnn a then "qrnn" else "lstm")).

Lemma select_device_run a w :
  select_device a w
  = (Ok tt,
     add_event (SetDevice (if cuda_available w then cuda_id a else (-1)%Z))
       (if cuda_available w then w
        else add_event (Print "CUDA not available. Setting device=-1.") w)).
Proof. unfold select_device, cuda_is_available. rewrite bind_run. by destruct (cuda_available w). Qed.

Lemma check_inputs_run a w :
  check_inputs DATASETS a w
  = (if negb (bool_decide (dataset a ∈ DATASETS))
     then Raise (AssertionError ("Error: " +:+ dataset a +:+ " processing is not implemented."))
     else if negb ((bool_decide (dataset a = "imdb") && bool_decide (lang a = "en"))
                   || negb (bool_decide (dataset a = "imdb")))
     then Raise (AssertionError "Error: IMDb is only available in English.")
     else if negb (bool_decide (path_name (data_dir_path a) = "data"))
     then Raise (AssertionError ("Error: Name of data directory should be data, not "
                                   +:+ path_name (data_dir_path a) +:+ "."))
     else if negb (bool_decide (is_Some (fs w !! data_dir_path a)))
     then Raise (AssertionError ("Error: " +:+ path_str (data_dir_path a) +:+ " does not exist."))
     else if negb (bool_decide (is_Some (fs w !! dataset_dir a)))
     then Raise (AssertionError ("Error: " +:+ path_str (dataset_dir a) +:+ " does not exist."))
     else if negb (bool_decide (is_Some (fs w !! model_dir_path a)))
     then Raise (AssertionError ("Error: " +:+ path_str (model_dir_path a) +:+ " does not exist."))
     else Ok tt,
     add_event (Print ("Dataset: " +:+ dataset a +:+ ". Language: " +:+ lang a +:+ ".")) w).
Proof.
  unfold check_inputs. rewrite bind_run, print_run, bind_run, assert_run.
  destruct (bool_decide (dataset a ∈ DATASETS)); [|done]. cbn [negb].
  rewrite bind_run, assert_run.
  destruct (_ || _); [|done]. cbn [negb].
  rewrite bind_run, assert_run.
  destruct (bool_decide (path_name _ = _)); [|done]. cbn [negb].
  rewrite bind_run, path_exists_run, bind_run, assert_run. world_simpl.
  destruct (bool_decide (is_Some (fs w !! data_dir_path a))); [|done]. cbn [negb].
  rewrite bind_run, path_exists_run, bind_run, assert_run. world_simpl.
  destruct (bool_decide (is_Some (fs w !! dataset_dir a))); [|done]. cbn [negb].
  rewrite bind_run, path_exists_run, assert_run. world_simpl.
  by destruct (bool_decide (is_Some (fs w !! model_dir_path a))).
Qed.

Lemma framework_read_result_Ok p o r :
  framework_read_result p o = Ok r ↔ is_file o = true.
Proof. destruct r. by destruct o as [[]|]. Qed.

Lemma weights_file_model_dir k a n :
  weights_file (mkLearner k (path_parent (model_dir_path a)) (path_name (model_dir_path a))) n
  = model_dir_path a ++ [n +:+ ".pth"].
Proof.
  unfold weights_file. cbn [learn_path learn_model_dir].
  unfold model_dir_path. rewrite path_div_parent_name.
  apply path_div_name, name_ok_suffix. simpl. lia.
Qed.

Lemma fine_tune_lm_Ok a w w' :
  fine_tune_lm (lm_learner a) w = (Ok tt, w') →
  fs w' = <[enc_file a := PthFile]> (fs w)
  ∧ trace w' = trace w ++ fine_tune_events a
  ∧ cuda_available w' = cuda_available w.
Proof.
  unfold fine_tune_lm, unfreeze, fit, save_encoder.
  rewrite bind_run, print_run, bind_run, emit_run, bind_run, emit_run,
    bind_run, emit_run, torch_save_run.
  world_simpl. destruct (is_dir _); [done |]. intros [= <-]. world_simpl.
  split_and!; [| by rewrite <- !app_assoc | done].
  unfold enc_file, lm_learner, clas_learner. by rewrite !weights_file_model_dir.
Qed.

Lemma train_classifier_Ok a d w w' :
  train_classifier PAD_TOKEN_ID a d 400 (nh_of a) 3 (if qrnn a then "qrnn" else "lstm") w
  = (Ok tt, w') →
  is_file (fs w !! enc_file a) = true
  ∧ fs w' = <[model_file a := PthFile]> (fs w)
  ∧ trace w' = trace w ++ classifier_events a d
  ∧ cuda_available w' = cuda_available w.
Proof.
  unfold train_classifier, text_classifier_learner, load_encoder, fit_one_cycle,
    freeze_to, unfreeze, save.
  rewrite bind_run, bind_run, emit_run, ret_run.
  fold (clas_learner a).
  rewrite bind_run, bind_run, emit_run, framework_read_run. world_simpl.
  fold (enc_file a).
  destruct (framework_read_result _ _) as [[]|] eqn:Henc; [|done].
  apply framework_read_result_Ok in Henc.
  rewrite bind_run, emit_run, bind_run, emit_run, bind_run, emit_run,
    bind_run, emit_run, bind_run, emit_run, bind_run, print_run,
    bind_run, emit_run, torch_save_run.
  world_simpl. fold (model_file a).
  destruct (is_dir _); [done |]. intros [= <-]. world_simpl.
  split_and!; [done | done | | done].
  unfold classifier_events. by rewrite <- !app_assoc.
Qed.

Lemma language_model_stage_Ok a ids lbls vocab w r w' :
  language_model_stage TRN VAL TST PAD_TOKEN_ID a ids lbls vocab w = (Ok r, w') →
  ∃ trn_ids val_ids tst_ids trn_lbls val_lbls,
    ids !! TRN = Some trn_ids ∧ ids !! VAL = Some val_ids ∧ ids !! TST = Some tst_ids
    ∧ lbls !! TRN = Some trn_lbls ∧ lbls !! VAL = Some val_lbls
    ∧ r = (clas_data a vocab trn_ids val_ids trn_lbls val_lbls, (400%Z, nh_of a, 3%Z))
    ∧ is_file (fs w !! pretrained_itos_file a) = true
    ∧ is_file (fs w !! pretrained_weights_file a) = true
    ∧ fs w' = (if fine_tune a then <[enc_file a := PthFile]> (fs w) else fs w)
    ∧ trace w' = trace w
                 ++ data_events a vocab trn_ids val_ids tst_ids trn_lbls val_lbls
                 ++ (if fine_tune a then fine_tune_events a else [])
    ∧ cuda_available w' = cuda_available w.
Proof.
  unfold language_model_stage.
  rewrite bind_run, dict_getitem_run. destruct (ids !! TRN) as [trn_ids|]; [|done].
  rewrite bind_run, dict_getitem_run. destruct (ids !! VAL) as [val_ids|]; [|done].
  rewrite bind_run, dict_getitem_run. destruct (ids !! TST) as [tst_ids|]; [|done].
  rewrite bind_run, print_run.
  unfold TextLMDataBunch_from_ids, TextClasDataBunch_from_ids.
  rewrite bind_run, bind_run, emit_run, ret_run.
  rewrite bind_run, dict_getitem_run. destruct (lbls !! TRN) as [trn_lbls|]; [|done].
  rewrite bind_run, dict_getitem_run. destruct (lbls !! VAL) as [val_lbls|]; [|done].
  rewrite bind_run, bind_run, emit_run, ret_run.
  fold (lm_data a vocab trn_ids val_ids).
  fold (clas_data a vocab trn_ids val_ids trn_lbls val_lbls).
  replace (if qrnn a then (400%Z, 1550%Z, 3%Z) else (400%Z, 1150%Z, 3%Z))
    with (400%Z, nh_of a, 3%Z) by (unfold nh_of; by destruct (qrnn a)).
  cbv beta iota.
  unfold language_model_learner.
  rewrite bind_run, bind_run, emit_run. cbv zeta. cbn [fst snd].
  fold (lm_learner a). fold (pretrained_itos_file a). fold (pretrained_weights_file a).
  rewrite bind_run, framework_read_run. world_simpl.
  destruct (framework_read_result _ (fs w !! pretrained_itos_file a)) as [[]|] eqn:Hp1; [|done].
  apply framework_read_result_Ok in Hp1.
  rewrite bind_run, framework_read_run. world_simpl.
  destruct (framework_read_result _ (fs w !! pretrained_weights_file a)) as [[]|] eqn:Hp2;
    [|done].
  apply framework_read_result_Ok in Hp2.
  rewrite ret_run, bind_run.
  destruct (fine_tune a) eqn:Hft.
  - destruct (fine_tune_lm _ _) as [[[]|?] w1] eqn:Hfine; [|done].
    apply fine_tune_lm_Ok in Hfine as (Hf1 & Ht1 & Hc1). world_simpl in Hf1 Ht1 Hc1.
    rewrite ret_run. intros [= <- <-].
    exists trn_ids, val_ids, tst_ids, trn_lbls, val_lbls.
    split_and!; try done.
    rewrite Ht1. unfold data_events. by rewrite <- !app_assoc.
  - rewrite !ret_run. intros [= <- <-]. world_simpl.
    exists trn_ids, val_ids, tst_ids, trn_lbls, val_lbls.
    split_and!; try done.
    unfold data_events. by rewrite <- !app_assoc, app_nil_r.
Qed.

Lemma train_run a ids lbls vocab w :
  do_train a ids lbls vocab w
  = match language_model_stage TRN VAL TST PAD_TOKEN_ID a ids lbls vocab w with
    | (Ok (d, (emb_sz, nh, nl)), w1) =>
        train_classifier PAD_TOKEN_ID a d emb_sz nh nl (if qrnn a then "qrnn" else "lstm") w1
    | (Raise e, w1) => (Raise e, w1)
    end.
Proof.
  unfold train. rewrite bind_run.
  by destruct (language_model_stage _ _ _ _ _ _ _ _ _) as [[[d [[? ?] ?]]|?] w1].
Qed.

Lemma train_Ok a ids lbls vocab w w' :
  do_train a ids lbls vocab w = (Ok tt, w') →
  ∃ trn_ids val_ids tst_ids trn_lbls val_lbls,
    ids !! TRN = Some trn_ids ∧ ids !! VAL = Some val_ids ∧ ids !! TST = Some tst_ids
    ∧ lbls !! TRN = Some trn_lbls ∧ lbls !! VAL = Some val_lbls
    ∧ is_file (fs w !! pretrained_itos_file a) = true
    ∧ is_file (fs w !! pretrained_weights_file a) = true
    ∧ (fine_tune a = false → is_file (fs w !! enc_file a) = true)
    ∧ fs w' = <[model_file a := PthFile]>
                (if fine_tune a then <[enc_file a := PthFile]> (fs w) else fs w)
    ∧ trace w' = trace w
                 ++ data_events a vocab trn_ids val_ids tst_ids trn_lbls val_lbls
                 ++ (if fine_tune a then fine_tune_events a else [])
                 ++ classifier_events a (clas_data a vocab trn_ids val_ids trn_lbls val_lbls)
    ∧ cuda_available w' = cuda_available w.
Proof.
  rewrite train_run.
  destruct (language_model_stage _ _ _ _ _ _ _ _ _) as [[r|?] w1] eqn:Hlm; [|done].
  apply language_model_stage_Ok in Hlm
    as (trn_ids & val_ids & tst_ids & trn_lbls & val_lbls
        & ? & ? & ? & ? & ? & -> & ? & ? & Hf1 & Ht1 & Hc1).
  intros Hclas. apply train_classifier_Ok in Hclas as (Henc & Hf2 & Ht2 & Hc2).
  exists trn_ids, val_ids, tst_ids, trn_lbls, val_lbls.
  split_and!; try done.
  - intros Hft. rewrite Hft in Hf1. by rewrite <- Hf1.
  - by rewrite Hf2, Hf1.
  - by rewrite Ht2, Ht1, <- !app_assoc.
  - congruence.
Qed.

(** ** The whole function *)

Lemma new_train_clas_run a w :
  run a w
  = match check_inputs DATASETS a (after_device a w) with
    | (Raise e, w1) => (Raise e, w1)
    | (Ok _, _) =>
        match mkdir_exist_ok (tmp_dir a) (after_checks a w) with
        | (Raise e, w3) => (Raise e, w3)
        | (Ok _, w3) =>
            match get_data a w3 with
            | (Raise e, w4) => (Raise e, w4)
            | (Ok (ids, lbls, vocab), w4) => do_train a ids lbls vocab w4
            end
        end
    end.
Proof.
  unfold new_train_clas, after_checks, after_device.
  rewrite bind_run, select_device_run. cbn [snd].
  rewrite bind_run. rewrite check_inputs_run.
  destruct (if negb _ then _ else _) as [[]|e]; [|done].
  rewrite bind_run. destruct (qrnn a).
  - rewrite print_run, bind_run.
    destruct (mkdir_exist_ok _ _) as [[[]|?] w3]; [|done].
    rewrite bind_run. by destruct (load_or_tokenize _ _ _ _ _ _ _ _) as [[[[ids lbls] vocab]|?] w4].
  - rewrite ret_run, bind_run.
    destruct (mkdir_exist_ok _ _) as [[[]|?] w3]; [|done].
    rewrite bind_run. by destruct (load_or_tokenize _ _ _ _ _ _ _ _) as [[[[ids lbls] vocab]|?] w4].
Qed.

Lemma mkdir_exist_ok_Ok p w w' :
  mkdir_exist_ok p w = (Ok tt, w') →
  fs w' = <[p := Dir]> (fs w) ∧ trace w' = trace w ++ [Mkdir p]
  ∧ cuda_available w' = cuda_available w.
Proof.
  rewrite mkdir_exist_ok_run.
  destruct (fs w !! p) as [[]|] eqn:Hp; try done.
  - intros [= <-]. world_simpl. split_and!; try done. by rewrite insert_id.
  - destruct (fs w !! path_parent p) as [[]|]; try done. by intros [= <-].
Qed.

Lemma check_inputs_Ok a w r w' :
  check_inputs DATASETS a w = (Ok r, w') ↔
  inputs_valid a (fs w)
  ∧ w' = add_event (Print ("Dataset: " +:+ dataset a +:+ ". Language: "
                             +:+ lang a +:+ ".")) w.
Proof.
  rewrite check_inputs_run. unfold inputs_valid. destruct r.
  repeat case_bool_decide; cbn [negb andb orb]; split;
    try (intros [= <-]; split_and!; by eauto);
    try (intros [(? & Hc & ? & ? & ? & ?) ->]; try done; destruct Hc as [[? ?]|?]; done).
Qed.

Lemma after_device_fs a w : fs (after_device a w) = fs w.
Proof.
  unfold after_device. rewrite select_device_run. cbn [snd].
  by destruct (cuda_available w) eqn:Hc.
Qed.

Lemma after_checks_fs a w : fs (after_checks a w) = fs w.
Proof.
  unfold after_checks. destruct (qrnn a); world_simpl; apply after_device_fs.
Qed.

Lemma after_checks_cuda a w : cuda_available (after_checks a w) = cuda_available w.
Proof.
  unfold after_checks, after_device. rewrite select_device_run. cbn [snd].
  by destruct (qrnn a), (cuda_available w) eqn:Hc; world_simpl.
Qed.

Lemma after_checks_trace a w :
  trace (after_checks a w) ++ [Mkdir (tmp_dir a)] = trace w ++ setup_events a w.
Proof.
  unfold after_checks, after_device, setup_events. rewrite select_device_run. cbn [snd].
  destruct (qrnn a), (cuda_available w) eqn:Hc; world_simpl; by rewrite <- ?app_assoc.
Qed.

(** A run that returns went through the four stages. *)
Lemma new_train_clas_Ok a w w' :
  run a w = (Ok tt, w') →
  inputs_valid a (fs w)
  ∧ ∃ w1 ids lbls vocab w2,
      fs w1 = <[tmp_dir a := Dir]> (fs w)
      ∧ trace w1 = trace w ++ setup_events a w
      ∧ cuda_available w1 = cuda_available w
      ∧ get_data a w1 = (Ok (ids, lbls, vocab), w2)
      ∧ do_train a ids lbls vocab w2 = (Ok tt, w').
Proof.
  rewrite new_train_clas_run.
  destruct (check_inputs _ _ _) as [[[]|?] w0] eqn:Hchk; [|done].
  apply check_inputs_Ok in Hchk as [Hvalid _]. rewrite after_device_fs in Hvalid.
  destruct (mkdir_exist_ok _ _) as [[[]|?] w1] eqn:Hmk; [|done].
  apply mkdir_exist_ok_Ok in Hmk as (Hf1 & Ht1 & Hc1).
  rewrite after_checks_fs in Hf1. rewrite after_checks_trace in Ht1.
  rewrite after_checks_cuda in Hc1.
  destruct (load_or_tokenize _ _ _ _ _ _ _ _) as [[[[ids lbls] vocab]|?] w2] eqn:Hdata; [|done].
  intros Htrain. split; [done |]. by exists w1, ids, lbls, vocab, w2.
Qed.

(** ** The files and the calls of a whole run *)

Ltac effects_step :=
  lazymatch goal with
  | |- effects _ _ (_ ≫= _) => apply effects_bind; [|intros ?]
  | |- effects _ _ (mret _) => apply effects_ret
  | |- effects _ _ (raise _) => apply effects_raise
  | |- effects _ _ (assert _ _) => apply effects_assert
  | |- effects _ _ (dict_getitem _ _) => apply effects_dict_getitem
  | |- effects _ _ (path_exists _) => apply effects_path_exists
  | |- effects _ _ cuda_is_available => apply effects_cuda_is_available
  | |- effects _ _ get_fs => apply effects_get_fs
  | |- effects _ _ (framework_read _) => apply effects_framework_read
  | |- effects _ _ (emit _) => apply effects_emit
  | |- effects _ _ (print _) => apply effects_emit
  | |- effects _ _ (np_save _ _) => apply effects_np_save
  | |- effects _ _ (np_load _) => apply effects_np_load
  | |- effects _ _ (pickle_dump _ _) => apply effects_pickle_dump
  | |- effects _ _ (pickle_load _) => apply effects_pickle_load
  | |- effects _ _ (torch_save _) => apply effects_write_file
  | |- effects _ _ (mkdir_exist_ok _) => apply effects_mkdir_exist_ok
  | |- effects _ _ (for_in _ _ _) => apply effects_for_in; intros ? ? ?
  | |- effects _ _ (if ?b then _ else _) => destruct b eqn:?
  | |- effects _ _ (match ?x with _ => _ end) => destruct x eqn:?
  end.

Ltac effects_side :=
  try done;
  try (intros ?; done);
  try (split; [intros ?; done | done]);
  try (unfold written_paths, cache_paths; cbn [app]; in_list);
  try (repeat match goal with
              | H : _ ∈ _ :: _ |- _ => apply elem_of_cons in H as [->|H]
              | H : _ ∈ [] |- _ => by apply elem_of_nil in H
              end; unfold written_paths, cache_paths; cbn [app]; in_list).

Lemma language_model_learner_returns a d w l w' :
  language_model_learner d (bptt a) 400 (nh_of a) 3 (qrnn a) PAD_TOKEN_ID
    ("lstm_" +:+ pretrain_name a, "itos_" +:+ pretrain_name a)
    (path_parent (model_dir_path a)) (path_name (model_dir_path a)) w = (Ok l, w') →
  l = lm_learner a.
Proof.
  unfold language_model_learner. rewrite bind_run, emit_run. cbv zeta.
  rewrite bind_run, framework_read_run. destruct (framework_read_result _ _); [|done].
  rewrite bind_run, framework_read_run. destruct (framework_read_result _ _); [|done].
  rewrite ret_run. by intros [= <- _].
Qed.

Lemma text_classifier_learner_returns a d w l w' :
  text_classifier_learner d (bptt a) PAD_TOKEN_ID
    (path_parent (model_dir_path a)) (path_name (model_dir_path a))
    (qrnn a) 400 (nh_of a) 3 w = (Ok l, w') →
  l = clas_learner a.
Proof.
  unfold text_classifier_learner. rewrite bind_run, emit_run, ret_run. by intros [= <- _].
Qed.

Ltac effects_auto :=
  repeat first
    [ lazymatch goal with
      | |- effects _ _ (language_model_learner _ _ _ _ _ _ _ _ _ _ ≫= _) =>
          eapply effects_bind_val;
          [ unfold language_model_learner
          | intros ? ? ?; apply language_model_learner_returns
          | intros ? -> ]
      | |- effects _ _ (text_classifier_learner _ _ _ _ _ _ _ _ _ ≫= _) =>
          eapply effects_bind_val;
          [ unfold text_classifier_learner
          | intros ? ? ?; apply text_classifier_learner_returns
          | intros ? -> ]
      end
    | effects_step ];
  effects_side.

Lemma language_model_stage_effects a ids lbls vocab :
  effects (λ p, fine_tune a = true ∧ p = enc_file a)
    (λ e, (is_fine_tuning e = true → fine_tune a = true)
          ∧ is_fit_one_cycle e = false)
    (language_model_stage TRN VAL TST PAD_TOKEN_ID a ids lbls vocab).
Proof.
  unfold language_model_stage.
  replace (if qrnn a then (400%Z, 1550%Z, 3%Z) else (400%Z, 1150%Z, 3%Z))
    with (400%Z, nh_of a, 3%Z) by (unfold nh_of; by destruct (qrnn a)).
  cbv beta iota.
  unfold TextLMDataBunch_from_ids, TextClasDataBunch_from_ids, fine_tune_lm,
    unfreeze, fit, save_encoder.
  effects_auto.
Qed.

Lemma train_classifier_effects a d :
  effects (λ p, p = model_file a) (λ e, is_fine_tuning e = false)
    (train_classifier PAD_TOKEN_ID a d 400 (nh_of a) 3 (if qrnn a then "qrnn" else "lstm")).
Proof.
  unfold train_classifier, load_encoder, fit_one_cycle, freeze_to, unfreeze, save.
  effects_auto.
Qed.

Lemma train_effects a ids lbls vocab :
  effects (λ p, p ∈ written_paths a) (allowed a) (do_train a ids lbls vocab).
Proof.
  unfold train. eapply effects_bind_val.
  - eapply effects_mono; [| |apply language_model_stage_effects].
    + intros p [_ ->]. unfold written_paths, cache_paths. cbn [app]. in_list.
    + by intros e [? _].
  - intros w r w' Hrun. apply language_model_stage_Ok in Hrun
      as (trn_ids & val_ids & tst_ids & trn_lbls & val_lbls & _ & _ & _ & _ & _ & Hr & _).
    exact (ex_intro (λ d, r = (d, (400%Z, nh_of a, 3%Z))) _ Hr).
  - intros r [d ->]. eapply effects_mono; [| |apply train_classifier_effects].
    + intros p ->. unfold written_paths, cache_paths. cbn [app]. in_list.
    + intros e He Hft. congruence.
Qed.

Lemma load_or_tokenize_effects a :
  effects (λ p, p ∈ cache_paths a) (λ e, is_training_call e = false) (get_data a).
Proof.
  unfold load_or_tokenize, tokenize_and_cache, load_cache, encode_split, load_split.
  repeat effects_step; effects_side.
Qed.

(** Lines 39-64: nothing but messages, the device and [mkdir]. *)
Lemma setup_effects a :
  effects (λ p, p = tmp_dir a) (λ e, is_training_call e = false)
    (select_device a;; check_inputs DATASETS a;;
     (if qrnn a then print "Using QRNNs..." else mret tt);;
     mkdir_exist_ok (tmp_dir a)).
Proof. unfold select_device, check_inputs. repeat effects_step; effects_side. Qed.

Lemma new_train_clas_effects a :
  effects (λ p, p ∈ written_paths a) (allowed a) (run a).
Proof.
  unfold new_train_clas.
  apply effects_bind.
  { unfold select_device. repeat effects_step; effects_side. }
  intros _. apply effects_bind.
  { unfold check_inputs. repeat effects_step; effects_side. }
  intros _. apply effects_bind; [repeat effects_step; effects_side |].
  intros _. cbv zeta. apply effects_bind; [repeat effects_step; effects_side |].
  intros _. apply effects_bind.
  { eapply effects_mono; [| |apply load_or_tokenize_effects].
    - intros p Hp. unfold written_paths. right. apply elem_of_app. by left.
    - intros e He Hft. destruct e; done. }
  intros [[ids lbls] vocab]. apply train_effects.
Qed.

(** ** The vocabulary and the ids of a fresh run *)

(** C1.  In a run that tokenizes, every entry of the token list of the
    vocabulary is one of the two reserved tokens or a token of an example
    of the training split, and in each of the three splits a token that
    the string-to-id mapping does not hold is encoded as [stoi[UNK]], the id
    the mapping gives to the unknown token (an id at which the token list
    holds the unknown token). *)
Theorem vocabulary_from_training_split a w ids lbls vocab w' :
  tokenize_and_cache UNK PAD TRN VAL TST read_clas_data a w = (Ok (ids, lbls, vocab), w') →
  ∃ toks trn,
    read_clas_data (fs w) (dataset_dir a) (dataset a) (lang a) = Ok (toks, lbls)
    ∧ toks !! TRN = Some trn
    ∧ (∀ t, t ∈ itos vocab → t = UNK ∨ t = PAD ∨ ∃ ex, ex ∈ trn ∧ t ∈ ex)
    ∧ stoi vocab !! UNK = Some (stoi_getitem (stoi vocab) UNK)
    ∧ itos vocab !! stoi_getitem (stoi vocab) UNK = Some UNK
    ∧ ∀ split, split ∈ [TRN; VAL; TST] →
        ∃ exs rows,
          toks !! split = Some exs ∧ ids !! split = Some (ArrIds rows)
          ∧ length rows = length exs
          ∧ ∀ i j ex t,
              exs !! i = Some ex → ex !! j = Some t → stoi vocab !! t = None →
              ∃ row, rows !! i = Some row
                     ∧ row !! j = Some (stoi_getitem (stoi vocab) UNK).
Proof.
  intros Hrun.
  apply tokenize_and_cache_Ok in Hrun
    as (toks & trn & Hread & Htrn & -> & Hsplits & _).
  exists toks, trn. split_and!; [done | done | | | |].
  - intros t Ht. rewrite create_vocabulary_itos in Ht.
    apply elem_of_cons in Ht as [->|Ht]; [by left |].
    apply elem_of_cons in Ht as [->|Ht]; [by right; left |].
    right; right. apply selected_tokens in Ht. by apply elem_of_concat in Ht.
  - apply unk_id_decodes.
  - apply unk_id_decodes.
  - intros split Hin. destruct (Hsplits split Hin) as (exs & l & Hexs & _ & Hids & _).
    eexists exs, _. split_and!; [done | done | |].
    + unfold numericalize. by rewrite length_map.
    + intros i j ex t Hi Hj Hnone.
      destruct (numericalize_lookup UNK (stoi (create_vocabulary UNK PAD trn (max_vocab a)))
                  exs i j ex t Hi Hj) as (row & Hrow & Hcell).
      exists row. split; [done |]. rewrite Hcell. unfold stoi_get. by rewrite Hnone.
Qed.

(** C2, as amended.  In a run that tokenizes, the token list is the
    unknown token, the padding token and then distinct tokens of the
    training split: as many as there are, but no more than [max_vocab] (none
    if [max_vocab] is not positive), none of them less frequent than a
    training token that is left out, in descending order of frequency.  The
    mapping holds exactly the tokens of the list and sends each to its last
    position in the list: the selected token at place [k] to [k + 2], also
    when it is one of the reserved strings, and a reserved token that is
    not among the selected ones to 0 (the unknown token, if it is not the
    padding token) and to 1 (the padding token).  The vocabulary is in the
    pickle file when the run returns. *)
Theorem vocabulary_most_frequent_persisted a w ids lbls vocab w' :
  tokenize_and_cache UNK PAD TRN VAL TST read_clas_data a w = (Ok (ids, lbls, vocab), w') →
  ∃ toks trn sel,
    read_clas_data (fs w) (dataset_dir a) (dataset a) (lang a) = Ok (toks, lbls)
    ∧ toks !! TRN = Some trn
    ∧ itos vocab = UNK :: PAD :: sel
    ∧ NoDup sel
    ∧ length sel = Z.to_nat (max_vocab a) `min` length (remove_dups (concat trn))
    ∧ (Z.of_nat (length sel) ≤ Z.max 0 (max_vocab a))%Z
    ∧ (∀ t, t ∈ sel → t ∈ concat trn)
    ∧ (∀ t u, t ∈ sel → u ∈ concat trn → u ∉ sel →
              occurrences u (concat trn) ≤ occurrences t (concat trn))
    ∧ StronglySorted (λ t u, occurrences u (concat trn) ≤ occurrences t (concat trn)) sel
    ∧ (∀ t i, stoi vocab !! t = Some i → itos vocab !! i = Some t)
    ∧ (∀ t, t ∈ itos vocab → is_Some (stoi vocab !! t))
    ∧ (∀ t i j, stoi vocab !! t = Some i → itos vocab !! j = Some t → j ≤ i)
    ∧ (∀ k t, sel !! k = Some t → stoi vocab !! t = Some (2 + k))
    ∧ (UNK ≠ PAD → UNK ∉ sel → stoi vocab !! UNK = Some 0)
    ∧ (PAD ∉ sel → stoi vocab !! PAD = Some 1)
    ∧ fs w' !! vocab_file a = Some (PklFile vocab).
Proof.
  intros Hrun.
  apply tokenize_and_cache_Ok in Hrun
    as (toks & trn & Hread & Htrn & -> & _ & Hpkl & _).
  destruct (selected_tokens (max_vocab a) (concat trn)) as (Hnd & Hlen & Hsub & Hmost & Hsort).
  exists toks, trn, (most_common (max_vocab a) (Counter (concat trn))).*1.
  split_and!; try done.
  - lia.
  - intros t i. rewrite create_vocabulary_stoi. apply last_index_lookup.
  - intros t Ht. rewrite create_vocabulary_stoi.
    destruct (last_index t _) as [i|] eqn:Hi; [by eexists |].
    by apply last_index_None in Hi.
  - intros t i j. rewrite create_vocabulary_stoi. intros Hi Hj.
    destruct (decide (j ≤ i)) as [|Hgt]; [done |]. exfalso.
    apply (last_index_last _ _ _ j) in Hi; [done | lia].
  - intros k t Hk. rewrite create_vocabulary_stoi, create_vocabulary_itos.
    apply (last_index_NoDup _ _ _ Hnd) in Hk.
    change (2 + k) with (S (S k)). by do 2 apply last_index_cons_Some.
  - intros Hne Hunk. rewrite create_vocabulary_stoi, create_vocabulary_itos.
    apply last_index_head. rewrite not_elem_of_cons. done.
  - intros Hpad. rewrite create_vocabulary_stoi, create_vocabulary_itos.
    by apply last_index_second.
Qed.

(** C5.  Two runs that tokenize, in any two worlds and with any other
    parameters, make the same vocabulary (token list and mapping) when
    the reader gave them the same training split and [max_vocab] is the
    same. *)
Theorem vocabulary_deterministic a1 a2 w1 w2 ids1 lbls1 v1 w1' ids2 lbls2 v2 w2' toks1 toks2 :
  tokenize_and_cache UNK PAD TRN VAL TST read_clas_data a1 w1 = (Ok (ids1, lbls1, v1), w1') →
  tokenize_and_cache UNK PAD TRN VAL TST read_clas_data a2 w2 = (Ok (ids2, lbls2, v2), w2') →
  read_clas_data (fs w1) (dataset_dir a1) (dataset a1) (lang a1) = Ok (toks1, lbls1) →
  read_clas_data (fs w2) (dataset_dir a2) (dataset a2) (lang a2) = Ok (toks2, lbls2) →
  toks1 !! TRN = toks2 !! TRN →
  max_vocab a1 = max_vocab a2 →
  v1 = v2 ∧ itos v1 = itos v2 ∧ stoi v1 = stoi v2.
Proof.
  intros Hrun1 Hrun2 Hread1 Hread2 Htoks Hmax.
  apply tokenize_and_cache_Ok in Hrun1 as (t1 & trn1 & Hr1 & Ht1 & -> & _).
  apply tokenize_and_cache_Ok in Hrun2 as (t2 & trn2 & Hr2 & Ht2 & -> & _).
  assert (t1 = toks1) as -> by congruence.
  assert (t2 = toks2) as -> by congruence.
  assert (trn1 = trn2) as -> by congruence.
  by rewrite Hmax.
Qed.

(** ** Reusing the cache *)

Ltac dict_lookup :=
  repeat first
    [ apply lookup_insert_eq
    | apply lookup_insert_consistent; [intros ?; subst; congruence |] ].

Ltac split_cases H :=
  repeat (apply elem_of_cons in H as [->|H]); [| | | by apply elem_of_nil in H].

(** What a load returns is what the seven files hold. *)
Lemma load_cache_lookups a w ids lbls vocab w' :
  load_cache TRN VAL TST a w = (Ok (ids, lbls, vocab), w') →
  fs w' = fs w
  ∧ (∀ split, split ∈ [TRN; VAL; TST] →
       ∃ i l, fs w !! ids_file a split = Some (NpyFile i)
              ∧ fs w !! lbl_file a split = Some (NpyFile l)
              ∧ ids !! split = Some i ∧ lbls !! split = Some l)
  ∧ fs w !! vocab_file a = Some (PklFile vocab)
  ∧ trace w' = trace w ++ [Print "Loading the pickled data..."]
               ++ split_loads a TRN ++ split_loads a VAL ++ split_loads a TST
               ++ [PickleLoad (vocab_file a)].
Proof.
  intros Hrun. apply load_cache_Ok in Hrun
    as (i1 & l1 & i2 & l2 & i3 & l3 & Hi1 & Hl1 & Hi2 & Hl2 & Hi3 & Hl3 & Hv
        & -> & -> & Hfs & _ & Htr).
  split_and!; [done | | done | done].
  intros split Hin. split_cases Hin.
  - exists i1, l1. split_and!; [done | done | dict_lookup..].
  - exists i2, l2. split_and!; [done | done | dict_lookup..].
  - exists i3, l3. split_and!; [done | done | dict_lookup..].
Qed.


Lemma load_cache_effects a :
  effects (λ _, False) (λ e, is_cache_read e = true) (load_cache TRN VAL TST a).
Proof. unfold load_cache, load_split. repeat effects_step; done. Qed.

(** C8.  Which branch the data stage takes depends on the training ids
    file alone.  When that file is there, the stage returns if and only if
    each of the six array files holds an array and the vocabulary file a
    pickled vocabulary; if one of the other six files is missing, the stage
    raises, having read no data and written nothing. *)
Theorem cache_existence_test_is_partial a w :
  get_data a w
  = (if bool_decide (is_Some (fs w !! ids_file a TRN))
     then load_cache TRN VAL TST a w
     else tokenize_and_cache UNK PAD TRN VAL TST read_clas_data a w)
  ∧ (is_Some (fs w !! ids_file a TRN) →
     ((∃ ids lbls vocab w', get_data a w = (Ok (ids, lbls, vocab), w'))
      ↔ (∀ split, split ∈ [TRN; VAL; TST] →
           (∃ i, fs w !! ids_file a split = Some (NpyFile i))
           ∧ (∃ l, fs w !! lbl_file a split = Some (NpyFile l)))
        ∧ ∃ v, fs w !! vocab_file a = Some (PklFile v))
     ∧ ∀ p, p ∈ [lbl_file a TRN; ids_file a VAL; lbl_file a VAL;
                 ids_file a TST; lbl_file a TST; vocab_file a] →
            fs w !! p = None →
            ∃ e w' evs,
              get_data a w = (Raise e, w')
              ∧ fs w' = fs w
              ∧ trace w' = trace w ++ evs
              ∧ Forall (λ ev, is_cache_read ev = true) evs).
Proof.
  split; [apply load_or_tokenize_run |].
  intros Hcached. rewrite load_or_tokenize_run, bool_decide_eq_true_2 by done.
  assert (Hiff : (∃ ids lbls vocab w', load_cache TRN VAL TST a w = (Ok (ids, lbls, vocab), w'))
                 ↔ (∀ split, split ∈ [TRN; VAL; TST] →
                      (∃ i, fs w !! ids_file a split = Some (NpyFile i))
                      ∧ (∃ l, fs w !! lbl_file a split = Some (NpyFile l)))
                   ∧ ∃ v, fs w !! vocab_file a = Some (PklFile v)).
  { split.
    - intros (ids & lbls & vocab & w' & Hrun).
      apply load_cache_lookups in Hrun as (_ & Hsplits & Hv & _).
      split; [|by exists vocab].
      intros split Hin. destruct (Hsplits split Hin) as (i & l & ? & ? & _). by eauto.
    - intros [Hsplits [v Hv]].
      destruct (Hsplits TRN) as [[i1 Hi1] [l1 Hl1]]; [in_list |].
      destruct (Hsplits VAL) as [[i2 Hi2] [l2 Hl2]]; [in_list |].
      destruct (Hsplits TST) as [[i3 Hi3] [l3 Hl3]]; [in_list |].
      eexists _, _, v, (mkWorld (fs w) (cuda_available w) _).
      apply load_cache_Ok. eexists _, _, _, _, _, _. split_and!; by eauto. }
  split; [exact Hiff |].
  intros p Hp Hnone.
  destruct (load_cache_effects a w) as (Hfs & _ & evs & Htr & Hevs).
  destruct (load_cache TRN VAL TST a w) as [[[[ids lbls] vocab]|e] w'] eqn:Hrun.
  - exfalso. apply load_cache_lookups in Hrun as (_ & Hsplits & Hv & _).
    destruct (Hsplits TRN) as (? & ? & ? & ? & _); [in_list |].
    destruct (Hsplits VAL) as (? & ? & ? & ? & _); [in_list |].
    destruct (Hsplits TST) as (? & ? & ? & ? & _); [in_list |].
    repeat (apply elem_of_cons in Hp as [->|Hp]; [congruence |]).
    by apply elem_of_nil in Hp.
  - exists e, w', evs. cbn [snd] in *. split_and!; try done.
    apply map_eq. intros q. apply Hfs. tauto.
Qed.

(** ** Where the files go *)

Lemma enc_file_eq a : enc_file a = model_dir_path a ++ ["enc" +:+ ".pth"].
Proof. apply weights_file_model_dir. Qed.

Lemma model_file_eq a :
  model_file a
  = model_dir_path a ++ [((if qrnn a then "qrnn" else "lstm") +:+ "_" +:+ name a) +:+ ".pth"].
Proof. apply weights_file_model_dir. Qed.

(** The data stage leaves the seven files in [tmp], in both branches. *)
Lemma load_or_tokenize_cache a w ids lbls vocab w' :
  get_data a w = (Ok (ids, lbls, vocab), w') →
  (∀ split, split ∈ [TRN; VAL; TST] →
     (∃ i, fs w' !! ids_file a split = Some (NpyFile i) ∧ ids !! split = Some i)
     ∧ (∃ l, fs w' !! lbl_file a split = Some (NpyFile l) ∧ lbls !! split = Some l))
  ∧ fs w' !! vocab_file a = Some (PklFile vocab)
  ∧ fs w' !! tmp_dir a = fs w !! tmp_dir a
  ∧ ∀ d n, fs w' !! (d ++ [n +:+ ".pth"]) = fs w !! (d ++ [n +:+ ".pth"]).
Proof.
  rewrite load_or_tokenize_run. destruct (bool_decide _).
  - intros Hrun. apply load_cache_lookups in Hrun as (Hfs & Hsplits & Hv & _).
    rewrite Hfs. split_and!; try done.
    intros split Hin. destruct (Hsplits split Hin) as (i & l & ? & ? & ? & ?).
    split; [by exists i | by exists l].
  - intros Hrun. apply tokenize_and_cache_Ok in Hrun
      as (toks & trn & _ & _ & _ & Hsplits & Hpkl & Hframe & _).
    split_and!; [| done | |].
    + intros split Hin. destruct (Hsplits split Hin) as (exs & l & _ & ? & ? & ? & ?).
      split; [by eexists | by exists l].
    + apply Hframe; [apply not_eq_sym, vocab_file_ne_tmp_dir |].
      intros split _. split; apply not_eq_sym;
        [apply ids_file_ne_tmp_dir | apply lbl_file_ne_tmp_dir].
    + intros d n. apply Hframe; [apply pth_ne_vocab_file |].
      intros split _. split; [apply pth_ne_ids_file | apply pth_ne_lbl_file].
Qed.

(** C7, as amended.  Let [lang], [name] and the names of the three
    splits hold no separator.  [tmp] is a subdirectory of the dataset
    directory.  Whatever a run does, the only paths at which it changes the
    file system are [tmp] itself, the vocabulary pickle and the six array
    files directly in [tmp], and the encoder and model weights directly in
    the model directory; the name of each of these files is one part for
    [pathlib] too.  A run that returns had a data directory called [data]
    and a dataset directory in it, and leaves [tmp], the seven cache files
    and the model weights at these places. *)
Theorem files_written_under_tmp_and_model_dir a w :
  has_separator (lang a) = false → has_separator (name a) = false →
  has_separator TRN = false → has_separator VAL = false → has_separator TST = false →
  tmp_dir a = dataset_dir a ++ ["tmp"]
  ∧ (∀ p, fs (run a w).2 !! p ≠ fs w !! p →
       p = tmp_dir a
       ∨ (p ∈ [vocab_file a; ids_file a TRN; lbl_file a TRN; ids_file a VAL;
               lbl_file a VAL; ids_file a TST; lbl_file a TST]
          ∧ ∃ n, p = tmp_dir a ++ [n] ∧ parts n = [n])
       ∨ (p ∈ [enc_file a; model_file a]
          ∧ ∃ n, p = model_dir_path a ++ [n] ∧ parts n = [n]))
  ∧ (∀ w', run a w = (Ok tt, w') →
       path_name (data_dir_path a) = "data"
       ∧ is_Some (fs w !! dataset_dir a)
       ∧ fs w' !! tmp_dir a = Some Dir
       ∧ (∀ split, split ∈ [TRN; VAL; TST] →
            (∃ i, fs w' !! ids_file a split = Some (NpyFile i))
            ∧ (∃ l, fs w' !! lbl_file a split = Some (NpyFile l)))
       ∧ (∃ v, fs w' !! vocab_file a = Some (PklFile v))
       ∧ fs w' !! model_file a = Some PthFile).
Proof.
  intros Hlang Hname HTRN HVAL HTST.
  assert (Hplain : ∀ s t, has_separator s = false → has_separator t = false →
                          2 ≤ String.length t → ∀ d, ∃ n, d ++ [s +:+ t] = d ++ [n]
                                                          ∧ parts n = [n]).
  { intros s t Hs Ht Hlen d. exists (s +:+ t). split; [done |]. by apply parts_suffix. }
  assert (Hids : ∀ split, has_separator split = false →
                          has_separator (split +:+ "_" +:+ lang a) = false).
  { intros split Hsplit. by rewrite !has_separator_app, Hsplit, Hlang. }
  split_and!.
  - apply tmp_dir_eq.
  - intros p Hp. destruct (new_train_clas_effects a w) as (Hfs & _).
    destruct (decide (p ∈ written_paths a)) as [Hin|Hnin]; [|by specialize (Hfs p Hnin)].
    unfold written_paths, cache_paths in Hin. cbn [app] in Hin.
    apply elem_of_cons in Hin as [->|Hin]; [by left |].
    apply elem_of_cons in Hin as [->|Hin].
    { right; left; split; [in_list |]. rewrite vocab_file_eq. apply Hplain; [|done|simpl; lia].
      by rewrite has_separator_app, Hlang. }
    apply elem_of_cons in Hin as [->|Hin].
    { right; left; split; [in_list |]. rewrite ids_file_eq.
      apply Hplain; [by apply Hids | done | simpl; lia]. }
    apply elem_of_cons in Hin as [->|Hin].
    { right; left; split; [in_list |]. rewrite lbl_file_eq.
      apply Hplain; [by apply Hids | done | simpl; lia]. }
    apply elem_of_cons in Hin as [->|Hin].
    { right; left; split; [in_list |]. rewrite ids_file_eq.
      apply Hplain; [by apply Hids | done | simpl; lia]. }
    apply elem_of_cons in Hin as [->|Hin].
    { right; left; split; [in_list |]. rewrite lbl_file_eq.
      apply Hplain; [by apply Hids | done | simpl; lia]. }
    apply elem_of_cons in Hin as [->|Hin].
    { right; left; split; [in_list |]. rewrite ids_file_eq.
      apply Hplain; [by apply Hids | done | simpl; lia]. }
    apply elem_of_cons in Hin as [->|Hin].
    { right; left; split; [in_list |]. rewrite lbl_file_eq.
      apply Hplain; [by apply Hids | done | simpl; lia]. }
    apply elem_of_cons in Hin as [->|Hin].
    { right; right; split; [in_list |]. rewrite enc_file_eq. apply Hplain; [done | done |].
      simpl; lia. }
    apply elem_of_cons in Hin as [->|Hin].
    { right; right; split; [in_list |]. rewrite model_file_eq.
      apply Hplain; [| done | simpl; lia].
      rewrite !has_separator_app, Hname. by destruct (qrnn a). }
    by apply elem_of_nil in Hin.
  - intros w' Hrun.
    apply new_train_clas_Ok in Hrun
      as ((_ & _ & Hname' & _ & Hds & _) & w1 & ids & lbls & vocab & w2
          & Hf1 & _ & _ & Hdata & Htrain).
    apply load_or_tokenize_cache in Hdata as (Hsplits & Hv & Htmp & Hpth).
    apply train_Ok in Htrain
      as (? & ? & ? & ? & ? & _ & _ & _ & _ & _ & _ & _ & _ & Hf3 & _).
    assert (Hkeep : ∀ q, q ≠ enc_file a → q ≠ model_file a → fs w' !! q = fs w2 !! q).
    { intros q Hq1 Hq2. rewrite Hf3. rewrite lookup_insert_ne by done.
      destruct (fine_tune a); [by rewrite lookup_insert_ne | done]. }
    split_and!; [done | done | | | |].
    + rewrite Hkeep, Htmp, Hf1; [apply lookup_insert_eq | |].
      * rewrite enc_file_eq. apply not_eq_sym, pth_ne_tmp_dir.
      * rewrite model_file_eq. apply not_eq_sym, pth_ne_tmp_dir.
    + intros split Hin. destruct (Hsplits split Hin) as [(i & Hi & _) (l & Hl & _)].
      split; [exists i | exists l]; rewrite Hkeep; try done.
      * rewrite enc_file_eq. apply not_eq_sym, pth_ne_ids_file.
      * rewrite model_file_eq. apply not_eq_sym, pth_ne_ids_file.
      * rewrite enc_file_eq. apply not_eq_sym, pth_ne_lbl_file.
      * rewrite model_file_eq. apply not_eq_sym, pth_ne_lbl_file.
    + exists vocab. rewrite Hkeep; [done | |].
      * rewrite enc_file_eq. apply not_eq_sym, pth_ne_vocab_file.
      * rewrite model_file_eq. apply not_eq_sym, pth_ne_vocab_file.
    + rewrite Hf3. apply lookup_insert_eq.
Qed.

(** ** Running without fine-tuning *)

Lemma raises_without_bind q (F : Path → Prop) (E : Event → Prop) {A B}
    (m : Script A) (f : A → Script B) :
  effects F E m → ¬ F q → (∀ x, raises_without q E (f x)) →
  raises_without q E (m ≫= f).
Proof.
  intros Hm Hq Hf w Hw. rewrite bind_run.
  destruct (Hm w) as (Hfs & _ & evs & Htr & Hevs).
  destruct (m w) as [[x|e] w1]; cbn [snd] in *.
  - destruct (Hf x w1) as (e & w' & evs' & Hrun & Htr' & Hevs').
    { by rewrite Hfs. }
    exists e, w', (evs ++ evs'). split_and!; [done | |].
    + by rewrite Htr', Htr, app_assoc.
    + by apply Forall_app.
  - by exists e, w1, evs.
Qed.

Lemma train_classifier_raises_without a d emb_sz nh nl model_name :
  raises_without (enc_file a) (λ e, is_fit_one_cycle e = false)
    (train_classifier PAD_TOKEN_ID a d emb_sz nh nl model_name).
Proof.
  intros w Hw. unfold train_classifier, text_classifier_learner, load_encoder.
  rewrite bind_run, bind_run, emit_run, ret_run.
  fold (clas_learner a).
  rewrite bind_run, bind_run, emit_run, framework_read_run. world_simpl.
  fold (enc_file a).
  destruct (framework_read_result _ _) as [[]|e] eqn:Henc.
  { apply framework_read_result_Ok in Henc. congruence. }
  eexists e, _, ([_] ++ [_]). split_and!; [done | world_simpl; by rewrite app_assoc |].
  by repeat constructor.
Qed.

Lemma new_train_clas_raises_without a :
  fine_tune a = false →
  raises_without (enc_file a) (λ e, is_fit_one_cycle e = false) (run a).
Proof.
  intros Hft. unfold new_train_clas. cbv zeta.
  assert (Henc_tmp : enc_file a ≠ tmp_dir a) by (rewrite enc_file_eq; apply pth_ne_tmp_dir).
  eapply (raises_without_bind _ (λ _, False)); [| tauto |].
  { unfold select_device. repeat effects_step; effects_side. }
  intros _. eapply (raises_without_bind _ (λ _, False)); [| tauto |].
  { unfold check_inputs. repeat effects_step; effects_side. }
  intros _. eapply (raises_without_bind _ (λ _, False)); [| tauto |].
  { repeat effects_step; effects_side. }
  intros _. eapply (raises_without_bind _ (λ p, p = tmp_dir a)); [| done |].
  { repeat effects_step; effects_side. }
  intros _. eapply (raises_without_bind _ (λ p, p ∈ cache_paths a)).
  { eapply effects_mono; [| |apply load_or_tokenize_effects]; [done |].
    intros e He. by destruct e. }
  { unfold cache_paths. rewrite enc_file_eq. intros Hin.
    repeat (apply elem_of_cons in Hin as [Hin|Hin];
            [first [ by apply pth_ne_vocab_file in Hin
                   | by apply pth_ne_ids_file in Hin
                   | by apply pth_ne_lbl_file in Hin ] |]).
    by apply elem_of_nil in Hin. }
  intros [[ids lbls] vocab]. unfold train.
  eapply (raises_without_bind _ (λ p, fine_tune a = true ∧ p = enc_file a)).
  { eapply effects_mono; [| |apply language_model_stage_effects]; [done |].
    by intros e [_ ?]. }
  { intros [? _]. congruence. }
  intros [d [[emb_sz nh] nl]]. apply train_classifier_raises_without.
Qed.

(** ** The order of the calls of a run that returns *)

Lemma load_or_tokenize_trace a w ids lbls vocab w' :
  get_data a w = (Ok (ids, lbls, vocab), w') →
  trace w' = trace w
             ++ stage_events a ids lbls vocab (bool_decide (is_Some (fs w !! ids_file a TRN))).
Proof.
  rewrite load_or_tokenize_run. unfold stage_events.
  destruct (bool_decide _).
  - intros Hrun. apply load_cache_Ok in Hrun.
    destruct Hrun as (? & ? & ? & ? & ? & ? & _ & _ & _ & _ & _ & _ & _ & _ & _ & _ & _ & Htr).
    by rewrite Htr.
  - intros Hrun. apply tokenize_and_cache_Ok in Hrun.
    by destruct Hrun as (? & ? & _ & _ & _ & _ & _ & _ & Htr & _).
Qed.

(** A run that returns: its calls, the encoder file before and after,
    and the cache it leaves. *)
Lemma new_train_clas_trace a w w' :
  run a w = (Ok tt, w') →
  ∃ ids lbls vocab trn_ids val_ids tst_ids trn_lbls val_lbls,
    ids !! TRN = Some trn_ids ∧ ids !! VAL = Some val_ids ∧ ids !! TST = Some tst_ids
    ∧ lbls !! TRN = Some trn_lbls ∧ lbls !! VAL = Some val_lbls
    ∧ trace w'
      = trace w
        ++ setup_events a w
        ++ stage_events a ids lbls vocab (bool_decide (is_Some (fs w !! ids_file a TRN)))
        ++ data_events a vocab trn_ids val_ids tst_ids trn_lbls val_lbls
        ++ (if fine_tune a then fine_tune_events a else [])
        ++ classifier_events a (clas_data a vocab trn_ids val_ids trn_lbls val_lbls)
    ∧ (fine_tune a = false → is_file (fs w !! enc_file a) = true)
    ∧ (fine_tune a = true → fs w' !! enc_file a = Some PthFile)
    ∧ (∀ split, split ∈ [TRN; VAL; TST] →
         (∃ i, fs w' !! ids_file a split = Some (NpyFile i) ∧ ids !! split = Some i)
         ∧ (∃ l, fs w' !! lbl_file a split = Some (NpyFile l) ∧ lbls !! split = Some l)).
Proof.
  intros Hrun.
  apply new_train_clas_Ok in Hrun
    as (_ & w1 & ids & lbls & vocab & w2 & Hf1 & Ht1 & _ & Hdata & Htrain).
  apply load_or_tokenize_trace in Hdata as Ht2.
  apply load_or_tokenize_cache in Hdata as (Hsplits & _ & _ & Hpth).
  apply train_Ok in Htrain
    as (trn_ids & val_ids & tst_ids & trn_lbls & val_lbls
        & ? & ? & ? & ? & ? & _ & _ & Henc & Hf3 & Ht3 & _).
  exists ids, lbls, vocab, trn_ids, val_ids, tst_ids, trn_lbls, val_lbls.
  split_and!; try done.
  - rewrite Ht3, Ht2, Ht1, Hf1.
    rewrite lookup_insert_ne by (apply not_eq_sym, ids_file_ne_tmp_dir).
    by rewrite <- !app_assoc.
  - intros Hft. specialize (Henc Hft). rewrite enc_file_eq in Henc |- *.
    rewrite Hpth, Hf1 in Henc.
    by rewrite lookup_insert_ne in Henc by apply not_eq_sym, pth_ne_tmp_dir.
  - intros Hft. rewrite Hf3, Hft. apply lookup_insert_consistent; [done |].
    apply lookup_insert_eq.
  - assert (Hkeep : ∀ q, q ≠ enc_file a → q ≠ model_file a → fs w' !! q = fs w2 !! q).
    { intros q Hq1 Hq2. rewrite Hf3. rewrite lookup_insert_ne by done.
      destruct (fine_tune a); [by rewrite lookup_insert_ne | done]. }
    intros split Hin. destruct (Hsplits split Hin) as [(i & Hi & ?) (l & Hl & ?)].
    split; [exists i | exists l]; (split; [|done]); rewrite Hkeep; try done.
    + rewrite enc_file_eq. apply not_eq_sym, pth_ne_ids_file.
    + rewrite model_file_eq. apply not_eq_sym, pth_ne_ids_file.
    + rewrite enc_file_eq. apply not_eq_sym, pth_ne_lbl_file.
    + rewrite model_file_eq. apply not_eq_sym, pth_ne_lbl_file.
Qed.

(** C6.  The calls of a run that returns are, in this order: the set-up
    (device, messages, [mkdir]); the data stage, which loads the cached
    arrays and the pickled vocabulary or reads the data, pickles the new
    vocabulary and saves the arrays; the two data bunches and the
    language-model learner; if [fine_tune], unfreezing, fitting and saving
    the encoder of the language model; the classifier learner,
    [load_encoder], one cycle, [freeze_to(-2)], one cycle, [unfreeze], ten
    cycles; and last the saving of the weights. *)
Theorem training_steps_in_fixed_order a w w' :
  run a w = (Ok tt, w') →
  ∃ ids lbls vocab trn_ids val_ids tst_ids trn_lbls val_lbls,
    ids !! TRN = Some trn_ids ∧ ids !! VAL = Some val_ids ∧ ids !! TST = Some tst_ids
    ∧ lbls !! TRN = Some trn_lbls ∧ lbls !! VAL = Some val_lbls
    ∧ trace w'
      = trace w
        ++ setup_events a w
        ++ stage_events a ids lbls vocab (bool_decide (is_Some (fs w !! ids_file a TRN)))
        ++ [Print ("Train size: " +:+ pretty (len trn_ids) +:+ ". Valid size: "
                     +:+ pretty (len val_ids) +:+ ". " +:+ "Test size: "
                     +:+ pretty (len tst_ids) +:+ ".");
            LMDataBunch_from_ids (lm_data a vocab trn_ids val_ids);
            ClasDataBunch_from_ids (clas_data a vocab trn_ids val_ids trn_lbls val_lbls);
            LanguageModelLearner (lm_data a vocab trn_ids val_ids) (bptt a) 400 (nh_of a) 3
              (qrnn a) PAD_TOKEN_ID ("lstm_" +:+ pretrain_name a, "itos_" +:+ pretrain_name a)
              (path_parent (model_dir_path a)) (path_name (model_dir_path a))]
        ++ (if fine_tune a
            then [Print "Fine-tuning the language model...";
                  Unfreeze (lm_learner a);
                  Fit (lm_learner a) 2 (mkDec 1 (-4), mkDec 1 (-2));
                  SaveEncoder (lm_learner a) "enc"]
            else [])
        ++ [TextClassifierLearner (clas_data a vocab trn_ids val_ids trn_lbls val_lbls)
              (bptt a) PAD_TOKEN_ID
              (path_parent (model_dir_path a)) (path_name (model_dir_path a))
              (qrnn a) 400 (nh_of a) 3;
            LoadEncoder (clas_learner a) "enc";
            FitOneCycle (clas_learner a) 1 (mkDec 5 (-3)) (mkDec 8 (-1), mkDec 7 (-1))
              (mkDec 1 (-7));
            FreezeTo (clas_learner a) (-2);
            FitOneCycle (clas_learner a) 1 (mkDec 5 (-3)) (mkDec 8 (-1), mkDec 7 (-1))
              (mkDec 1 (-7));
            Unfreeze (clas_learner a);
            FitOneCycle (clas_learner a) 10 (mkDec 5 (-3)) (mkDec 8 (-1), mkDec 7 (-1))
              (mkDec 1 (-7));
            Print ("Saving models at "
                     +:+ path_str (path_div (path_parent (model_dir_path a))
                                     (path_name (model_dir_path a))));
            Save (clas_learner a) ((if qrnn a then "qrnn" else "lstm") +:+ "_" +:+ name a)].
Proof.
  intros Hrun.
  apply new_train_clas_trace in Hrun
    as (ids & lbls & vocab & trn_ids & val_ids & tst_ids & trn_lbls & val_lbls
        & ? & ? & ? & ? & ? & Htr & _).
  exists ids, lbls, vocab, trn_ids, val_ids, tst_ids, trn_lbls, val_lbls.
  split_and!; try done.
Qed.

Lemma setup_events_no_cycle a w :
  Forall (λ e, is_fit_one_cycle e = false) (setup_events a w).
Proof.
  unfold setup_events. destruct (cuda_available w), (qrnn a); by repeat constructor.
Qed.

Lemma stage_events_no_cycle a ids lbls vocab cached :
  Forall (λ e, is_fit_one_cycle e = false) (stage_events a ids lbls vocab cached).
Proof.
  unfold stage_events, split_loads, split_saves.
  destruct cached; [by repeat constructor |].
  destruct (ids !! TRN), (lbls !! TRN), (ids !! VAL), (lbls !! VAL),
    (ids !! TST), (lbls !! TST); by repeat constructor.
Qed.

(** C9.  With [fine_tune] false: no run, whatever its outcome, makes a
    call that fine-tunes the language model or saves an encoder; a run
    that returns loaded the encoder ['enc'] before its first cycle, and
    the file of that encoder, [enc.pth] in the model directory, was there
    when the run began; without that file the run raises before any cycle
    of classifier training.  A run with [fine_tune] true that returns
    leaves that file in its model directory. *)
Theorem no_fine_tuning_needs_saved_encoder a w :
  fine_tune a = false →
  (∃ evs, trace (run a w).2 = trace w ++ evs
          ∧ Forall (λ e, is_fine_tuning e = false) evs)
  ∧ (∀ w', run a w = (Ok tt, w') →
       is_file (fs w !! enc_file a) = true
       ∧ ∃ before d,
           trace w'
           = trace w ++ before
             ++ [TextClassifierLearner d (bptt a) PAD_TOKEN_ID
                   (path_parent (model_dir_path a)) (path_name (model_dir_path a))
                   (qrnn a) 400 (nh_of a) 3;
                 LoadEncoder (clas_learner a) "enc";
                 FitOneCycle (clas_learner a) 1 (mkDec 5 (-3)) (mkDec 8 (-1), mkDec 7 (-1))
                   (mkDec 1 (-7));
                 FreezeTo (clas_learner a) (-2);
                 FitOneCycle (clas_learner a) 1 (mkDec 5 (-3)) (mkDec 8 (-1), mkDec 7 (-1))
                   (mkDec 1 (-7));
                 Unfreeze (clas_learner a);
                 FitOneCycle (clas_learner a) 10 (mkDec 5 (-3)) (mkDec 8 (-1), mkDec 7 (-1))
                   (mkDec 1 (-7));
                 Print ("Saving models at "
                          +:+ path_str (path_div (path_parent (model_dir_path a))
                                          (path_name (model_dir_path a))));
                 Save (clas_learner a)
                   ((if qrnn a then "qrnn" else "lstm") +:+ "_" +:+ name a)]
           ∧ Forall (λ e, is_fit_one_cycle e = false) before)
  ∧ (is_file (fs w !! enc_file a) = false →
       ∃ e w' evs, run a w = (Raise e, w') ∧ trace w' = trace w ++ evs
                   ∧ Forall (λ ev, is_fit_one_cycle ev = false) evs)
  ∧ enc_file a = model_dir_path a ++ ["enc.pth"]
  ∧ (∀ a0 w0 w0',
       fine_tune a0 = true → model_dir_path a0 = model_dir_path a →
       run a0 w0 = (Ok tt, w0') → fs w0' !! enc_file a = Some PthFile).
Proof.
  intros Hft. split_and!.
  - destruct (new_train_clas_effects a w) as (_ & _ & evs & Htr & Hevs).
    exists evs. split; [done |]. eapply Forall_impl; [exact Hevs |].
    intros e He. unfold allowed in He. destruct (is_fine_tuning e); [|done].
    specialize (He eq_refl). congruence.
  - intros w' Hrun. apply new_train_clas_trace in Hrun
      as (ids & lbls & vocab & trn_ids & val_ids & tst_ids & trn_lbls & val_lbls
          & _ & _ & _ & _ & _ & Htr & Henc & _).
    split; [by apply Henc |].
    rewrite Hft in Htr.
    eexists (setup_events a w ++ stage_events a ids lbls vocab _
             ++ data_events a vocab trn_ids val_ids tst_ids trn_lbls val_lbls), _.
    split.
    + rewrite Htr. cbn [app]. by rewrite <- !app_assoc.
    + apply Forall_app_2; [apply setup_events_no_cycle |].
      apply Forall_app_2; [apply stage_events_no_cycle | by repeat constructor].
  - by apply new_train_clas_raises_without.
  - apply enc_file_eq.
  - intros a0 w0 w0' Hft0 Hdir Hrun. apply new_train_clas_trace in Hrun
      as (? & ? & ? & ? & ? & ? & ? & ? & _ & _ & _ & _ & _ & _ & _ & Henc & _).
    specialize (Henc Hft0). by rewrite enc_file_eq, <- Hdir, <- enc_file_eq.
Qed.

(** ** The assertions *)

(** C4, as amended.  The input checks are six assertions, tried in this
    order: the dataset is supported, IMDb comes with English, the data
    directory is called [data], and the data, dataset and model
    directories exist.  The first one that fails raises its
    [AssertionError], which ends the whole run with nothing written; when
    all six hold none is raised. *)
Theorem input_assertions a w :
  let w0 := after_device a w in
  let shown :=
    add_event (Print ("Dataset: " +:+ dataset a +:+ ". Language: " +:+ lang a +:+ ".")) w0 in
  let compatible := (dataset a = "imdb" ∧ lang a = "en") ∨ dataset a ≠ "imdb" in
  let fails msg :=
    check_inputs DATASETS a w0 = (Raise (AssertionError msg), shown)
    ∧ run a w = (Raise (AssertionError msg), shown) in
  fs shown = fs w
  ∧ (dataset a ∉ DATASETS →
     fails ("Error: " +:+ dataset a +:+ " processing is not implemented."))
  ∧ (dataset a ∈ DATASETS → ¬ compatible →
     fails "Error: IMDb is only available in English.")
  ∧ (dataset a ∈ DATASETS → compatible → path_name (data_dir_path a) ≠ "data" →
     fails ("Error: Name of data directory should be data, not "
              +:+ path_name (data_dir_path a) +:+ "."))
  ∧ (dataset a ∈ DATASETS → compatible → path_name (data_dir_path a) = "data" →
     fs w !! data_dir_path a = None →
     fails ("Error: " +:+ path_str (data_dir_path a) +:+ " does not exist."))
  ∧ (dataset a ∈ DATASETS → compatible → path_name (data_dir_path a) = "data" →
     is_Some (fs w !! data_dir_path a) → fs w !! dataset_dir a = None →
     fails ("Error: " +:+ path_str (dataset_dir a) +:+ " does not exist."))
  ∧ (dataset a ∈ DATASETS → compatible → path_name (data_dir_path a) = "data" →
     is_Some (fs w !! data_dir_path a) → is_Some (fs w !! dataset_dir a) →
     fs w !! model_dir_path a = None →
     fails ("Error: " +:+ path_str (model_dir_path a) +:+ " does not exist."))
  ∧ (inputs_valid a (fs w) ↔ check_inputs DATASETS a w0 = (Ok tt, shown)).
Proof.
  intros w0 shown compatible fails.
  assert (Hfs : fs w0 = fs w) by apply after_device_fs.
  assert (Hfails : ∀ msg,
            check_inputs DATASETS a w0 = (Raise (AssertionError msg), shown) → fails msg).
  { intros msg Hchk. split; [done |]. rewrite new_train_clas_run. fold w0. by rewrite Hchk. }
  assert (Hcompat : compatible ↔
            (bool_decide (dataset a = "imdb") && bool_decide (lang a = "en"))
            || negb (bool_decide (dataset a = "imdb")) = true).
  { unfold compatible. repeat case_bool_decide; cbn; split; try done; tauto. }
  split_and!.
  - done.
  - intros H1. apply Hfails. rewrite check_inputs_run.
    by rewrite (bool_decide_eq_false_2 _ H1).
  - intros H1 H2. apply Hfails. rewrite check_inputs_run.
    rewrite (bool_decide_eq_true_2 _ H1). cbn [negb].
    destruct (_ || _); [|done]. exfalso. by apply H2, Hcompat.
  - intros H1 H2 H3. apply Hfails. rewrite check_inputs_run.
    rewrite (bool_decide_eq_true_2 _ H1). cbn [negb].
    apply Hcompat in H2. rewrite H2. cbn [negb].
    by rewrite (bool_decide_eq_false_2 _ H3).
  - intros H1 H2 H3 H4. apply Hfails. rewrite check_inputs_run.
    rewrite (bool_decide_eq_true_2 _ H1). cbn [negb].
    apply Hcompat in H2. rewrite H2. cbn [negb].
    rewrite (bool_decide_eq_true_2 _ H3). cbn [negb].
    rewrite Hfs, H4. rewrite bool_decide_eq_false_2; [done |]. by intros [? ?].
  - intros H1 H2 H3 H4 H5. apply Hfails. rewrite check_inputs_run.
    rewrite (bool_decide_eq_true_2 _ H1). cbn [negb].
    apply Hcompat in H2. rewrite H2. cbn [negb].
    rewrite (bool_decide_eq_true_2 _ H3). cbn [negb].
    rewrite Hfs. rewrite (bool_decide_eq_true_2 _ H4). cbn [negb].
    rewrite H5. rewrite bool_decide_eq_false_2; [done |]. by intros [? ?].
  - intros H1 H2 H3 H4 H5 H6. apply Hfails. rewrite check_inputs_run.
    rewrite (bool_decide_eq_true_2 _ H1). cbn [negb].
    apply Hcompat in H2. rewrite H2. cbn [negb].
    rewrite (bool_decide_eq_true_2 _ H3). cbn [negb].
    rewrite Hfs. rewrite (bool_decide_eq_true_2 _ H4). cbn [negb].
    rewrite (bool_decide_eq_true_2 _ H5). cbn [negb].
    rewrite H6. rewrite bool_decide_eq_false_2; [done |]. by intros [? ?].
  - rewrite <- Hfs. split.
    + intros Hv. apply check_inputs_Ok. done.
    + intros Hchk. by apply check_inputs_Ok in Hchk as [? _].
Qed.

(** ** The device (lines 39-42) *)

Lemma after_device_rest a :
  effects (λ _, True) (λ e, is_set_device e = false)
    (check_inputs DATASETS a;;
     (if qrnn a then print "Using QRNNs..." else mret tt);;
     mkdir_exist_ok (tmp_dir a);;
     '(ids, lbls, vocab) ← get_data a;
     do_train a ids lbls vocab).
Proof.
  apply effects_bind.
  { unfold check_inputs. repeat effects_step; effects_side. }
  intros _. apply effects_bind; [repeat effects_step; effects_side |].
  intros _. apply effects_bind; [repeat effects_step; effects_side |].
  intros _. apply effects_bind.
  { unfold load_or_tokenize, tokenize_and_cache, load_cache, encode_split, load_split.
    repeat effects_step; effects_side. }
  intros [[ids lbls] vocab]. unfold train, language_model_stage.
  replace (if qrnn a then (400%Z, 1550%Z, 3%Z) else (400%Z, 1150%Z, 3%Z))
    with (400%Z, nh_of a, 3%Z) by (unfold nh_of; by destruct (qrnn a)).
  cbv beta iota.
  unfold train_classifier, fine_tune_lm, TextLMDataBunch_from_ids,
    TextClasDataBunch_from_ids, language_model_learner, text_classifier_learner,
    unfreeze, fit, save_encoder, load_encoder, fit_one_cycle, freeze_to, save.
  repeat effects_step; effects_side.
Qed.

(** X6.  Whatever the parameters and the outcome, the first thing a run does is
    to select the device: [-1] after a message when there is no CUDA,
    [cuda_id] otherwise; it selects no device again. *)
Theorem device_is_selected_first_and_once a w :
  ∃ evs,
    trace (run a w).2
    = trace w
      ++ (if cuda_available w then [] else [Print "CUDA not available. Setting device=-1."])
      ++ [SetDevice (if cuda_available w then cuda_id a else (-1)%Z)]
      ++ evs
    ∧ Forall (λ e, is_set_device e = false) evs.
Proof.
  unfold new_train_clas. cbv zeta. rewrite bind_run, select_device_run.
  destruct (after_device_rest a
              (add_event (SetDevice (if cuda_available w then cuda_id a else (-1)%Z))
                 (if cuda_available w then w
                  else add_event (Print "CUDA not available. Setting device=-1.") w)))
    as (_ & _ & evs & Htr & Hevs).
  exists evs. split; [|done]. rewrite Htr.
  destruct (cuda_available w); world_simpl; by rewrite <- ?app_assoc.
Qed.

(** ** The cache decides, not the parameters *)

Lemma cache_files_eq a1 a2 :
  data_dir a1 = data_dir a2 → dataset a1 = dataset a2 → lang a1 = lang a2 →
  ids_file a1 = ids_file a2 ∧ lbl_file a1 = lbl_file a2 ∧ vocab_file a1 = vocab_file a2.
Proof.
  intros Hd Hs Hl.
  unfold ids_file, lbl_file, vocab_file, tmp_dir, dataset_dir, data_dir_path.
  by rewrite Hd, Hs, Hl.
Qed.

(** ** [tmp] and the reader (lines 62-68) *)

Lemma path_parent_snoc (p : Path) (n : string) : path_parent (p ++ [n]) = p.
Proof.
  unfold path_parent. rewrite length_app. cbn [length].
  replace (length p + 1 - 1) with (length p) by lia. by rewrite take_app_length.
Qed.

Lemma check_inputs_valid a w :
  inputs_valid a (fs w) →
  check_inputs DATASETS a (after_device a w)
  = (Ok tt, add_event (Print ("Dataset: " +:+ dataset a +:+ ". Language: "
                                +:+ lang a +:+ ".")) (after_device a w)).
Proof.
  intros Hvalid. apply check_inputs_Ok. split; [|done]. by rewrite after_device_fs.
Qed.

(** With valid inputs, a run is what [mkdir], the data stage and the
    training make of the world after the messages. *)
Lemma new_train_clas_valid a w :
  inputs_valid a (fs w) →
  run a w
  = match mkdir_exist_ok (tmp_dir a) (after_checks a w) with
    | (Raise e, w3) => (Raise e, w3)
    | (Ok _, w3) =>
        match get_data a w3 with
        | (Raise e, w4) => (Raise e, w4)
        | (Ok (ids, lbls, vocab), w4) => do_train a ids lbls vocab w4
        end
    end.
Proof. intros Hvalid. by rewrite new_train_clas_run, check_inputs_valid. Qed.

(** X7.  When [tmp] is there but is not a directory, a run with valid inputs
    ends with [FileExistsError] at [mkdir]: no data is read, no file is
    written, nothing is trained. *)
Theorem tmp_that_is_a_file_stops_the_run a w :
  inputs_valid a (fs w) → is_file (fs w !! tmp_dir a) = true →
  run a w = (Raise (OSError FileExists (tmp_dir a)),
             add_event (Mkdir (tmp_dir a)) (after_checks a w))
  ∧ fs (run a w).2 = fs w
  ∧ trace (run a w).2 = trace w ++ setup_events a w.
Proof.
  intros Hvalid Hfile.
  assert (Hrun : run a w = (Raise (OSError FileExists (tmp_dir a)),
                            add_event (Mkdir (tmp_dir a)) (after_checks a w))).
  { rewrite new_train_clas_valid by done. rewrite mkdir_exist_ok_run, after_checks_fs.
    by destruct (fs w !! tmp_dir a) as [[]|]. }
  rewrite Hrun. split_and!; [done | |]; world_simpl.
  - apply after_checks_fs.
  - apply after_checks_trace.
Qed.

Lemma mkdir_tmp a w :
  fs w !! dataset_dir a = Some Dir → is_file (fs w !! tmp_dir a) = false →
  mkdir_exist_ok (tmp_dir a) (after_checks a w)
  = (Ok tt, set_fs (<[tmp_dir a := Dir]> (fs w))
              (add_event (Mkdir (tmp_dir a)) (after_checks a w))).
Proof.
  intros Hdir Hfile. rewrite mkdir_exist_ok_run, after_checks_fs.
  destruct (fs w !! tmp_dir a) as [[]|] eqn:Htmp; try done.
  - f_equal. destruct (after_checks a w) as [f c t] eqn:Hw.
    assert (Hf : f = fs w) by (by rewrite <- (after_checks_fs a w), Hw).
    unfold set_fs, add_event. cbn. f_equal. subst f. by rewrite insert_id.
  - rewrite tmp_dir_eq, path_parent_snoc, Hdir. done.
Qed.

(** X8.  When the reader raises, the run ends with the reader's exception,
    having made [tmp] and nothing else: the cache stays empty and the next
    run reads the data again. *)
Theorem reader_failure_leaves_the_cache_empty a w e :
  inputs_valid a (fs w) →
  fs w !! dataset_dir a = Some Dir → is_file (fs w !! tmp_dir a) = false →
  fs w !! ids_file a TRN = None →
  read_clas_data (<[tmp_dir a := Dir]> (fs w)) (dataset_dir a) (dataset a) (lang a)
  = Raise e →
  ∃ w', run a w = (Raise e, w')
        ∧ fs w' = <[tmp_dir a := Dir]> (fs w)
        ∧ fs w' !! ids_file a TRN = None
        ∧ trace w' = trace w ++ setup_events a w
                     ++ [Print "Reading the data...";
                         ReadClasData (dataset_dir a) (dataset a) (lang a)].
Proof.
  intros Hvalid Hdir Hfile Hnone Hread.
  rewrite new_train_clas_valid by done. rewrite mkdir_tmp by done.
  assert (Hnone' : <[tmp_dir a := Dir]> (fs w) !! ids_file a TRN = None).
  { rewrite lookup_insert_ne; [done |]. apply not_eq_sym, ids_file_ne_tmp_dir. }
  rewrite load_or_tokenize_run. world_simpl.
  rewrite bool_decide_eq_false_2 by (rewrite Hnone'; apply is_Some_None).
  unfold tokenize_and_cache. rewrite bind_run, print_run, bind_run, emit_run, bind_run,
    get_fs_run. world_simpl. rewrite Hread.
  eexists. split; [reflexivity |]. world_simpl. split_and!; [done | done |].
  rewrite after_checks_trace, <- !app_assoc. done.
Qed.

(** ** Nothing is removed *)

Lemma kept_refl o : kept o o.
Proof. by destruct o as [[]|]. Qed.

Lemma kept_trans o1 o2 o3 : kept o1 o2 → kept o2 o3 → kept o1 o3.
Proof.
  destruct o1 as [[]|], o2 as [[]|], o3 as [[]|]; cbn; done.
Qed.

Lemma kept_is_Some o o' : kept o o' → is_Some o → is_Some o'.
Proof. destruct o as [[]|], o' as [[]|]; cbn; try done; by intros _ [? ?]. Qed.

Lemma keeps_files_pure {A} (m : Script A) : (∀ w, fs (m w).2 = fs w) → keeps_files m.
Proof. intros Hm w p. rewrite Hm. apply kept_refl. Qed.

Lemma keeps_files_bind {A B} (m : Script A) (f : A → Script B) :
  keeps_files m → (∀ x, keeps_files (f x)) → keeps_files (m ≫= f).
Proof.
  intros Hm Hf w p. rewrite bind_run. specialize (Hm w p).
  destruct (m w) as [[x|e] w1]; [|done].
  eapply kept_trans; [exact Hm | apply Hf].
Qed.

Lemma keeps_files_for_in {A S} (l : list A) (body : S → A → Script S) s :
  (∀ s x, keeps_files (body s x)) → keeps_files (for_in l body s).
Proof.
  intros Hbody. revert s. induction l as [|x l IH]; intros s; cbn [for_in].
  - by apply keeps_files_pure.
  - apply keeps_files_bind; [apply Hbody | apply IH].
Qed.

Lemma keeps_files_write_file p n : n ≠ Dir → keeps_files (write_file p n).
Proof.
  intros Hn w q. rewrite write_file_run.
  destruct (is_dir (fs w !! p)) eqn:Hdir; [apply kept_refl |]. world_simpl.
  destruct (decide (p = q)) as [->|Hne].
  - rewrite lookup_insert_eq. destruct (fs w !! q) as [[]|]; try done; by destruct n.
  - rewrite lookup_insert_ne by done. apply kept_refl.
Qed.

Lemma keeps_files_mkdir_exist_ok p : keeps_files (mkdir_exist_ok p).
Proof.
  intros w q. rewrite mkdir_exist_ok_run.
  destruct (fs w !! p) as [[]|] eqn:Hp; world_simpl; try apply kept_refl.
  destruct (fs w !! path_parent p) as [[]|]; world_simpl; try apply kept_refl.
  destruct (decide (p = q)) as [->|Hne].
  - by rewrite Hp.
  - rewrite lookup_insert_ne by done. apply kept_refl.
Qed.

Ltac keeps_step :=
  lazymatch goal with
  | |- keeps_files (_ ≫= _) => apply keeps_files_bind; [|intros ?]
  | |- keeps_files (for_in _ _ _) => apply keeps_files_for_in; intros ? ?
  | |- keeps_files (write_file _ _) => by apply keeps_files_write_file
  | |- keeps_files (mkdir_exist_ok _) => apply keeps_files_mkdir_exist_ok
  | |- keeps_files (if ?b then _ else _) => destruct b
  | |- keeps_files (match ?x with _ => _ end) => destruct x
  | |- keeps_files (assert ?c _) => destruct c; by apply keeps_files_pure
  | |- keeps_files (dict_getitem ?d ?k) =>
      unfold dict_getitem; destruct (d !! k); by apply keeps_files_pure
  | |- keeps_files (framework_read _) =>
      apply keeps_files_pure; intros ?; by rewrite framework_read_run
  | |- keeps_files _ => by apply keeps_files_pure
  end.

Lemma encode_split_keeps_files a toks lbls stoi ids split :
  keeps_files (encode_split UNK a toks lbls stoi ids split).
Proof. unfold encode_split, np_save. cbv zeta. repeat keeps_step. Qed.

Lemma load_or_tokenize_keeps_files a : keeps_files (get_data a).
Proof.
  unfold load_or_tokenize, tokenize_and_cache, load_cache, load_split, pickle_dump,
    pickle_load, np_load.
  repeat keeps_step; apply encode_split_keeps_files.
Qed.

Lemma train_keeps_files a ids lbls vocab : keeps_files (do_train a ids lbls vocab).
Proof.
  unfold train, language_model_stage, train_classifier, fine_tune_lm,
    TextLMDataBunch_from_ids, TextClasDataBunch_from_ids, language_model_learner,
    text_classifier_learner, unfreeze, fit, save_encoder, load_encoder, fit_one_cycle,
    freeze_to, save, torch_save.
  repeat keeps_step.
Qed.

Lemma new_train_clas_keeps_files a : keeps_files (run a).
Proof.
  unfold new_train_clas. cbv zeta.
  apply keeps_files_bind; [unfold select_device; repeat keeps_step |].
  intros _. apply keeps_files_bind; [unfold check_inputs; repeat keeps_step |].
  intros _. apply keeps_files_bind; [repeat keeps_step |].
  intros _. apply keeps_files_bind; [apply keeps_files_mkdir_exist_ok |].
  intros _. apply keeps_files_bind; [apply load_or_tokenize_keeps_files |].
  intros [[ids lbls] vocab]. apply train_keeps_files.
Qed.

(** X9.  Whatever its parameters and its outcome, a run removes nothing: what
    was a directory is a directory afterwards, what was a file is a file
    afterwards. *)
Theorem nothing_is_removed a w p :
  (fs w !! p = Some Dir → fs (run a w).2 !! p = Some Dir)
  ∧ (is_file (fs w !! p) = true → is_file (fs (run a w).2 !! p) = true).
Proof.
  pose proof (new_train_clas_keeps_files a w p) as Hkept.
  destruct (fs w !! p) as [[]|] eqn:Hp; cbn in Hkept; split; try done;
    intros _; by rewrite Hkept.
Qed.

(** ** A data stage that fails half-way *)

Lemma kept_is_file o o' : kept o o' → is_file o = true → is_file o' = true.
Proof. by destruct o as [[]|]. Qed.

(** Once the reader has returned the training split and its labels, the
    training ids file is in [tmp] at the end of the data stage, whatever
    happens to the other splits. *)
Lemma tokenize_saves_training_split a w toks lbls trn l :
  fs w !! ids_file a TRN = None →
  is_dir (fs w !! vocab_file a) = false → is_dir (fs w !! lbl_file a TRN) = false →
  read_clas_data (fs w) (dataset_dir a) (dataset a) (lang a) = Ok (toks, lbls) →
  toks !! TRN = Some trn → lbls !! TRN = Some l →
  is_file (fs (get_data a w).2 !! ids_file a TRN) = true.
Proof.
  intros Hnone Hvoc Hlbl Hread Htrn Hl.
  rewrite load_or_tokenize_run.
  rewrite bool_decide_eq_false_2 by (rewrite Hnone; apply is_Some_None).
  unfold tokenize_and_cache.
  rewrite bind_run, print_run, bind_run, emit_run, bind_run, get_fs_run. world_simpl.
  rewrite Hread. rewrite bind_run, dict_getitem_run, Htrn. cbv zeta.
  rewrite bind_run, pickle_dump_run. world_simpl. rewrite Hvoc.
  rewrite bind_run. cbn [for_in]. rewrite bind_run.
  unfold encode_split at 1.
  rewrite bind_run, dict_getitem_run, Htrn. cbv zeta.
  rewrite bind_run, np_save_run. world_simpl.
  rewrite lookup_insert_ne by apply vocab_file_ne_ids_file. rewrite Hnone. cbn [is_dir].
  rewrite bind_run, dict_getitem_run, Hl.
  rewrite bind_run, np_save_run. world_simpl.
  rewrite lookup_insert_ne by apply ids_file_ne_lbl_file.
  rewrite lookup_insert_ne by apply vocab_file_ne_lbl_file.
  rewrite Hlbl, ret_run.
  match goal with
  | |- context [let (r, w') := ?m ?w3 in _] =>
      assert (Hkeeps : keeps_files m)
        by (repeat keeps_step; apply encode_split_keeps_files);
      pose proof (Hkeeps w3 (ids_file a TRN)) as Hkept;
      destruct (m w3) as [[ids'|e] w4]
  end; world_simpl in Hkept; cbn [snd] in Hkept |- *;
    (eapply kept_is_file; [exact Hkept |]);
    (rewrite lookup_insert_ne by apply not_eq_sym, ids_file_ne_lbl_file);
    by rewrite lookup_insert_eq.
Qed.

(** ** A run on a full cache *)

(** With valid inputs, [tmp] and the seven files of the cache in place,
    a run is the training stage on what the files hold. *)
Lemma new_train_clas_cached a w i1 l1 i2 l2 i3 l3 vocab :
  inputs_valid a (fs w) →
  fs w !! tmp_dir a = Some Dir →
  fs w !! ids_file a TRN = Some (NpyFile i1) → fs w !! lbl_file a TRN = Some (NpyFile l1) →
  fs w !! ids_file a VAL = Some (NpyFile i2) → fs w !! lbl_file a VAL = Some (NpyFile l2) →
  fs w !! ids_file a TST = Some (NpyFile i3) → fs w !! lbl_file a TST = Some (NpyFile l3) →
  fs w !! vocab_file a = Some (PklFile vocab) →
  ∃ ids lbls w4,
    run a w = do_train a ids lbls vocab w4
    ∧ ids !! TRN = Some i1 ∧ ids !! VAL = Some i2 ∧ ids !! TST = Some i3
    ∧ lbls !! TRN = Some l1 ∧ lbls !! VAL = Some l2
    ∧ fs w4 = fs w
    ∧ trace w4 = trace w ++ setup_events a w
                 ++ [Print "Loading the pickled data..."]
                 ++ split_loads a TRN ++ split_loads a VAL ++ split_loads a TST
                 ++ [PickleLoad (vocab_file a)].
Proof.
  intros Hvalid Htmp Hi1 Hl1 Hi2 Hl2 Hi3 Hl3 Hv.
  set (w3 := add_event (Mkdir (tmp_dir a)) (after_checks a w)).
  assert (Hfs3 : fs w3 = fs w) by apply after_checks_fs.
  assert (Htr3 : trace w3 = trace w ++ setup_events a w) by apply after_checks_trace.
  set (ids := <[TST := i3]> (<[VAL := i2]> (<[TRN := i1]> (∅ : gmap string Array)))).
  set (lbls := <[TST := l3]> (<[VAL := l2]> (<[TRN := l1]> (∅ : gmap string Array)))).
  set (w4 := mkWorld (fs w3) (cuda_available w3)
               (trace w3 ++ [Print "Loading the pickled data..."]
                ++ split_loads a TRN ++ split_loads a VAL ++ split_loads a TST
                ++ [PickleLoad (vocab_file a)])).
  assert (Hload : load_cache TRN VAL TST a w3 = (Ok (ids, lbls, vocab), w4)).
  { apply load_cache_Ok. exists i1, l1, i2, l2, i3, l3. rewrite Hfs3. by split_and!. }
  exists ids, lbls, w4.
  rewrite <- Hfs3 in Hi1, Hl1, Hi2, Hl2, Hi3.
  pose proof Hload as Hlook. apply load_cache_lookups in Hlook as (_ & Hs & _).
  split_and!.
  - rewrite new_train_clas_valid by done.
    rewrite mkdir_exist_ok_run, after_checks_fs, Htmp. fold w3.
    rewrite load_or_tokenize_run.
    rewrite bool_decide_eq_true_2 by (rewrite Hi1; by eexists).
    by rewrite Hload.
  - destruct (Hs TRN) as (i & l & Hi & _ & Hi' & _); [in_list |]. congruence.
  - destruct (Hs VAL) as (i & l & Hi & _ & Hi' & _); [in_list |]. congruence.
  - destruct (Hs TST) as (i & l & Hi & _ & Hi' & _); [in_list |]. congruence.
  - destruct (Hs TRN) as (i & l & _ & Hl & _ & Hl'); [in_list |]. congruence.
  - destruct (Hs VAL) as (i & l & _ & Hl & _ & Hl'); [in_list |]. congruence.
  - done.
  - subst w4. world_simpl. rewrite Htr3. by rewrite <- !app_assoc.
Qed.

Lemma inputs_valid_kept a f f' :
  (∀ p, kept (f !! p) (f' !! p)) → inputs_valid a f → inputs_valid a f'.
Proof.
  intros Hkept (? & ? & ? & ? & ? & ?).
  split_and!; try done; eapply kept_is_Some; try apply Hkept; done.
Qed.

Lemma train_frame (a : Args) (f f' : gmap Path Node) (p : Path) :
  f' = <[model_file a := PthFile]>
         (if fine_tune a then <[enc_file a := PthFile]> f else f) →
  (∀ d n, p ≠ d ++ [n +:+ ".pth"]) →
  f' !! p = f !! p.
Proof.
  intros -> Hp.
  rewrite lookup_insert_ne by (rewrite model_file_eq; apply not_eq_sym, Hp).
  destruct (fine_tune a); [|done].
  by rewrite lookup_insert_ne by (rewrite enc_file_eq; apply not_eq_sym, Hp).
Qed.

(** What a run that returns leaves behind: valid inputs, [tmp], and in
    the cache the arrays and the vocabulary it trained on. *)
Lemma new_train_clas_leaves a w w' :
  run a w = (Ok tt, w') →
  ∃ ids lbls vocab i1 i2 i3 l1 l2 l3,
    trace w'
    = trace w ++ setup_events a w
      ++ stage_events a ids lbls vocab (bool_decide (is_Some (fs w !! ids_file a TRN)))
      ++ data_events a vocab i1 i2 i3 l1 l2
      ++ (if fine_tune a then fine_tune_events a else [])
      ++ classifier_events a (clas_data a vocab i1 i2 l1 l2)
    ∧ inputs_valid a (fs w')
    ∧ fs w' !! tmp_dir a = Some Dir
    ∧ fs w' !! ids_file a TRN = Some (NpyFile i1)
    ∧ fs w' !! lbl_file a TRN = Some (NpyFile l1)
    ∧ fs w' !! ids_file a VAL = Some (NpyFile i2)
    ∧ fs w' !! lbl_file a VAL = Some (NpyFile l2)
    ∧ fs w' !! ids_file a TST = Some (NpyFile i3)
    ∧ fs w' !! lbl_file a TST = Some (NpyFile l3)
    ∧ fs w' !! vocab_file a = Some (PklFile vocab).
Proof.
  intros Hrun.
  pose proof (new_train_clas_keeps_files a w) as Hkeep. rewrite Hrun in Hkeep.
  cbn [snd] in Hkeep.
  apply new_train_clas_Ok in Hrun
    as (Hvalid & w1 & ids & lbls & vocab & w2 & Hf1 & Ht1 & _ & Hdata & Htrain).
  pose proof (load_or_tokenize_keeps_files a w1) as Hkeep1. rewrite Hdata in Hkeep1.
  pose proof (train_keeps_files a ids lbls vocab w2) as Hkeep2. rewrite Htrain in Hkeep2.
  cbn [snd] in Hkeep1, Hkeep2.
  pose proof Hdata as Ht2. apply load_or_tokenize_trace in Ht2.
  apply load_or_tokenize_cache in Hdata as (Hsplits & Hvoc & _ & _).
  apply train_Ok in Htrain
    as (i1 & i2 & i3 & l1 & l2 & Hd1 & Hd2 & Hd3 & Hd4 & Hd5 & _ & _ & _ & Hf3 & Ht3 & _).
  assert (Hcache : ∀ p, (∀ d n, p ≠ d ++ [n +:+ ".pth"]) → fs w' !! p = fs w2 !! p)
    by (intros p; by apply (train_frame a)).
  destruct (Hsplits TRN) as [(j1 & Hj1 & ?) (k1 & Hk1 & ?)]; [in_list |].
  destruct (Hsplits VAL) as [(j2 & Hj2 & ?) (k2 & Hk2 & ?)]; [in_list |].
  destruct (Hsplits TST) as [(j3 & Hj3 & ?) (k3 & Hk3 & _)]; [in_list |].
  exists ids, lbls, vocab, i1, i2, i3, l1, l2, k3. simplify_eq.
  split_and!.
  - rewrite Ht3, Ht2, Ht1, Hf1.
    rewrite lookup_insert_ne by (apply not_eq_sym, ids_file_ne_tmp_dir).
    by rewrite <- !app_assoc.
  - by apply (inputs_valid_kept a (fs w)).
  - specialize (Hkeep1 (tmp_dir a)). specialize (Hkeep2 (tmp_dir a)).
    rewrite Hf1, lookup_insert_eq in Hkeep1. cbn in Hkeep1. rewrite Hkeep1 in Hkeep2.
    exact Hkeep2.
  - rewrite Hcache; [done |]. intros d n. apply not_eq_sym, pth_ne_ids_file.
  - rewrite Hcache; [done |]. intros d n. apply not_eq_sym, pth_ne_lbl_file.
  - rewrite Hcache; [done |]. intros d n. apply not_eq_sym, pth_ne_ids_file.
  - rewrite Hcache; [done |]. intros d n. apply not_eq_sym, pth_ne_lbl_file.
  - rewrite Hcache; [done |]. intros d n. apply not_eq_sym, pth_ne_ids_file.
  - rewrite Hcache; [done |]. intros d n. apply not_eq_sym, pth_ne_lbl_file.
  - rewrite Hcache; [done |]. intros d n. apply not_eq_sym, pth_ne_vocab_file.
Qed.

End ScriptFacts.

(** ** Two runs that differ in the test split only *)

Section TestSplit.

Context (a : Args) (TST : string).

Local Abbreviation test_files := (test_files a TST).
Local Abbreviation fs_agree := (fs_agree a TST).
Local Abbreviation world_agree := (world_agree a TST).
Local Abbreviation related := (related a TST).

Lemma fs_agree_insert_same f1 f2 p n :
  fs_agree f1 f2 → fs_agree (<[p := n]> f1) (<[p := n]> f2).
Proof.
  intros Hf q. destruct (decide (p = q)) as [->|Hne].
  - left. by rewrite !lookup_insert_eq.
  - rewrite !lookup_insert_ne by done. apply Hf.
Qed.

Lemma fs_agree_insert_test f1 f2 p x1 x2 :
  p ∈ test_files → fs_agree f1 f2 →
  fs_agree (<[p := NpyFile x1]> f1) (<[p := NpyFile x2]> f2).
Proof.
  intros Hp Hf q. destruct (decide (p = q)) as [->|Hne].
  - right. split; [done |]. exists x1, x2. by rewrite !lookup_insert_eq.
  - rewrite !lookup_insert_ne by done. apply Hf.
Qed.

Lemma fs_agree_is_dir f1 f2 p : fs_agree f1 f2 → is_dir (f1 !! p) = is_dir (f2 !! p).
Proof. intros Hf. destruct (Hf p) as [->|(_ & x1 & x2 & -> & ->)]; done. Qed.

Lemma fs_agree_is_Some f1 f2 p :
  fs_agree f1 f2 → bool_decide (is_Some (f1 !! p)) = bool_decide (is_Some (f2 !! p)).
Proof.
  intros Hf. destruct (Hf p) as [->|(_ & x1 & x2 & -> & ->)]; [done |].
  by rewrite !bool_decide_eq_true_2.
Qed.

Lemma training_calls_snoc t e :
  training_calls (t ++ [e])
  = training_calls t ++ (if is_training_call e then [e] else []).
Proof.
  unfold training_calls. rewrite filter_app. f_equal.
  rewrite filter_cons, filter_nil. destruct (is_training_call e); by case_decide.
Qed.

Lemma world_agree_add_event w1 w2 e1 e2 :
  world_agree w1 w2 →
  (e1 = e2 ∨ (is_training_call e1 = false ∧ is_training_call e2 = false)) →
  world_agree (add_event e1 w1) (add_event e2 w2).
Proof.
  intros (Hf & Hc & Ht) He. split_and!; world_simpl; [done | done |].
  rewrite !training_calls_snoc, Ht.
  destruct He as [->|[-> ->]]; [done |]. done.
Qed.

Lemma world_agree_set_fs w1 w2 f1 f2 :
  world_agree w1 w2 → fs_agree f1 f2 → world_agree (set_fs f1 w1) (set_fs f2 w2).
Proof. intros (Hf & Hc & Ht) Hf'. by split_and!. Qed.

Lemma related_ret {A} (Q : A → A → Prop) x1 x2 :
  Q x1 x2 → related Q (mret x1) (mret x2).
Proof. intros HQ w1 w2 Hw. rewrite !ret_run. done. Qed.

Lemma related_raise {A} (Q : A → A → Prop) e : related Q (raise e) (raise e).
Proof. intros w1 w2 Hw. done. Qed.

Lemma related_bind {A B} (Q : A → A → Prop) (Q' : B → B → Prop)
    (m1 m2 : Script A) (f1 f2 : A → Script B) :
  related Q m1 m2 → (∀ x1 x2, Q x1 x2 → related Q' (f1 x1) (f2 x2)) →
  related Q' (m1 ≫= f1) (m2 ≫= f2).
Proof.
  intros Hm Hf w1 w2 Hw. rewrite !bind_run. specialize (Hm w1 w2 Hw).
  destruct (m1 w1) as [[x1|e1] w1'], (m2 w2) as [[x2|e2] w2']; try done.
  destruct Hm as [HQ Hw']. by apply Hf.
Qed.

Lemma related_weaken {A} (Q Q' : A → A → Prop) (m1 m2 : Script A) :
  (∀ x1 x2, Q x1 x2 → Q' x1 x2) → related Q m1 m2 → related Q' m1 m2.
Proof.
  intros HQ Hm w1 w2 Hw. specialize (Hm w1 w2 Hw).
  destruct (m1 w1) as [[x1|e1] w1'], (m2 w2) as [[x2|e2] w2']; try done.
  destruct Hm as [? ?]. split; [by apply HQ | done].
Qed.

Lemma related_emit e1 e2 :
  (e1 = e2 ∨ (is_training_call e1 = false ∧ is_training_call e2 = false)) →
  related eq (emit e1) (emit e2).
Proof. intros He w1 w2 Hw. rewrite !emit_run. split; [done |]. by apply world_agree_add_event. Qed.

Lemma related_assert cond msg : related eq (assert cond msg) (assert cond msg).
Proof. intros w1 w2 Hw. rewrite !assert_run. by destruct cond. Qed.

Lemma related_cuda_is_available : related eq cuda_is_available cuda_is_available.
Proof. intros w1 w2 Hw. unfold cuda_is_available. split; [apply Hw | done]. Qed.

Lemma related_get_fs : related fs_agree get_fs get_fs.
Proof. intros w1 w2 Hw. rewrite !get_fs_run. split; [apply Hw | done]. Qed.

Lemma related_path_exists p : related eq (path_exists p) (path_exists p).
Proof.
  intros w1 w2 Hw. rewrite !path_exists_run. split; [|done].
  apply fs_agree_is_Some, Hw.
Qed.

Lemma related_dict_getitem {V} (d1 d2 : gmap string V) key :
  d1 !! key = d2 !! key → related eq (dict_getitem d1 key) (dict_getitem d2 key).
Proof.
  intros Hd w1 w2 Hw. rewrite !dict_getitem_run, Hd. by destruct (d2 !! key).
Qed.

Lemma related_dict_getitem_any {V} (d1 d2 : gmap string V) key :
  (is_Some (d1 !! key) ↔ is_Some (d2 !! key)) →
  related (λ _ _, True) (dict_getitem d1 key) (dict_getitem d2 key).
Proof.
  intros Hd w1 w2 Hw. rewrite !dict_getitem_run.
  destruct (d1 !! key) as [x1|] eqn:H1, (d2 !! key) as [x2|] eqn:H2; try done.
  - destruct (proj1 Hd) as [? ?]; [by eexists | done].
  - destruct (proj2 Hd) as [? ?]; [by eexists | done].
Qed.

Lemma related_write_file p n1 n2 :
  (n1 = n2 ∨ (p ∈ test_files ∧ ∃ x1 x2, n1 = NpyFile x1 ∧ n2 = NpyFile x2)) →
  related eq (write_file p n1) (write_file p n2).
Proof.
  intros Hn w1 w2 Hw. rewrite !write_file_run.
  rewrite (fs_agree_is_dir (fs w1) (fs w2) p) by apply Hw.
  destruct (is_dir _); [done |]. split; [done |].
  apply world_agree_set_fs; [done |].
  destruct Hn as [->|(Hp & x1 & x2 & -> & ->)].
  - apply fs_agree_insert_same, Hw.
  - apply fs_agree_insert_test; [done | apply Hw].
Qed.

Lemma related_np_save p x1 x2 :
  (x1 = x2 ∨ p ∈ test_files) → related eq (np_save p x1) (np_save p x2).
Proof.
  intros Hx. unfold np_save. eapply related_bind.
  - apply related_emit. destruct Hx as [->|?]; [by left | by right].
  - intros _ _ _. apply related_write_file.
    destruct Hx as [->|?]; [by left |]. right. split; [done |]. by eexists _, _.
Qed.

Lemma related_pickle_dump v p : related eq (pickle_dump v p) (pickle_dump v p).
Proof.
  unfold pickle_dump. eapply related_bind.
  - apply related_emit. by left.
  - intros _ _ _. apply related_write_file. by left.
Qed.

Lemma related_np_load p :
  related (λ x1 x2, x1 = x2 ∨ p ∈ test_files) (np_load p) (np_load p).
Proof.
  intros w1 w2 Hw. rewrite !np_load_run.
  assert (Hw' : world_agree (add_event (NpLoad p) w1) (add_event (NpLoad p) w2))
    by (apply world_agree_add_event; [done | by left]).
  destruct Hw as (Hf & _). destruct (Hf p) as [->|(Hp & x1 & x2 & -> & ->)].
  - destruct (fs w2 !! p) as [[]|]; cbn [np_load_result]; try done. split; [by left | done].
  - cbn [np_load_result]. split; [by right | done].
Qed.

Lemma related_pickle_load p : related eq (pickle_load p) (pickle_load p).
Proof.
  intros w1 w2 Hw. rewrite !pickle_load_run.
  assert (Hw' : world_agree (add_event (PickleLoad p) w1) (add_event (PickleLoad p) w2))
    by (apply world_agree_add_event; [done | by left]).
  destruct Hw as (Hf & _). destruct (Hf p) as [->|(Hp & x1 & x2 & -> & ->)].
  - by destruct (fs w2 !! p) as [[]|].
  - done.
Qed.

Lemma related_framework_read p : related eq (framework_read p) (framework_read p).
Proof.
  intros w1 w2 Hw. rewrite !framework_read_run.
  pose proof Hw as (Hf & _). destruct (Hf p) as [->|(Hp & x1 & x2 & -> & ->)].
  - by destruct (fs w2 !! p) as [[]|].
  - done.
Qed.

Lemma related_mkdir_exist_ok p : related eq (mkdir_exist_ok p) (mkdir_exist_ok p).
Proof.
  intros w1 w2 Hw. rewrite !mkdir_exist_ok_run.
  assert (Hw' : world_agree (add_event (Mkdir p) w1) (add_event (Mkdir p) w2))
    by (apply world_agree_add_event; [done | by left]).
  pose proof Hw as (Hf & _). destruct (Hf p) as [->|(Hp & x1 & x2 & -> & ->)]; [|done].
  destruct (fs w2 !! p) as [[]|]; try done.
  destruct (Hf (path_parent p)) as [->|(Hp & x1 & x2 & -> & ->)]; [|done].
  destruct (fs w2 !! path_parent p) as [[]|]; try done.
  split; [done |]. apply world_agree_set_fs; [done |]. by apply fs_agree_insert_same.
Qed.

Lemma related_for_in {A S} (Q : S → S → Prop) (l : list A)
    (body1 body2 : S → A → Script S) s1 s2 :
  (∀ s1 s2 x, x ∈ l → Q s1 s2 → related Q (body1 s1 x) (body2 s2 x)) →
  Q s1 s2 → related Q (for_in l body1 s1) (for_in l body2 s2).
Proof.
  revert s1 s2. induction l as [|x l IH]; intros s1 s2 Hbody HQ; cbn [for_in].
  - by apply related_ret.
  - eapply related_bind; [apply Hbody; [left | done] |].
    intros s1' s2' HQ'. apply IH; [|done].
    intros ? ? y Hy. apply Hbody. by right.
Qed.

End TestSplit.

Section TestSplitRuns.

Context (UNK PAD TRN VAL TST : string) (DATASETS : list string) (PAD_TOKEN_ID : Z).
Context (read1 read2 :
           gmap Path Node → Path → string → string →
           Result (gmap string (list (list string)) * gmap string Array)).
Context (a : Args).

Hypothesis test_not_train : TST ≠ TRN.
Hypothesis test_not_valid : TST ≠ VAL.

Local Abbreviation dict_agree := (dict_agree TST).
Local Abbreviation readers_agree := (readers_agree TST read1 read2 a).
Local Abbreviation data_agree := (data_agree TST).

Local Abbreviation rel := (related a TST).

Lemma dict_agree_insert {V} (d1 d2 : gmap string V) k x1 x2 :
  dict_agree d1 d2 → (x1 = x2 ∨ k = TST) → dict_agree (<[k := x1]> d1) (<[k := x2]> d2).
Proof.
  intros [Hd Hs] Hx. split.
  - intros k' Hk'. destruct (decide (k = k')) as [->|Hne].
    + destruct Hx as [->|?]; [by rewrite !lookup_insert_eq | done].
    + rewrite !lookup_insert_ne by done. by apply Hd.
  - destruct (decide (k = TST)) as [->|Hne].
    + rewrite !lookup_insert_eq. split; by eexists.
    + by rewrite !lookup_insert_ne.
Qed.

Lemma dict_agree_empty {V} : dict_agree (∅ : gmap string V) ∅.
Proof. split; [done |]. by rewrite !lookup_empty. Qed.

Lemma ids_file_test x : ids_file a x ∈ test_files a TST → x = TST.
Proof.
  unfold test_files. intros Hin.
  apply elem_of_cons in Hin as [Hin|Hin]; [by apply ids_file_inj in Hin |].
  apply elem_of_cons in Hin as [Hin|Hin]; [by apply ids_file_ne_lbl_file in Hin |].
  by apply elem_of_nil in Hin.
Qed.

Lemma lbl_file_test x : lbl_file a x ∈ test_files a TST → x = TST.
Proof.
  unfold test_files. intros Hin.
  apply elem_of_cons in Hin as [Hin|Hin]; [by apply symmetry, ids_file_ne_lbl_file in Hin |].
  apply elem_of_cons in Hin as [Hin|Hin]; [by apply lbl_file_inj in Hin |].
  by apply elem_of_nil in Hin.
Qed.

(** Two copies of the same script, on the same values. *)
Ltac related_same :=
  lazymatch goal with
  | |- related _ _ _ (_ ≫= _) (_ ≫= _) =>
      eapply related_bind; [related_same | intros ? ? ?; subst; related_same]
  | |- related _ _ _ (mret _) (mret _) =>
      first [ eapply (related_ret _ _ eq); reflexivity | apply related_ret; done ]
  | |- related _ _ _ (raise _) (raise _) => apply related_raise
  | |- related _ _ _ (emit _) (emit _) => apply related_emit; by left
  | |- related _ _ _ (print _) (print _) => apply related_emit; by left
  | |- related _ _ _ (assert _ _) (assert _ _) => apply related_assert
  | |- related _ _ _ cuda_is_available cuda_is_available => apply related_cuda_is_available
  | |- related _ _ _ (path_exists _) (path_exists _) => apply related_path_exists
  | |- related _ _ _ (framework_read _) (framework_read _) => apply related_framework_read
  | |- related _ _ _ (mkdir_exist_ok _) (mkdir_exist_ok _) => apply related_mkdir_exist_ok
  | |- related _ _ _ (pickle_dump _ _) (pickle_dump _ _) => apply related_pickle_dump
  | |- related _ _ _ (pickle_load _) (pickle_load _) => apply related_pickle_load
  | |- related _ _ _ (torch_save _) (torch_save _) => apply related_write_file; by left
  | |- related _ _ _ (if ?b then _ else _) (if ?b then _ else _) => destruct b; related_same
  end.

Lemma related_select_device : rel eq (select_device a) (select_device a).
Proof. unfold select_device. related_same. Qed.

Lemma related_check_inputs : rel eq (check_inputs DATASETS a) (check_inputs DATASETS a).
Proof. unfold check_inputs. related_same. Qed.

Lemma related_fine_tune_lm l : rel eq (fine_tune_lm l) (fine_tune_lm l).
Proof. unfold fine_tune_lm, unfreeze, fit, save_encoder. related_same. Qed.

Lemma related_train_classifier d emb_sz nh nl model_name :
  rel eq (train_classifier PAD_TOKEN_ID a d emb_sz nh nl model_name)
         (train_classifier PAD_TOKEN_ID a d emb_sz nh nl model_name).
Proof.
  unfold train_classifier, text_classifier_learner, load_encoder, fit_one_cycle,
    freeze_to, unfreeze, save.
  related_same.
Qed.

Lemma test_file_ids : ids_file a TST ∈ test_files a TST.
Proof. unfold test_files. in_list. Qed.

Lemma test_file_lbl : lbl_file a TST ∈ test_files a TST.
Proof. unfold test_files. in_list. Qed.

Lemma related_encode_split toks1 toks2 lbls1 lbls2 stoi ids1 ids2 x :
  dict_agree toks1 toks2 → dict_agree lbls1 lbls2 → dict_agree ids1 ids2 →
  rel dict_agree (encode_split UNK a toks1 lbls1 stoi ids1 x)
                 (encode_split UNK a toks2 lbls2 stoi ids2 x).
Proof.
  intros Htoks Hlbls Hids. unfold encode_split.
  destruct (decide (x = TST)) as [->|Hne].
  - eapply related_bind; [apply related_dict_getitem_any, Htoks |].
    intros exs1 exs2 _. cbv zeta.
    eapply related_bind; [apply related_np_save; right; apply test_file_ids |].
    intros _ _ _.
    eapply related_bind; [apply related_dict_getitem_any, Hlbls |].
    intros l1 l2 _.
    eapply related_bind; [apply related_np_save; right; apply test_file_lbl |].
    intros _ _ _. apply related_ret. apply dict_agree_insert; [done | by right].
  - eapply related_bind; [apply related_dict_getitem; by apply Htoks |].
    intros exs ? <-. cbv zeta.
    eapply related_bind; [apply related_np_save; by left |].
    intros _ _ _.
    eapply related_bind; [apply related_dict_getitem; by apply Hlbls |].
    intros l ? <-.
    eapply related_bind; [apply related_np_save; by left |].
    intros _ _ _. apply related_ret. apply dict_agree_insert; [done | by left].
Qed.

Lemma related_tokenize_and_cache :
  readers_agree →
  rel data_agree (tokenize_and_cache UNK PAD TRN VAL TST read1 a)
                 (tokenize_and_cache UNK PAD TRN VAL TST read2 a).
Proof.
  intros Hread. unfold tokenize_and_cache.
  eapply related_bind; [apply related_emit; by left |]. intros _ _ _.
  eapply related_bind; [apply related_emit; by left |]. intros _ _ _.
  eapply related_bind; [apply related_get_fs |]. intros f1 f2 Hf.
  specialize (Hread f1 f2 Hf).
  destruct (read1 f1 _ _ _) as [[toks1 lbls1]|e1], (read2 f2 _ _ _) as [[toks2 lbls2]|e2];
    try (by destruct Hread); try (subst; by apply related_raise).
  destruct Hread as [Htoks Hlbls].
  eapply related_bind; [apply related_dict_getitem; apply Htoks; congruence |].
  intros trn ? <-. cbv zeta.
  eapply related_bind; [apply related_pickle_dump |]. intros _ _ _.
  eapply related_bind.
  - apply (related_for_in a TST dict_agree).
    + intros s1 s2 x _ Hs. by apply related_encode_split.
    + apply dict_agree_empty.
  - intros ids1 ids2 Hids. apply related_ret. by split_and!.
Qed.

Lemma related_load_split s1 s2 x :
  dict_agree s1.1 s2.1 ∧ dict_agree s1.2 s2.2 →
  rel (λ r1 r2, dict_agree r1.1 r2.1 ∧ dict_agree r1.2 r2.2)
      (load_split a s1 x) (load_split a s2 x).
Proof.
  intros [Hi Hl]. unfold load_split.
  eapply related_bind; [apply related_np_load |]. intros i1 i2 Hi12.
  eapply related_bind; [apply related_np_load |]. intros l1 l2 Hl12.
  apply related_ret. cbn [fst snd]. split; apply dict_agree_insert; try done.
  - destruct Hi12 as [->|Hin]; [by left | right]. by apply ids_file_test.
  - destruct Hl12 as [->|Hin]; [by left | right]. by apply lbl_file_test.
Qed.

Lemma related_load_cache :
  rel data_agree (load_cache TRN VAL TST a) (load_cache TRN VAL TST a).
Proof.
  unfold load_cache.
  eapply related_bind; [apply related_emit; by left |]. intros _ _ _.
  eapply related_bind.
  - apply (related_for_in a TST (λ r1 r2, dict_agree r1.1 r2.1 ∧ dict_agree r1.2 r2.2)).
    + intros s1 s2 x _ Hs. by apply related_load_split.
    + split; apply dict_agree_empty.
  - intros [ids1 lbls1] [ids2 lbls2] [Hi Hl]. cbn [fst snd] in *.
    eapply related_bind; [apply related_pickle_load |]. intros v ? <-.
    apply related_ret. by split_and!.
Qed.

Lemma related_load_or_tokenize :
  readers_agree →
  rel data_agree (load_or_tokenize UNK PAD TRN VAL TST read1 a)
                 (load_or_tokenize UNK PAD TRN VAL TST read2 a).
Proof.
  intros Hread. unfold load_or_tokenize.
  eapply related_bind; [apply related_path_exists |]. intros cached ? <-.
  destruct (negb cached); [by apply related_tokenize_and_cache | apply related_load_cache].
Qed.

Lemma related_language_model_stage ids1 lbls1 ids2 lbls2 vocab :
  dict_agree ids1 ids2 → dict_agree lbls1 lbls2 →
  rel eq (language_model_stage TRN VAL TST PAD_TOKEN_ID a ids1 lbls1 vocab)
         (language_model_stage TRN VAL TST PAD_TOKEN_ID a ids2 lbls2 vocab).
Proof.
  intros Hids Hlbls. unfold language_model_stage.
  eapply related_bind; [apply related_dict_getitem; apply Hids; congruence |].
  intros trn_ids ? <-.
  eapply related_bind; [apply related_dict_getitem; apply Hids; congruence |].
  intros val_ids ? <-.
  eapply related_bind; [apply related_dict_getitem_any, Hids |].
  intros tst_ids1 tst_ids2 _.
  eapply related_bind; [apply related_emit; by right |]. intros _ _ _.
  unfold TextLMDataBunch_from_ids, TextClasDataBunch_from_ids.
  eapply related_bind; [related_same |]. intros data_lm ? <-.
  eapply related_bind; [apply related_dict_getitem; apply Hlbls; congruence |].
  intros trn_lbls ? <-.
  eapply related_bind; [apply related_dict_getitem; apply Hlbls; congruence |].
  intros val_lbls ? <-.
  eapply related_bind; [related_same |]. intros data_clas ? <-.
  destruct (if qrnn a then _ else _) as [[emb_sz nh] nl].
  unfold language_model_learner.
  eapply related_bind; [related_same |]. intros learn ? <-.
  eapply related_bind.
  { destruct (fine_tune a); [apply related_fine_tune_lm | related_same]. }
  intros _ _ _. related_same.
Qed.

Lemma related_train model_name ids1 lbls1 ids2 lbls2 vocab :
  dict_agree ids1 ids2 → dict_agree lbls1 lbls2 →
  rel eq (train TRN VAL TST PAD_TOKEN_ID a model_name ids1 lbls1 vocab)
         (train TRN VAL TST PAD_TOKEN_ID a model_name ids2 lbls2 vocab).
Proof.
  intros Hids Hlbls. unfold train.
  eapply related_bind; [by apply related_language_model_stage |].
  intros [d [[emb_sz nh] nl]] ? <-. apply related_train_classifier.
Qed.

Lemma related_new_train_clas :
  readers_agree →
  rel eq (new_train_clas UNK PAD TRN VAL TST DATASETS PAD_TOKEN_ID read1 a)
         (new_train_clas UNK PAD TRN VAL TST DATASETS PAD_TOKEN_ID read2 a).
Proof.
  intros Hread. unfold new_train_clas.
  eapply related_bind; [apply related_select_device |]. intros _ _ _.
  eapply related_bind; [apply related_check_inputs |]. intros _ _ _.
  eapply related_bind; [related_same |]. intros _ _ _. cbv zeta.
  eapply related_bind; [related_same |]. intros _ _ _.
  eapply related_bind; [by apply related_load_or_tokenize |].
  intros [[ids1 lbls1] v1] [[ids2 lbls2] v2] (Hi & Hl & Hv). cbn [fst snd] in *. subst.
  by apply related_train.
Qed.


End TestSplitRuns.

(** ** A second run *)

Section TwoRuns.

Context (UNK PAD TRN VAL TST : string) (DATASETS : list string) (PAD_TOKEN_ID : Z).
Context (read1 read2 :
           gmap Path Node → Path → string → string →
           Result (gmap string (list (list string)) * gmap string Array)).

(** X10.  Once the training ids file is in [tmp], the data stage gives the same
    result whatever the reader and whatever the parameters other than
    [data_dir], [dataset] and [lang]: a new [max_vocab] does not rebuild
    the vocabulary. *)
Theorem cached_data_ignores_reader_and_max_vocab a1 a2 w :
  data_dir a1 = data_dir a2 → dataset a1 = dataset a2 → lang a1 = lang a2 →
  is_Some (fs w !! ids_file a1 TRN) →
  load_or_tokenize UNK PAD TRN VAL TST read1 a1 w
  = load_or_tokenize UNK PAD TRN VAL TST read2 a2 w.
Proof.
  intros Hd Hs Hl Hcached.
  destruct (cache_files_eq a1 a2 Hd Hs Hl) as (Hids & Hlbl & Hvoc).
  rewrite !load_or_tokenize_run. rewrite <- Hids.
  rewrite bool_decide_eq_true_2 by done.
  unfold load_cache, load_split. by rewrite Hids, Hlbl, Hvoc.
Qed.

(** X11.  The fresh branch is not atomic.  Once the reader has returned the
    training split and its labels, the training ids file is in [tmp] when
    the data stage ends, also when the stage raises at a later split; from
    then on the data stage of every run takes the load branch, whatever its
    reader. *)
Theorem encoding_failure_leaves_the_cache_in_charge a w toks lbls trn l :
  fs w !! ids_file a TRN = None →
  is_dir (fs w !! vocab_file a) = false → is_dir (fs w !! lbl_file a TRN) = false →
  read1 (fs w) (dataset_dir a) (dataset a) (lang a) = Ok (toks, lbls) →
  toks !! TRN = Some trn → lbls !! TRN = Some l →
  let w' := (load_or_tokenize UNK PAD TRN VAL TST read1 a w).2 in
  is_file (fs w' !! ids_file a TRN) = true
  ∧ ∀ w2, fs w2 = fs w' →
      load_or_tokenize UNK PAD TRN VAL TST read2 a w2 = load_cache TRN VAL TST a w2.
Proof.
  intros Hnone Hvoc Hlbl Hread Htrn Hl w'.
  assert (Hfile : is_file (fs w' !! ids_file a TRN) = true)
    by (by eapply tokenize_saves_training_split).
  split; [done |]. intros w2 Hfs. rewrite load_or_tokenize_run, Hfs.
  rewrite bool_decide_eq_true_2; [done |]. by destruct (fs w' !! ids_file a TRN) as [[]|].
Qed.


End TwoRuns.

(** ** The claims on the small instance *)

Lemma returned_data_eq (r : Result (gmap string Array * gmap string Array * Vocab) * World) :
  is_Ok r.1 = true → r = (Ok (returned_ids r, returned_lbls r, returned_vocab r), r.2).
Proof. by destruct r as [[[[ids lbls] vocab]|e] w]. Qed.

Lemma returned_unit_eq (r : Result unit * World) : is_Ok r.1 = true → r = (Ok tt, r.2).
Proof. by destruct r as [[[]|e] w]. Qed.

(** C1 on the small instance, whose run tokenizes and returns. *)
Lemma vocabulary_from_training_split_witness :
  let r := demo_tokenize demo_args demo_world in
  r = (Ok (returned_ids r, returned_lbls r, returned_vocab r), r.2)
  ∧ ∃ toks trn,
      demo_reader (fs demo_world) (dataset_dir demo_args) (dataset demo_args)
        (lang demo_args) = Ok (toks, returned_lbls r)
      ∧ toks !! "train" = Some trn
      ∧ (∀ t, t ∈ itos (returned_vocab r) →
              t = "<unk>" ∨ t = "<pad>" ∨ ∃ ex, ex ∈ trn ∧ t ∈ ex)
      ∧ stoi (returned_vocab r) !! "<unk>"
        = Some (stoi_getitem (stoi (returned_vocab r)) "<unk>")
      ∧ itos (returned_vocab r) !! stoi_getitem (stoi (returned_vocab r)) "<unk>"
        = Some "<unk>"
      ∧ ∀ split, split ∈ ["train"; "val"; "test"] →
          ∃ exs rows,
            toks !! split = Some exs ∧ returned_ids r !! split = Some (ArrIds rows)
            ∧ length rows = length exs
            ∧ ∀ i j ex t,
                exs !! i = Some ex → ex !! j = Some t →
                stoi (returned_vocab r) !! t = None →
                ∃ row, rows !! i = Some row
                       ∧ row !! j = Some (stoi_getitem (stoi (returned_vocab r)) "<unk>").
Proof.
  intros r.
  assert (Hrun : r = (Ok (returned_ids r, returned_lbls r, returned_vocab r), r.2)).
  { apply returned_data_eq. vm_compute. reflexivity. }
  split; [exact Hrun |].
  exact (vocabulary_from_training_split "<unk>" "<pad>" "train" "val" "test" demo_reader
           demo_args demo_world _ _ _ _ Hrun).
Defined.

(** C2 at a corpus that holds the unknown token: the mapping sends the
    unknown token to its last position in the token list, 2, and not to 0. *)
Lemma unknown_token_in_corpus_gets_id_2 :
  let vocab := create_vocabulary "<unk>" "<pad>" [["<unk>"]] 1 in
  itos vocab = ["<unk>"; "<pad>"; "<unk>"]
  ∧ stoi vocab !! "<unk>" = Some 2
  ∧ stoi vocab !! "<unk>" ≠ Some 0
  ∧ numericalize "<unk>" (stoi vocab) [["never-seen"]] = [[2]].
Proof. vm_compute. split_and!; [reflexivity | reflexivity | discriminate | reflexivity]. Qed.

(** C2, as amended, on the small instance. *)
Lemma vocabulary_most_frequent_persisted_witness :
  let r := demo_tokenize demo_args demo_world in
  r = (Ok (returned_ids r, returned_lbls r, returned_vocab r), r.2)
  ∧ ∃ toks trn sel,
      demo_reader (fs demo_world) (dataset_dir demo_args) (dataset demo_args)
        (lang demo_args) = Ok (toks, returned_lbls r)
      ∧ toks !! "train" = Some trn
      ∧ itos (returned_vocab r) = "<unk>" :: "<pad>" :: sel
      ∧ NoDup sel
      ∧ length sel = Z.to_nat (max_vocab demo_args) `min` length (remove_dups (concat trn))
      ∧ (Z.of_nat (length sel) ≤ Z.max 0 (max_vocab demo_args))%Z
      ∧ (∀ t, t ∈ sel → t ∈ concat trn)
      ∧ (∀ t u, t ∈ sel → u ∈ concat trn → u ∉ sel →
                occurrences u (concat trn) ≤ occurrences t (concat trn))
      ∧ StronglySorted (λ t u, occurrences u (concat trn) ≤ occurrences t (concat trn)) sel
      ∧ (∀ t i, stoi (returned_vocab r) !! t = Some i → itos (returned_vocab r) !! i = Some t)
      ∧ (∀ t, t ∈ itos (returned_vocab r) → is_Some (stoi (returned_vocab r) !! t))
      ∧ (∀ t i j, stoi (returned_vocab r) !! t = Some i →
                  itos (returned_vocab r) !! j = Some t → j ≤ i)
      ∧ (∀ k t, sel !! k = Some t → stoi (returned_vocab r) !! t = Some (2 + k))
      ∧ ("<unk>" ≠ "<pad>" → "<unk>" ∉ sel → stoi (returned_vocab r) !! "<unk>" = Some 0)
      ∧ ("<pad>" ∉ sel → stoi (returned_vocab r) !! "<pad>" = Some 1)
      ∧ fs r.2 !! vocab_file demo_args = Some (PklFile (returned_vocab r)).
Proof.
  intros r.
  assert (Hrun : r = (Ok (returned_ids r, returned_lbls r, returned_vocab r), r.2)).
  { apply returned_data_eq. vm_compute. reflexivity. }
  split; [exact Hrun |].
  exact (vocabulary_most_frequent_persisted "<unk>" "<pad>" "train" "val" "test" demo_reader
           demo_args demo_world _ _ _ _ Hrun).
Defined.

(** C5 at two runs of the small corpus, with different data directories and
    worlds. *)
Lemma vocabulary_deterministic_witness :
  let r1 := demo_tokenize demo_args demo_world in
  let r2 := demo_tokenize (default_args ["elsewhere"; "data"])
              (mkWorld ∅ false [Print "earlier"]) in
  r1 = (Ok (returned_ids r1, returned_lbls r1, returned_vocab r1), r1.2)
  ∧ r2 = (Ok (returned_ids r2, returned_lbls r2, returned_vocab r2), r2.2)
  ∧ returned_vocab r1 = returned_vocab r2
  ∧ itos (returned_vocab r1) = itos (returned_vocab r2)
  ∧ stoi (returned_vocab r1) = stoi (returned_vocab r2).
Proof.
  intros r1 r2.
  assert (Hrun1 : r1 = (Ok (returned_ids r1, returned_lbls r1, returned_vocab r1), r1.2)).
  { apply returned_data_eq. vm_compute. reflexivity. }
  assert (Hrun2 : r2 = (Ok (returned_ids r2, returned_lbls r2, returned_vocab r2), r2.2)).
  { apply returned_data_eq. vm_compute. reflexivity. }
  split; [exact Hrun1 |]. split; [exact Hrun2 |].
  apply (vocabulary_deterministic "<unk>" "<pad>" "train" "val" "test" demo_reader
           demo_args (default_args ["elsewhere"; "data"])
           demo_world (mkWorld ∅ false [Print "earlier"])
           _ _ _ _ _ _ _ _ demo_toks demo_toks Hrun1 Hrun2).
  - vm_compute. reflexivity.
  - vm_compute. reflexivity.
  - reflexivity.
  - reflexivity.
Defined.


(** C6 on the small instance, a run with fine-tuning that returns. *)
Lemma training_steps_in_fixed_order_witness :
  let UNK := "<unk>" in let PAD := "<pad>" in
  let TRN := "train" in let VAL := "val" in let TST := "test" in
  let a := demo_args in let w := demo_world in
  let w' := (demo_run a w).2 in
  demo_run a w = (Ok tt, w')
  ∧ ∃ ids lbls vocab trn_ids val_ids tst_ids trn_lbls val_lbls,
    ids !! TRN = Some trn_ids ∧ ids !! VAL = Some val_ids ∧ ids !! TST = Some tst_ids
    ∧ lbls !! TRN = Some trn_lbls ∧ lbls !! VAL = Some val_lbls
    ∧ trace w'
      = trace w
        ++ setup_events a w
        ++ stage_events TRN VAL TST a ids lbls vocab (bool_decide (is_Some (fs w !! ids_file a TRN)))
        ++ [Print ("Train size: " +:+ pretty (len trn_ids) +:+ ". Valid size: "
                     +:+ pretty (len val_ids) +:+ ". " +:+ "Test size: "
                     +:+ pretty (len tst_ids) +:+ ".");
            LMDataBunch_from_ids (lm_data a vocab trn_ids val_ids);
            ClasDataBunch_from_ids (clas_data a vocab trn_ids val_ids trn_lbls val_lbls);
            LanguageModelLearner (lm_data a vocab trn_ids val_ids) (bptt a) 400 (nh_of a) 3
              (qrnn a) 1 ("lstm_" +:+ pretrain_name a, "itos_" +:+ pretrain_name a)
              (path_parent (model_dir_path a)) (path_name (model_dir_path a))]
        ++ (if fine_tune a
            then [Print "Fine-tuning the language model...";
                  Unfreeze (lm_learner a);
                  Fit (lm_learner a) 2 (mkDec 1 (-4), mkDec 1 (-2));
                  SaveEncoder (lm_learner a) "enc"]
            else [])
        ++ [TextClassifierLearner (clas_data a vocab trn_ids val_ids trn_lbls val_lbls)
              (bptt a) 1
              (path_parent (model_dir_path a)) (path_name (model_dir_path a))
              (qrnn a) 400 (nh_of a) 3;
            LoadEncoder (clas_learner a) "enc";
            FitOneCycle (clas_learner a) 1 (mkDec 5 (-3)) (mkDec 8 (-1), mkDec 7 (-1))
              (mkDec 1 (-7));
            FreezeTo (clas_learner a) (-2);
            FitOneCycle (clas_learner a) 1 (mkDec 5 (-3)) (mkDec 8 (-1), mkDec 7 (-1))
              (mkDec 1 (-7));
            Unfreeze (clas_learner a);
            FitOneCycle (clas_learner a) 10 (mkDec 5 (-3)) (mkDec 8 (-1), mkDec 7 (-1))
              (mkDec 1 (-7));
            Print ("Saving models at "
                     +:+ path_str (path_div (path_parent (model_dir_path a))
                                     (path_name (model_dir_path a))));
            Save (clas_learner a) ((if qrnn a then "qrnn" else "lstm") +:+ "_" +:+ name a)].
Proof.
  intros UNK PAD TRN VAL TST a w w'.
  assert (Hrun : demo_run a w = (Ok tt, w')).
  { apply (returned_unit_eq (demo_run a w)). vm_compute. reflexivity. }
  split; [exact Hrun |].
  exact (training_steps_in_fixed_order UNK PAD TRN VAL TST ["imdb"; "xnli"] 1 demo_reader
           a w w' Hrun).
Defined.

(** C9 at a call without fine-tuning that finds the encoder of an earlier
    run and returns. *)
Lemma no_fine_tuning_needs_saved_encoder_witness :
  let a := demo_args_no_fine_tune in let w := demo_world_enc in
  fine_tune a = false
  ∧ demo_run a w = (Ok tt, (demo_run a w).2)
  ∧ (∃ evs, trace (demo_run a w).2 = trace w ++ evs
          ∧ Forall (λ e, is_fine_tuning e = false) evs)
  ∧ (∀ w', demo_run a w = (Ok tt, w') →
       is_file (fs w !! enc_file a) = true
       ∧ ∃ before d,
           trace w'
           = trace w ++ before
             ++ [TextClassifierLearner d (bptt a) 1
                   (path_parent (model_dir_path a)) (path_name (model_dir_path a))
                   (qrnn a) 400 (nh_of a) 3;
                 LoadEncoder (clas_learner a) "enc";
                 FitOneCycle (clas_learner a) 1 (mkDec 5 (-3)) (mkDec 8 (-1), mkDec 7 (-1))
                   (mkDec 1 (-7));
                 FreezeTo (clas_learner a) (-2);
                 FitOneCycle (clas_learner a) 1 (mkDec 5 (-3)) (mkDec 8 (-1), mkDec 7 (-1))
                   (mkDec 1 (-7));
                 Unfreeze (clas_learner a);
                 FitOneCycle (clas_learner a) 10 (mkDec 5 (-3)) (mkDec 8 (-1), mkDec 7 (-1))
                   (mkDec 1 (-7));
                 Print ("Saving models at "
                          +:+ path_str (path_div (path_parent (model_dir_path a))
                                          (path_name (model_dir_path a))));
                 Save (clas_learner a)
                   ((if qrnn a then "qrnn" else "lstm") +:+ "_" +:+ name a)]
           ∧ Forall (λ e, is_fit_one_cycle e = false) before)
  ∧ (is_file (fs w !! enc_file a) = false →
       ∃ e w' evs, demo_run a w = (Raise e, w') ∧ trace w' = trace w ++ evs
                   ∧ Forall (λ ev, is_fit_one_cycle ev = false) evs)
  ∧ enc_file a = model_dir_path a ++ ["enc.pth"]
  ∧ (∀ a0 w0 w0',
       fine_tune a0 = true → model_dir_path a0 = model_dir_path a →
       demo_run a0 w0 = (Ok tt, w0') → fs w0' !! enc_file a = Some PthFile).
Proof.
  intros a w.
  split; [reflexivity |].
  split; [apply (returned_unit_eq (demo_run a w)); vm_compute; reflexivity |].
  exact (no_fine_tuning_needs_saved_encoder "<unk>" "<pad>" "train" "val" "test"
           ["imdb"; "xnli"] 1 demo_reader a w eq_refl).
Defined.

(** The two readers of the instance differ in the test split only. *)
Lemma demo_readers_agree : readers_agree "test" demo_reader demo_reader2 demo_args.
Proof.
  intros f1 f2 _. cbn. unfold dict_agree, demo_toks, demo_toks2, demo_lbls, demo_lbls2.
  split; (split; [intros k Hk | by rewrite !lookup_insert_ne, !lookup_insert_eq by done]).
  - destruct (decide (k = "train")) as [->|?]; [by rewrite !lookup_insert_eq |].
    destruct (decide (k = "val")) as [->|?];
      [by rewrite !(lookup_insert_ne _ "train"), !lookup_insert_eq by done |].
    by rewrite !lookup_insert_ne by done.
  - destruct (decide (k = "train")) as [->|?]; [by rewrite !lookup_insert_eq |].
    destruct (decide (k = "val")) as [->|?];
      [by rewrite !(lookup_insert_ne _ "train"), !lookup_insert_eq by done |].
    by rewrite !lookup_insert_ne by done.
Qed.

(** The two worlds of the instance differ in the cached test ids only. *)
Lemma demo_worlds_agree : world_agree demo_args "test" demo_world_test1 demo_world_test2.
Proof.
  split_and!; [| done | done]. apply fs_agree_insert_test; [apply list_elem_of_here |].
  intros p. by left.
Qed.


(** C7, as amended, on the small instance. *)
Lemma files_written_under_tmp_and_model_dir_witness :
  let a := demo_args in let w := demo_world in
  let w' := (demo_run a w).2 in
  demo_run a w = (Ok tt, w')
  ∧ fs w' !! tmp_dir a = Some Dir
  ∧ (∃ v, fs w' !! vocab_file a = Some (PklFile v))
  ∧ fs w' !! model_file a = Some PthFile
  ∧ ∀ p, fs w' !! p ≠ fs w !! p →
      p = tmp_dir a
      ∨ (∃ n, p = tmp_dir a ++ [n] ∧ parts n = [n])
      ∨ (∃ n, p = model_dir_path a ++ [n] ∧ parts n = [n]).
Proof.
  intros a w w'.
  assert (Hrun : demo_run a w = (Ok tt, w')).
  { apply (returned_unit_eq (demo_run a w)). vm_compute. reflexivity. }
  destruct (files_written_under_tmp_and_model_dir "<unk>" "<pad>" "train" "val" "test"
              ["imdb"; "xnli"] 1 demo_reader a w
              eq_refl eq_refl eq_refl eq_refl eq_refl) as (_ & Hframe & Hleft).
  destruct (Hleft w' Hrun) as (_ & _ & Htmp & _ & Hvocab & Hmodel).
  split; [exact Hrun |]. split; [exact Htmp |]. split; [exact Hvocab |].
  split; [exact Hmodel |].
  intros p Hp. destruct (Hframe p Hp) as [Hq|[[_ Hq]|[_ Hq]]]; [by left | |]; right.
  - left. exact Hq.
  - right. exact Hq.
Defined.

(** C7 at a [lang] with separators: the checks pass and the run writes
    the vocabulary, at a path whose last component is five parts for
    [pathlib], through a directory that exists and four times [".."]: the
    file is [evil.pkl] next to [data], not under [tmp]. *)
Lemma separator_in_lang_writes_outside_tmp :
  let a := escape_args in let w := escape_world in
  inputs_valid ["imdb"; "xnli"] a (fs w)
  ∧ fs w !! vocab_file a = None
  ∧ is_file (fs (demo_run a w).2 !! vocab_file a) = true
  ∧ vocab_file a = tmp_dir a ++ ["vocab_x/../../../../evil.pkl"]
  ∧ tmp_dir a = ["data"; "xnli"; "tmp"]
  ∧ parts "vocab_x/../../../../evil.pkl" = ["vocab_x"; ".."; ".."; ".."; ".."; "evil.pkl"]
  ∧ fs w !! (tmp_dir a ++ ["vocab_x"]) = Some Dir
  ∧ resolve (tmp_dir a ++ parts "vocab_x/../../../../evil.pkl") = ["evil.pkl"]
  ∧ ¬ tmp_dir a `prefix_of` ["evil.pkl"].
Proof.
  intros a w. split_and!; try (vm_compute; reflexivity).
  - split_and!; [apply list_elem_of_further, list_elem_of_here | by right | reflexivity | | |];
      vm_compute; by eexists.
  - intros [k Hk]. vm_compute in Hk. discriminate.
Qed.

(** C8 at a cache that holds the training ids and no training labels: the
    load branch is taken and raises. *)
Lemma cache_existence_test_is_partial_witness :
  let a := demo_args in let w := demo_world_train_ids in
  is_Some (fs w !! ids_file a "train")
  ∧ fs w !! lbl_file a "train" = None
  ∧ ∃ e w' evs,
      demo_load a w = (Raise e, w')
      ∧ fs w' = fs w
      ∧ trace w' = trace w ++ evs
      ∧ Forall (λ ev, is_cache_read ev = true) evs.
Proof.
  intros a w.
  assert (Hsome : is_Some (fs w !! ids_file a "train")) by (vm_compute; by eexists).
  assert (Hnone : fs w !! lbl_file a "train" = None) by (vm_compute; reflexivity).
  split; [exact Hsome |]. split; [exact Hnone |].
  destruct (cache_existence_test_is_partial "<unk>" "<pad>" "train" "val" "test"
              demo_reader a w) as [_ Hcached].
  destruct (Hcached Hsome) as [_ Hmissing].
  exact (Hmissing (lbl_file a "train") (list_elem_of_here _ _) Hnone).
Defined.

(** C4, as amended, on the small instance, where the six checks pass. *)
Lemma input_assertions_witness :
  let a := demo_args in let w := demo_world in
  let shown :=
    add_event (Print ("Dataset: " +:+ dataset a +:+ ". Language: " +:+ lang a +:+ "."))
      (after_device a w) in
  inputs_valid ["imdb"; "xnli"] a (fs w)
  ∧ check_inputs ["imdb"; "xnli"] a (after_device a w) = (Ok tt, shown).
Proof.
  intros a w shown.
  destruct (input_assertions "<unk>" "<pad>" "train" "val" "test" ["imdb"; "xnli"] 1
              demo_reader a w) as (_ & _ & _ & _ & _ & _ & _ & Hvalid).
  assert (Hok : inputs_valid ["imdb"; "xnli"] a (fs w)).
  { split_and!; [apply list_elem_of_here | by left | reflexivity | | |];
      vm_compute; by eexists. }
  split; [exact Hok |]. apply Hvalid. exact Hok.
Defined.

(** C4 at a call whose data directory is called [foo]: the dataset is
    supported, the language fits it and the three directories exist, and
    the run still ends with an [AssertionError], the one about the name of
    the data directory. *)
Lemma data_directory_name_is_asserted :
  dataset foo_args ∈ ["imdb"; "xnli"]
  ∧ (dataset foo_args = "imdb" ∧ lang foo_args = "en")
  ∧ fs foo_world !! data_dir_path foo_args = Some Dir
  ∧ fs foo_world !! dataset_dir foo_args = Some Dir
  ∧ fs foo_world !! model_dir_path foo_args = Some Dir
  ∧ (demo_run foo_args foo_world).1
    = Raise (AssertionError "Error: Name of data directory should be data, not foo.")
  ∧ fs (demo_run foo_args foo_world).2 = fs foo_world.
Proof.
  split_and!; try (vm_compute; reflexivity).
  apply list_elem_of_here.
Qed.

(** ** More facts on the small instance *)

Lemma demo_inputs_valid (f : gmap Path Node) :
  f !! ["data"] = Some Dir → f !! ["data"; "imdb"] = Some Dir → f !! ["models"] = Some Dir →
  inputs_valid ["imdb"; "xnli"] demo_args f.
Proof.
  intros Hd Hs Hm.
  split_and!; [apply list_elem_of_here | by left | reflexivity | | |].
  - change (data_dir_path demo_args) with ["data"]. by rewrite Hd.
  - change (dataset_dir demo_args) with ["data"; "imdb"]. by rewrite Hs.
  - change (model_dir_path demo_args) with ["models"]. by rewrite Hm.
Qed.

(** The training split of the instance has three distinct tokens. *)
Lemma large_vocabulary_is_lossless_witness :
  let trn := [["a"; "b"; "a"]; ["c"; "a"; "b"]] in
  let v := create_vocabulary "<unk>" "<pad>" trn 3 in
  (Z.of_nat (length (remove_dups (concat trn))) ≤ 3)%Z
  ∧ Forall2 (Forall2 (λ t id, itos v !! id = Some t)) trn (numericalize "<unk>" (stoi v) trn).
Proof.
  intros trn v.
  assert (Hn : (Z.of_nat (length (remove_dups (concat trn))) ≤ 3)%Z)
    by (vm_compute; discriminate).
  split; [exact Hn |].
  apply (large_vocabulary_is_lossless "<unk>" "<pad>" trn 3 trn Hn).
  intros ex t Hex Ht. apply elem_of_concat. by exists ex.
Defined.

Lemma larger_max_vocab_keeps_ids_witness :
  let trn := [["a"; "b"; "a"]; ["c"; "a"; "b"]] in
  let v := create_vocabulary "<unk>" "<pad>" trn 1 in
  let v' := create_vocabulary "<unk>" "<pad>" trn 2 in
  itos v `prefix_of` itos v'
  ∧ ∀ t, t ∈ itos v → t ≠ "<unk>" → t ≠ "<pad>" → stoi v !! t = stoi v' !! t.
Proof.
  intros trn v v'.
  apply (larger_max_vocab_keeps_ids "<unk>" "<pad>" trn 1 2). lia.
Defined.

(** [tmp] is a file: the run stops at [mkdir]. *)
Lemma tmp_that_is_a_file_stops_the_run_witness :
  let a := demo_args in let w := demo_world_tmp_file in
  is_file (fs w !! tmp_dir a) = true
  ∧ demo_run a w = (Raise (OSError FileExists (tmp_dir a)),
                    add_event (Mkdir (tmp_dir a)) (after_checks a w))
  ∧ fs (demo_run a w).2 = fs w
  ∧ trace (demo_run a w).2 = trace w ++ setup_events a w.
Proof.
  intros a w.
  assert (Hfile : is_file (fs w !! tmp_dir a) = true) by (vm_compute; reflexivity).
  split; [exact Hfile |].
  apply (tmp_that_is_a_file_stops_the_run "<unk>" "<pad>" "train" "val" "test"
           ["imdb"; "xnli"] 1 demo_reader a w); [|exact Hfile].
  apply demo_inputs_valid; vm_compute; reflexivity.
Defined.

(** The reader raises: [tmp] is made, the cache stays empty. *)
Lemma reader_failure_leaves_the_cache_empty_witness :
  let a := demo_args in let w := demo_world in
  let e := OSError FileNotFound ["data"; "imdb"; "train.csv"] in
  ∃ w', new_train_clas "<unk>" "<pad>" "train" "val" "test" ["imdb"; "xnli"] 1
          demo_reader_raising a w = (Raise e, w')
        ∧ fs w' = <[tmp_dir a := Dir]> (fs w)
        ∧ fs w' !! ids_file a "train" = None
        ∧ trace w' = trace w ++ setup_events a w
                     ++ [Print "Reading the data...";
                         ReadClasData (dataset_dir a) (dataset a) (lang a)].
Proof.
  intros a w e.
  apply (reader_failure_leaves_the_cache_empty "<unk>" "<pad>" "train" "val" "test"
           ["imdb"; "xnli"] 1 demo_reader_raising a w e).
  - apply demo_inputs_valid; vm_compute; reflexivity.
  - vm_compute. reflexivity.
  - vm_compute. reflexivity.
  - vm_compute. reflexivity.
  - reflexivity.
Defined.

(** The reader gives no validation split: the data stage raises
    [KeyError], the training ids are in [tmp], and the next data stage
    loads. *)
Lemma encoding_failure_leaves_the_cache_in_charge_witness :
  let a := demo_args in let w := demo_world in
  let r := load_or_tokenize "<unk>" "<pad>" "train" "val" "test" demo_reader_no_val a w in
  r.1 = Raise (KeyError "val")
  ∧ is_file (fs r.2 !! ids_file a "train") = true
  ∧ ∀ w2, fs w2 = fs r.2 →
      load_or_tokenize "<unk>" "<pad>" "train" "val" "test" demo_reader a w2
      = load_cache "train" "val" "test" a w2.
Proof.
  intros a w r. split; [vm_compute; reflexivity |].
  apply (encoding_failure_leaves_the_cache_in_charge "<unk>" "<pad>" "train" "val" "test"
           demo_reader_no_val demo_reader a w demo_toks_no_val demo_lbls
           [["a"; "b"; "a"]; ["c"; "a"; "b"]] (ArrLbls [0; 1]%Z)).
  - vm_compute. reflexivity.
  - vm_compute. reflexivity.
  - vm_compute. reflexivity.
  - reflexivity.
  - vm_compute. reflexivity.
  - vm_compute. reflexivity.
Defined.

(** The training ids are cached: another reader and another [max_vocab]
    change nothing. *)
Lemma cached_data_ignores_reader_and_max_vocab_witness :
  let w := demo_world_train_ids in
  is_Some (fs w !! ids_file demo_args "train")
  ∧ load_or_tokenize "<unk>" "<pad>" "train" "val" "test" demo_reader demo_args w
    = load_or_tokenize "<unk>" "<pad>" "train" "val" "test" demo_reader2
        (demo_args_max_vocab 1) w.
Proof.
  intros w.
  assert (Hcached : is_Some (fs w !! ids_file demo_args "train"))
    by (vm_compute; by eexists).
  split; [exact Hcached |].
  by apply (cached_data_ignores_reader_and_max_vocab "<unk>" "<pad>" "train" "val" "test"
              demo_reader demo_reader2 demo_args (demo_args_max_vocab 1) w).
Defined.

